(** * DownSample: ROI negotiation and strided subsampling

    A shallow embedding of [gunpowder/nodes/downsample.py].  The node
    [DownSample] rewrites a batch request on its way upstream ([prepare])
    and, on the way back, crops, decimates and restores the volumes of the
    batch ([process]).

    The classes [Coordinate], [Roi], [Volume], the request and the batch
    live in other modules of the package; they are modelled here from
    their description in the specification and are marked as such.  The
    node itself is translated line by line from [downsample.py]. *)

From stdpp Require Import gmap strings list fin_maps.
From Stdlib Require Import ZArith Lia.

Open Scope Z_scope.

(** ** Exceptions

    Python exceptions are values of [error].  The two [assert]s on ROI
    containment and the [assert] on the decimated shape are kept apart by
    the names the specification gives them. *)

(** A volume type is an identifier; only equality and hashing are used. *)
Definition VolumeType := string.

Inductive error : Type :=
| DimensionMismatch                (* arithmetic on tuples of different length *)
| ContainmentViolation             (* [assert input_roi.contains(...)] *)
| ShapeMismatch                    (* [assert data.shape == request_roi.get_shape()] *)
| KeyError (k : VolumeType)        (* [d[k]] on a missing key *)
| IndexError                       (* more slices than array axes *)
| ValueError                       (* slice step zero *)
| ConfigurationError.              (* the [assert]s of [__init__] *)

Inductive result (A : Type) : Type :=
| Ok (a : A)
| Err (e : error).
Arguments Ok {A} a.
Arguments Err {A} e.

Definition bind {A B} (m : result A) (k : A -> result B) : result B :=
  match m with
  | Ok a => k a
  | Err e => Err e
  end.

Notation "'let?' x ':=' m 'in' k" := (bind m (fun x => k))
  (at level 10, x pattern, m at level 100, k at level 200).

Definition guard (b : bool) (e : error) : result unit :=
  if b then Ok tt else Err e.

(** ** Scaling factors

    [f] is either a number or a tuple of numbers, told apart in the source
    by [isinstance(f, tuple)]. *)
Inductive factor : Type :=
| Uniform (k : Z)
| PerAxis (ks : list Z).

(** ** Coordinates *)
Module Coordinate.

(** Modelled from the spec: class [Coordinate] (gunpowder/coordinate.py),
    "an immutable n-dimensional integer vector with arithmetic (add,
    subtract, multiply, elementwise divide)"; "arithmetic ops require
    matching d". *)
Definition t := list Z.

Definition dims (c : t) : nat := length c.

Definition same_dims (a b : t) : bool := Nat.eqb (length a) (length b).

(** Modelled from the spec: [a + b], componentwise, same dimensionality
    required. *)
Definition add (a b : t) : result t :=
  if same_dims a b then Ok (zip_with Z.add a b) else Err DimensionMismatch.

(** Modelled from the spec: [a - b], componentwise, same dimensionality
    required. *)
Definition sub (a b : t) : result t :=
  if same_dims a b then Ok (zip_with Z.sub a b) else Err DimensionMismatch.

(** Modelled from the spec: [c * f] where "factor is either a single
    scalar applied to every dimension or a per-dimension vector; fails
    with DimensionMismatch if a vector factor's length differs". *)
Definition mul (c : t) (f : factor) : result t :=
  match f with
  | Uniform k => Ok (map (fun a => a * k) c)
  | PerAxis ks =>
      if same_dims c ks then Ok (zip_with Z.mul c ks) else Err DimensionMismatch
  end.

(** Modelled from the spec: [c / 2] in "integer arithmetic"; the
    rounding is the floor of Python's integer division. *)
Definition half (c : t) : t := map (fun a => a / 2) c.

End Coordinate.

(** ** Regions of interest *)

(** Modelled from the spec: class [Roi] (gunpowder/roi.py), "an axis-aligned
    box in coordinate space: an offset Coordinate and a shape Coordinate". *)
Record Roi : Type := mkRoi {
  offset : Coordinate.t;
  shape : Coordinate.t
}.

Global Instance Roi_eq_dec : EqDecision Roi.
Proof. solve_decision. Defined.

(** The invariant of the data model: "shape components >= 0;
    dimensionality of offset and shape match". *)
Definition roi_dims_ok (r : Roi) : Prop := length (offset r) = length (shape r).

Definition wf_roi (r : Roi) : Prop :=
  roi_dims_ok r /\ Forall (fun s => 0 <= s) (shape r).

Module RoiOps.

Definition dims (r : Roi) : nat := Coordinate.dims (offset r).
Definition get_begin (r : Roi) : Coordinate.t := offset r.
Definition get_shape (r : Roi) : Coordinate.t := shape r.

(** Modelled from the spec: "center(roi): returns offset + shape/2
    (integer arithmetic)". *)
Definition get_center (r : Roi) : result Coordinate.t :=
  Coordinate.add (offset r) (Coordinate.half (shape r)).

(** Modelled from the spec: "Scaling multiplies both offset and shape by
    factor componentwise (not center-preserving by itself)". *)
Definition mul (r : Roi) (f : factor) : result Roi :=
  let? o := Coordinate.mul (offset r) f in
  let? s := Coordinate.mul (shape r) f in
  Ok (mkRoi o s).

(** Modelled from the spec: translation, [roi - c] moves the offset by
    [-c] and keeps the shape. *)
Definition sub (r : Roi) (c : Coordinate.t) : result Roi :=
  let? o := Coordinate.sub (offset r) c in
  Ok (mkRoi o (shape r)).

(** Modelled from the spec: "union(a, b): smallest ROI containing both a
    and b": per axis the smaller begin and the larger end. *)
Definition union (a b : Roi) : result Roi :=
  let? _ := guard (Coordinate.same_dims (offset a) (offset b)
                   && Coordinate.same_dims (shape a) (shape b)
                   && Coordinate.same_dims (offset a) (shape a)) DimensionMismatch in
  let lo := zip_with Z.min (offset a) (offset b) in
  let hi := zip_with Z.max (zip_with Z.add (offset a) (shape a))
                           (zip_with Z.add (offset b) (shape b)) in
  Ok (mkRoi lo (zip_with Z.sub hi lo)).

(** A ROI with a non-positive extent along some axis holds no
    coordinate. *)
Definition is_empty (r : Roi) : bool := existsb (fun s => s <=? 0) (shape r).

Fixpoint box_within (ao ash bo bsh : list Z) : bool :=
  match ao, ash, bo, bsh with
  | [], [], [], [] => true
  | a :: ao', s :: ash', b :: bo', u :: bsh' =>
      (a <=? b) && (b + u <=? a + s) && box_within ao' ash' bo' bsh'
  | _, _, _, _ => false
  end.

(** Modelled from the spec: "contains(a, b): true iff every coordinate in
    b lies within a". *)
Definition contains (a b : Roi) : bool :=
  is_empty b || box_within (offset a) (shape a) (offset b) (shape b).

End RoiOps.

(** ** The center-preserving scale, [DownSample.__scale_roi] *)
Definition scale_roi (roi : Roi) (f : factor) : result Roi :=
  let? prev_center := RoiOps.get_center roi in
  let? scaled_roi := RoiOps.mul roi f in
  let? new_center := RoiOps.get_center scaled_roi in
  let? shift := Coordinate.sub new_center prev_center in
  RoiOps.sub scaled_roi shift.

(** A factor fits a ROI when it is a number, or a tuple with one entry per
    axis. *)
Definition factor_fits (f : factor) (n : nat) : Prop :=
  match f with
  | Uniform _ => True
  | PerAxis ks => length ks = n
  end.

Definition factor_positive (f : factor) : Prop :=
  match f with
  | Uniform k => 0 < k
  | PerAxis ks => Forall (fun k => 0 < k) ks
  end.

(** The factor as one multiplier per axis. *)
Definition factor_list (f : factor) (n : nat) : list Z :=
  match f with
  | Uniform k => replicate n k
  | PerAxis ks => ks
  end.

(** The closed form of [scale_roi]: per axis, the shape is multiplied and
    the offset becomes [o + s/2 - (s*k)/2]. *)
Definition scaled_offset (o s k : Z) : Z := o + s / 2 - (s * k) / 2.

Definition scale_roi_closed (roi : Roi) (ks : list Z) : Roi :=
  mkRoi (zip_with (fun os k => scaled_offset os.1 os.2 k)
                  (zip (offset roi) (shape roi)) ks)
        (zip_with Z.mul (shape roi) ks).

(** ** Python containers and numpy arrays *)

(** A [dict] is read through [items()], in insertion order; its keys are
    pairwise different.  [dict_set] is [d[k] = v] and [dict_literal] the
    display [{k1: v1, k2: v2, ...}]: a repeated key keeps its first
    position and its last value. *)
Fixpoint dict_set {K V} `{EqDecision K} (d : list (K * V)) (k : K) (v : V)
  : list (K * V) :=
  match d with
  | [] => [(k, v)]
  | (k', v') :: d' =>
      if decide (k' = k) then (k', v) :: d' else (k', v') :: dict_set d' k v
  end.

Definition dict_literal {K V} `{EqDecision K} (l : list (K * V)) : list (K * V) :=
  foldl (fun d kv => dict_set d kv.1 kv.2) [] l.

(** [d[k]], raising [KeyError] on a missing key. *)
Definition getkey {V} (d : gmap VolumeType V) (k : VolumeType) : result V :=
  match d !! k with
  | Some v => Ok v
  | None => Err (KeyError k)
  end.

(** A dense array: its shape and the cell at each index tuple. *)
Record ndarray (elt : Type) : Type := mkArray {
  nd_shape : list Z;
  nd_at : list Z -> elt
}.
Arguments mkArray {elt} _ _.
Arguments nd_shape {elt} _.
Arguments nd_at {elt} _ _.

(** Python's [slice(start, stop, step)]; [None] is [None]. *)
Record slice : Type := mkSlice {
  start : option Z;
  stop : option Z;
  step : option Z
}.

(** Clipping of a given slice bound against an axis of length [n], as
    [slice.indices] does it. *)
Definition adjust (n st x : Z) : Z :=
  if x <? 0 then
    if x + n <? 0 then (if st <? 0 then -1 else 0) else x + n
  else if n <=? x then (if st <? 0 then n - 1 else n)
  else x.

(** [slice.indices(n)] together with the number of selected cells:
    first index, stride, count. *)
Definition slice_indices (sl : slice) (n : Z) : result (Z * Z * Z) :=
  let st := default 1 (step sl) in
  if st =? 0 then Err ValueError else
  let lo := match start sl with
            | Some x => adjust n st x
            | None => if st <? 0 then n - 1 else 0
            end in
  let hi := match stop sl with
            | Some x => adjust n st x
            | None => if st <? 0 then -1 else n
            end in
  let len := if st <? 0
             then (if hi <? lo then (lo - hi - 1) / (- st) + 1 else 0)
             else (if lo <? hi then (hi - lo - 1) / st + 1 else 0) in
  Ok (lo, st, len).

Fixpoint slice_axes (sls : list slice) (shp : list Z) : result (list (Z * Z * Z)) :=
  match sls, shp with
  | [], _ => Ok []
  | _ :: _, [] => Err IndexError
  | sl :: sls', n :: shp' =>
      let? a := slice_indices sl n in
      let? r := slice_axes sls' shp' in
      Ok (a :: r)
  end.

(** The index in the sliced array's base that an index of the slice
    denotes; axes beyond the given slices are taken whole. *)
Fixpoint reindex (axes : list (Z * Z * Z)) (idx : list Z) : list Z :=
  match axes, idx with
  | (lo, st, _) :: axes', i :: idx' => (lo + i * st) :: reindex axes' idx'
  | _, _ => idx
  end.

(** numpy basic indexing with a tuple of slices, [a[slices]].  More slices
    than axes is an [IndexError], raised before any slice is looked at. *)
Definition getitem {elt} (a : ndarray elt) (sls : list slice) : result (ndarray elt) :=
  let? _ := guard (Nat.leb (length sls) (length (nd_shape a))) IndexError in
  let? axes := slice_axes sls (nd_shape a) in
  Ok (mkArray (map (fun a => a.2) axes ++ drop (length sls) (nd_shape a))
              (fun idx => nd_at a (reindex axes idx))).

(** Modelled from the spec: [Roi.get_bounding_box], the tuple of slices
    [offset[d] : offset[d] + shape[d]] that addresses "the sub-array
    addressed by roi - volume.roi.offset". *)
Definition get_bounding_box (r : Roi) : list slice :=
  zip_with (fun o s => mkSlice (Some o) (Some (o + s)) None) (offset r) (shape r).

(** Modelled from the spec: class [Volume] (gunpowder/volume.py), "a
    materialized array together with its ROI and its resolution". *)
Record Volume (elt : Type) : Type := mkVolume {
  data : ndarray elt;
  roi : Roi;
  resolution : Coordinate.t
}.
Arguments mkVolume {elt} _ _ _.
Arguments data {elt} _.
Arguments roi {elt} _.
Arguments resolution {elt} _.

(** The invariant of the data model: "data.shape == roi.shape". *)
Definition wf_volume {elt} (v : Volume elt) : Prop :=
  wf_roi (roi v) /\ nd_shape (data v) = shape (roi v).

(** Modelled from the spec: [request.volumes], "a mapping from a
    volume-type identifier to a requested ROI", and [batch.volumes], "a
    mapping from a volume-type identifier to a Volume". *)
Abbreviation Request := (gmap VolumeType Roi).
Abbreviation Batch elt := (gmap VolumeType (Volume elt)).

(** ** The node *)

(** One entry of [volume_factors.items()]:
    [input_volume, (f, output_volume)]. *)
Definition item : Type := VolumeType * (factor * VolumeType).

Definition item_input (it : item) : VolumeType := it.1.
Definition item_factor (it : item) : factor := it.2.1.
Definition item_output (it : item) : VolumeType := it.2.2.

Record DownSample : Type := mkDownSample {
  volume_factors : list item;
  outputs : list VolumeType
}.

(** The loop of [__init__] over [volume_factors.items()]; the [isinstance]
    assertions are carried by the types. *)
Fixpoint init_outputs (items : list item) (outs : list VolumeType)
  : result (list VolumeType) :=
  match items with
  | [] => Ok outs
  | (_, (_, output_volume)) :: items' =>
      let? _ := guard (negb (bool_decide (output_volume ∈ outs))) ConfigurationError in
      init_outputs items' (outs ++ [output_volume])
  end.

(** [DownSample.__init__]; the argument is a dict, given by its items. *)
Definition DownSample_init (volume_factors : list item) : result DownSample :=
  let d := dict_literal volume_factors in
  let? outs := init_outputs d [] in
  Ok (mkDownSample d outs).

(** What a [for] loop over the items leaves behind: the state after the
    last iteration, or the exception together with the state at the moment
    it was raised (the request and the batch are mutated in place). *)
Inductive outcome (S : Type) : Type :=
| Done (s : S)
| Raised (e : error) (s : S).
Arguments Done {S} s.
Arguments Raised {S} e s.

Fixpoint for_items {S} (body : S -> item -> result S) (items : list item) (s : S)
  : outcome S :=
  match items with
  | [] => Done s
  | it :: items' =>
      match body s it with
      | Ok s' => for_items body items' s'
      | Err e => Raised e s
      end
  end.

(** The body of the loop of [DownSample.prepare]. *)
Definition prepare_pair (request : Request) (it : item) : result Request :=
  let '(input_volume, (f, output_volume)) := it in
  match request !! output_volume with
  | None => Ok request
  | Some request_roi =>
      let? scaled_roi := scale_roi request_roi f in
      (* add or merge to batch request *)
      let? request' :=
        match request !! input_volume with
        | Some existing =>
            let? merged := RoiOps.union existing scaled_roi in
            Ok (<[input_volume := merged]> request)
        | None => Ok (<[input_volume := scaled_roi]> request)
        end in
      (* remove volume type provided by us *)
      Ok (delete output_volume request')
  end.

(** [DownSample.prepare]. *)
Definition prepare (self : DownSample) (request : Request) : outcome Request :=
  for_items prepare_pair (volume_factors self) request.

(** The strides of the decimation, [slice(None, None, k)] per axis. *)
Definition stride_slices (f : factor) (n : nat) : list slice :=
  match f with
  | PerAxis ks => map (fun k => mkSlice None None (Some k)) ks
  | Uniform k => replicate n (mkSlice None None (Some k))
  end.

Section Process.
Context {elt : Type}.

(** The body of the first loop of [DownSample.process]. *)
Definition process_pair (request : Request) (batch : Batch elt) (it : item)
  : result (Batch elt) :=
  let '(input_volume, (f, output_volume)) := it in
  match request !! output_volume with
  | None => Ok batch
  | Some request_roi =>
      let? scaled_roi := scale_roi request_roi f in
      let? input := getkey batch input_volume in
      let input_roi := roi input in
      let? _ := guard (RoiOps.contains input_roi scaled_roi) ContainmentViolation in
      (* get data corresponding to scaled roi *)
      let? window := RoiOps.sub scaled_roi (RoiOps.get_begin input_roi) in
      let? cropped := getitem (data input) (get_bounding_box window) in
      (* downsample *)
      let slices := stride_slices f (RoiOps.dims input_roi) in
      let? strided := getitem cropped slices in
      let? _ := guard (bool_decide (nd_shape strided = RoiOps.get_shape request_roi))
                      ShapeMismatch in
      (* create output volume *)
      let? res := Coordinate.mul (resolution input) f in
      Ok (<[output_volume := mkVolume strided request_roi res]> batch)
  end.

(** The body of the second loop of [DownSample.process], "restore
    requested rois".  The two assignments to the fields [data] and [roi]
    of the volume object are the replacement of the entry of the batch:
    the volumes of a batch are distinct objects, each owned by the
    batch. *)
Definition restore_pair (request : Request) (batch : Batch elt) (it : item)
  : result (Batch elt) :=
  let '(input_volume, _) := it in
  match batch !! input_volume with
  | None => Ok batch
  | Some input =>
      let input_roi := roi input in
      let? request_roi := getkey request input_volume in
      if bool_decide (input_roi <> request_roi) then
        let? _ := guard (RoiOps.contains input_roi request_roi) ContainmentViolation in
        let? window := RoiOps.sub request_roi (RoiOps.get_begin input_roi) in
        let? cropped := getitem (data input) (get_bounding_box window) in
        Ok (<[input_volume := mkVolume cropped request_roi (resolution input)]> batch)
      else Ok batch
  end.

(** [DownSample.process]. *)
Definition process (self : DownSample) (batch : Batch elt) (request : Request)
  : outcome (Batch elt) :=
  match for_items (process_pair request) (volume_factors self) batch with
  | Done batch' => for_items (restore_pair request) (volume_factors self) batch'
  | Raised e batch' => Raised e batch'
  end.

End Process.

(** What the specification promises about a decimated array: cell [x] of
    the output is the cell [w + x * k] of the input, per axis, where [w] is
    the begin of the window inside the input array. *)
Fixpoint decimate_index (w ks idx : list Z) : list Z :=
  match w, ks, idx with
  | a :: w', k :: ks', x :: idx' => (a + x * k) :: decimate_index w' ks' idx'
  | _, _, _ => []
  end.

(** The coordinates a ROI holds, for the reading of [contains]. *)
Fixpoint inside (o s p : list Z) : Prop :=
  match o, s, p with
  | [], [], [] => True
  | a :: o', n :: s', x :: p' => a <= x < a + n /\ inside o' s' p'
  | _, _, _ => False
  end.

(** A node that [__init__] accepts: the keys of a dict are pairwise
    different, and so are the outputs, by the assertion "Output volume
    type %s is used twice". *)
Definition valid_items (items : list item) : Prop :=
  NoDup (map item_input items) /\ NoDup (map item_output items).

(** No pair's output type is the input type of another pair. *)
Definition no_feeding (items : list item) : Prop :=
  forall p q, p ∈ items -> q ∈ items -> item_output p = item_input q -> p = q.

(** ** Concrete requests, nodes and batches *)
Module Examples.

Definition A : VolumeType := "A"%string.
Definition B : VolumeType := "B"%string.
Definition C : VolumeType := "C"%string.

Definition cube (o n : Z) : Roi := mkRoi [o; o; o] [n; n; n].

(** The configuration [{A: (2, B)}] and the request [{B: ROI((0,0,0), (4,4,4))}]. *)
Definition half_node : DownSample := mkDownSample [(A, (Uniform 2, B))] [B].
Definition half_request : Request := {[ B := cube 0 4 ]}.

(** A cubic array of edge [n] that stores in each cell its own index. *)
Definition index_array (n : Z) : ndarray (list Z) := mkArray [n; n; n] (fun idx => idx).

(** Upstream delivers [A] on [[-3, 7)] per axis. *)
Definition wide_batch : Batch (list Z) :=
  {[ A := mkVolume (index_array 10) (cube (-3) 10) [4; 4; 40] ]}.

(** Upstream delivers [A] on [[0, 4)] per axis only. *)
Definition narrow_batch : Batch (list Z) :=
  {[ A := mkVolume (index_array 4) (cube 0 4) [4; 4; 40] ]}.

(** A volume that claims [[-3, 7)] per axis but holds 5 cells per axis. *)
Definition short_batch : Batch (list Z) :=
  {[ A := mkVolume (index_array 5) (cube (-3) 10) [4; 4; 40] ]}.

(** The request of a consumer that asks for [A] itself as well. *)
Definition both_request : Request := {[ A := cube 0 4; B := cube 0 4 ]}.
Definition merge_request : Request := {[ A := cube 3 6; B := cube 0 4 ]}.

(** The configuration [{A: (2, B), B: (2, C)}]: [B] is made from [A] and
    [C] from [B]. *)
Definition chain_entries : list item := [(A, (Uniform 2, B)); (B, (Uniform 2, C))].
Definition chain_node : DownSample := mkDownSample chain_entries [B; C].
Definition chain_request : Request := {[ C := cube 0 4 ]}.

(** The display [{A: (2, B), A: (3, C)}]: the second entry replaces the
    first. *)
Definition shared_entries : list item := [(A, (Uniform 2, B)); (A, (Uniform 3, C))].
Definition shared_node : DownSample := mkDownSample [(A, (Uniform 3, C))] [C].
Definition shared_request : Request := {[ B := cube 0 4; C := cube 10 2 ]}.

End Examples.

(** ** Further notions for the properties of the node *)

(** The request or batch a loop leaves behind, whether it ended or
    raised. *)
Definition state_of {S} (out : outcome S) : S :=
  match out with
  | Done s => s
  | Raised _ s => s
  end.

(** The factor of two downsamplings in a row, per axis. *)
Definition factor_compose (f g : factor) : factor :=
  match f, g with
  | Uniform a, Uniform b => Uniform (a * b)
  | Uniform a, PerAxis ls => PerAxis (map (fun l => a * l) ls)
  | PerAxis ks, Uniform b => PerAxis (map (fun k => k * b) ks)
  | PerAxis ks, PerAxis ls => PerAxis (zip_with Z.mul ks ls)
  end.

Definition factor_at_least_one (f : factor) : Prop :=
  match f with
  | Uniform k => 1 <= k
  | PerAxis ks => Forall (fun k => 1 <= k) ks
  end.

(** A factor with a zero entry on one of [n] axes. *)
Definition factor_has_zero (f : factor) (n : nat) : Prop := 0 ∈ factor_list f n.

(** Items whose input and output types are all pairwise different. *)
Definition separated (items : list item) : Prop :=
  NoDup (map item_input items ++ map item_output items).

(** A key that no configured pair reads or writes. *)
Definition not_configured (items : list item) (k : VolumeType) : Prop :=
  Forall (fun q => k <> item_input q /\ k <> item_output q) items.

(** What the restore loop makes of an input volume [v]: the volume [v']
    has the ROI the request holds for the type and the resolution of [v];
    it is [v] itself when [v] had that ROI already, and otherwise its
    array is the array of [v] cut to the requested ROI. *)
Definition restored {elt} (request : Request) (i : VolumeType) (v v' : Volume elt) : Prop :=
  exists rr, request !! i = Some rr /\ roi v' = rr /\ resolution v' = resolution v /\
    ((roi v = rr /\ v' = v) \/
     (roi v <> rr /\ RoiOps.contains (roi v) rr = true /\
      exists w, RoiOps.sub rr (RoiOps.get_begin (roi v)) = Ok w /\
                getitem (data v) (get_bounding_box w) = Ok (data v'))).

(** The node that [__init__] makes of a mapping whose [items()] are the
    given pairs: [__init__] reads [volume_factors] through [items()] only,
    and its assertions are those of [init_outputs]. *)
Definition accepted_items (self : DownSample) : Prop :=
  init_outputs (volume_factors self) [] = Ok (outputs self).


(** ** [tensorflow/nodes/train.py]: what to fetch and what to feed

    [Train.__collect_requested_outputs] and
    [Train.__collect_provided_inputs] build two dicts from the node's
    configuration, the request and the batch.  Array keys, tensors, arrays
    and batch attributes are opaque: only membership, lookup and equality
    of keys are used. *)
Module Train.

(** The exceptions of the two functions. *)
Inductive exn : Type :=
| GradientKeyError (name : string)   (* [self.tf_gradient[output_name]] *)
| AttributeError (name : string)     (* [getattr(batch, input_key)] *)
| UnknownInputKey.                   (* [raise Exception("Unknown network input key ...")] *)

(** What [session.run] is asked to compute for an array key: a tensor
    name, or the symbolic gradient kept in [self.tf_gradient]. *)
Inductive fetch (Tensor : Type) : Type :=
| FetchName (name : string)
| FetchTensor (t : Tensor).
Arguments FetchName {Tensor} name.
Arguments FetchTensor {Tensor} t.

(** The values of [self.inputs], told apart by [isinstance]. *)
Inductive input_key (ArrayKey NdArray : Type) : Type :=
| KeyArray (k : ArrayKey)            (* [isinstance(input_key, ArrayKey)] *)
| KeyConst (a : NdArray)             (* [isinstance(input_key, np.ndarray)] *)
| KeyAttr (name : string)            (* [isinstance(input_key, str)] *)
| KeyOther.                          (* anything else *)
Arguments KeyArray {ArrayKey NdArray} k.
Arguments KeyConst {ArrayKey NdArray} a.
Arguments KeyAttr {ArrayKey NdArray} name.
Arguments KeyOther {ArrayKey NdArray}.

(** What is fed for an input tensor: array data, or the value of a batch
    attribute. *)
Inductive feed (NdArray Attr : Type) : Type :=
| FeedArray (a : NdArray)
| FeedAttr (v : Attr).
Arguments FeedArray {NdArray Attr} a.
Arguments FeedAttr {NdArray Attr} v.

Section Collect.
Context {ArrayKey : Type} `{Countable ArrayKey}.
Context {Tensor NdArray Attr : Type}.

(** The first loop of [__collect_requested_outputs], over
    [self.outputs.items()]; [requested] is [array_key in request]. *)
Fixpoint collect_outputs (items : list (string * ArrayKey)) (requested : ArrayKey -> bool)
    (array_outputs : gmap ArrayKey (fetch Tensor)) : gmap ArrayKey (fetch Tensor) :=
  match items with
  | [] => array_outputs
  | (output_name, array_key) :: items' =>
      if requested array_key
      then collect_outputs items' requested (<[array_key := FetchName output_name]> array_outputs)
      else collect_outputs items' requested array_outputs
  end.

(** The second loop, over [self.gradients.items()]. *)
Fixpoint collect_gradients (items : list (string * ArrayKey)) (requested : ArrayKey -> bool)
    (tf_gradient : gmap string Tensor)
    (array_outputs : gmap ArrayKey (fetch Tensor)) : exn + gmap ArrayKey (fetch Tensor) :=
  match items with
  | [] => inr array_outputs
  | (output_name, array_key) :: items' =>
      if requested array_key
      then match tf_gradient !! output_name with
           | Some t =>
               collect_gradients items' requested tf_gradient
                 (<[array_key := FetchTensor t]> array_outputs)
           | None => inl (GradientKeyError output_name)
           end
      else collect_gradients items' requested tf_gradient array_outputs
  end.

(** [Train.__collect_requested_outputs]. *)
Definition collect_requested_outputs (outputs gradients : list (string * ArrayKey))
    (tf_gradient : gmap string Tensor) (requested : ArrayKey -> bool)
  : exn + gmap ArrayKey (fetch Tensor) :=
  collect_gradients gradients requested tf_gradient (collect_outputs outputs requested ∅).

(** The loop of [__collect_provided_inputs] over [self.inputs.items()];
    [arrays] holds the [data] of each array of [batch.arrays] and [attrs]
    the attributes of the batch that [getattr] finds. *)
Fixpoint collect_inputs (items : list (string * input_key ArrayKey NdArray))
    (arrays : gmap ArrayKey NdArray) (attrs : gmap string Attr)
    (inputs : gmap string (feed NdArray Attr)) : exn + gmap string (feed NdArray Attr) :=
  match items with
  | [] => inr inputs
  | (input_name, key) :: items' =>
      match key with
      | KeyArray k =>
          match arrays !! k with
          | Some a => collect_inputs items' arrays attrs (<[input_name := FeedArray a]> inputs)
          | None => collect_inputs items' arrays attrs inputs   (* logger.warn *)
          end
      | KeyConst a => collect_inputs items' arrays attrs (<[input_name := FeedArray a]> inputs)
      | KeyAttr name =>
          match attrs !! name with
          | Some v => collect_inputs items' arrays attrs (<[input_name := FeedAttr v]> inputs)
          | None => inl (AttributeError name)
          end
      | KeyOther => inl UnknownInputKey
      end
  end.

(** [Train.__collect_provided_inputs]. *)
Definition collect_provided_inputs (inputs : list (string * input_key ArrayKey NdArray))
    (arrays : gmap ArrayKey NdArray) (attrs : gmap string Attr)
  : exn + gmap string (feed NdArray Attr) :=
  collect_inputs inputs arrays attrs ∅.

(** What an input asks to be fed, when it can be. *)
Definition fed (arrays : gmap ArrayKey NdArray) (attrs : gmap string Attr)
    (key : input_key ArrayKey NdArray) : option (feed NdArray Attr) :=
  match key with
  | KeyArray k => FeedArray <$> arrays !! k
  | KeyConst a => Some (FeedArray a)
  | KeyAttr name => FeedAttr <$> attrs !! name
  | KeyOther => None
  end.

(** An input that cannot make the function raise. *)
Definition harmless (attrs : gmap string Attr) (key : input_key ArrayKey NdArray) : Prop :=
  match key with
  | KeyArray _ | KeyConst _ => True
  | KeyAttr name => is_Some (attrs !! name)
  | KeyOther => False
  end.

End Collect.

End Train.

(** Further concrete nodes and requests. *)
Module MoreExamples.

Definition D : VolumeType := "D"%string.

(** Two pairs side by side, [{A: (2, B), C: ((1, 2, 4), D)}]. *)
Definition pair_entries : list item :=
  [(Examples.A, (Uniform 2, Examples.B)); (Examples.C, (PerAxis [1; 2; 4], D))].
Definition pair_node : DownSample := mkDownSample pair_entries [Examples.B; D].

(** Two pairs with the same output, [{A: (2, B), C: (3, B)}]. *)
Definition clash_entries : list item :=
  [(Examples.A, (Uniform 2, Examples.B)); (Examples.C, (Uniform 3, Examples.B))].

(** A request for a third type only. *)
Definition other_request : Request := {[ D := Examples.cube 0 4 ]}.

(** A request for the input type only. *)
Definition input_request : Request := {[ Examples.A := Examples.cube 0 4 ]}.

(** A request for the output type and for a region of the input type that
    the batch does not hold. *)
Definition far_request : Request :=
  {[ Examples.A := Examples.cube 20 4; Examples.B := Examples.cube 0 4 ]}.

(** The configuration [{A: ((2, 2), B)}]: a factor for two axes, while
    the volumes have three. *)
Definition flat_node : DownSample :=
  mkDownSample [(Examples.A, (PerAxis [2; 2], Examples.B))] [Examples.B].

(** The configuration [{A: (0, B)}]. *)
Definition zero_node : DownSample :=
  mkDownSample [(Examples.A, (Uniform 0, Examples.B))] [Examples.B].

(** The items of [pair_node] in the other order, and a request for both
    outputs. *)
Definition pair_entries_swapped : list item :=
  [(Examples.C, (PerAxis [1; 2; 4], D)); (Examples.A, (Uniform 2, Examples.B))].
Definition pair_request : Request :=
  {[ Examples.B := Examples.cube 0 4; D := Examples.cube 2 2 ]}.
Definition pair_node_swapped : DownSample :=
  mkDownSample pair_entries_swapped [D; Examples.B].


(** A batch without the input type. *)
Definition empty_batch : Batch (list Z) := ∅.

(** A training node with one output, and two gradients of which one goes
    to the array key of the output; tensors, arrays and attribute values
    are numbered. *)
Definition net_outputs : list (string * string) := [("out:0", "PRED")]%string.
Definition net_gradients : list (string * string) :=
  [("out:0", "GRAD"); ("aux:0", "PRED")]%string.
Definition net_tf_gradient : gmap string nat :=
  {[ "out:0"%string := 7%nat; "aux:0"%string := 9%nat ]}.
Definition net_requested (k : string) : bool :=
  bool_decide (k ∈ ["PRED"; "GRAD"; "OTHER"]%string).

Definition net_inputs : list (string * Train.input_key string nat) :=
  [("raw:0", Train.KeyArray "RAW"); ("mask:0", Train.KeyArray "MASK");
   ("scale:0", Train.KeyConst 5%nat); ("step:0", Train.KeyAttr "iteration")]%string.
Definition net_arrays : gmap string nat := {[ "RAW"%string := 11%nat ]}.
Definition net_attrs : gmap string nat := {[ "iteration"%string := 3%nat ]}.

(** Upstream delivers [A] on the union of [[3, 9)] and [[-2, 6)] per
    axis. *)
Definition merged_batch : Batch (list Z) :=
  {[ Examples.A := mkVolume (Examples.index_array 11) (Examples.cube (-2) 11) [4; 4; 40] ]}.

End MoreExamples.

(** * Properties *)

(** ** The error monad *)

Lemma bind_Ok {A B} (m : result A) (k : A -> result B) b :
  bind m k = Ok b -> exists a, m = Ok a /\ k a = Ok b.
Proof. destruct m; simpl; [eauto | discriminate]. Qed.

Lemma guard_true b e : b = true -> guard b e = Ok tt.
Proof. now intros ->. Qed.

Lemma guard_false b e : b = false -> guard b e = Err e.
Proof. now intros ->. Qed.

Lemma same_dims_true (a b : Coordinate.t) :
  length a = length b -> Coordinate.same_dims a b = true.
Proof. intros H. unfold Coordinate.same_dims. rewrite H. apply Nat.eqb_refl. Qed.

Lemma same_dims_length (a b : Coordinate.t) :
  Coordinate.same_dims a b = true -> length a = length b.
Proof. unfold Coordinate.same_dims. apply Nat.eqb_eq. Qed.

(** ** Coordinate arithmetic *)

Lemma mul_factor_list (c : Coordinate.t) (f : factor) :
  factor_fits f (length c) ->
  Coordinate.mul c f = Ok (zip_with Z.mul c (factor_list f (length c))).
Proof.
  destruct f as [k | ks]; simpl.
  - intros _. f_equal. induction c as [| a c IH]; simpl; [done | by rewrite IH].
  - intros H. by rewrite same_dims_true.
Qed.

Lemma factor_list_length f n : factor_fits f n -> length (factor_list f n) = n.
Proof. destruct f; simpl; [intros _; apply length_replicate | done]. Qed.

Lemma length_zip_with_same {A B C} (g : A -> B -> C) (l : list A) (k : list B) :
  length l = length k -> length (zip_with g l k) = length l.
Proof.
  revert k. induction l as [| a l IH]; intros [| b k]; simpl; try done.
  intros [= H]. by rewrite IH.
Qed.

(** Per axis, moving the scaled box back by the displacement of its
    center gives the closed form of the offset. *)
Lemma recenter_closed (o s ks : list Z) :
  length o = length s -> length ks = length o ->
  zip_with Z.sub (zip_with Z.mul o ks)
    (zip_with Z.sub
       (zip_with Z.add (zip_with Z.mul o ks) (Coordinate.half (zip_with Z.mul s ks)))
       (zip_with Z.add o (Coordinate.half s)))
  = zip_with (fun os k => scaled_offset os.1 os.2 k) (zip o s) ks.
Proof.
  revert s ks. induction o as [| a o IH]; intros [| n s] [| k ks]; simpl; try done.
  intros [= Hs] [= Hk]. rewrite IH by done. f_equal.
  unfold scaled_offset. lia.
Qed.

Lemma closed_center (o s ks : list Z) :
  length o = length s -> length ks = length o ->
  zip_with Z.add
    (zip_with (fun os k => scaled_offset os.1 os.2 k) (zip o s) ks)
    (Coordinate.half (zip_with Z.mul s ks))
  = zip_with Z.add o (Coordinate.half s).
Proof.
  revert s ks. induction o as [| a o IH]; intros [| n s] [| k ks]; simpl; try done.
  intros [= Hs] [= Hk]. rewrite IH by done. f_equal.
  unfold scaled_offset. lia.
Qed.

Lemma closed_offset_length (o s ks : list Z) :
  length o = length s -> length ks = length o ->
  length (zip_with (fun os k => scaled_offset os.1 os.2 k) (zip o s) ks) = length o.
Proof.
  revert s ks. induction o as [| a o IH]; intros [| n s] [| k ks]; simpl; try done.
  intros [= Hs] [= Hk]. by rewrite IH.
Qed.

(** [__scale_roi] computes the closed form whenever the ROI is well formed
    and the factor has one entry per axis. *)
Lemma scale_roi_closed_form (r : Roi) (f : factor) :
  roi_dims_ok r -> factor_fits f (RoiOps.dims r) ->
  scale_roi r f = Ok (scale_roi_closed r (factor_list f (RoiOps.dims r))).
Proof.
  destruct r as [o s]. unfold roi_dims_ok, RoiOps.dims, Coordinate.dims; simpl.
  intros Hd Hf.
  pose proof (factor_list_length _ _ Hf) as Hk.
  unfold scale_roi, RoiOps.get_center, RoiOps.mul; simpl.
  unfold Coordinate.add at 1.
  rewrite same_dims_true by (unfold Coordinate.half; by rewrite length_map).
  simpl. rewrite (mul_factor_list o f Hf). simpl.
  assert (Hf' : factor_fits f (length s)) by (by rewrite <- Hd).
  rewrite (mul_factor_list s f Hf'). simpl. rewrite <- Hd.
  set (ks := factor_list f (length o)) in *.
  unfold Coordinate.add.
  rewrite same_dims_true
    by (unfold Coordinate.half; rewrite length_map, !length_zip_with_same; lia).
  simpl. unfold Coordinate.sub at 1.
  rewrite same_dims_true
    by (unfold Coordinate.half;
        rewrite !length_zip_with_same;
        rewrite ?length_map, ?length_zip_with_same; lia).
  simpl. unfold RoiOps.sub, Coordinate.sub; simpl.
  rewrite same_dims_true
    by (unfold Coordinate.half;
        rewrite !length_zip_with_same;
        rewrite ?length_map, ?length_zip_with_same;
        rewrite ?length_map, ?length_zip_with_same; lia).
  simpl. unfold scale_roi_closed; simpl.
  by rewrite recenter_closed.
Qed.

(** C4.  For every well-formed ROI and every factor that is a number or
    has one entry per axis (positive or not), the center-preserving scale
    returns a ROI whose center [offset + shape/2] is the center of the
    ROI it was given. *)
Theorem scale_roi_preserves_center (r : Roi) (f : factor) :
  roi_dims_ok r -> factor_fits f (RoiOps.dims r) ->
  exists r', scale_roi r f = Ok r' /\
             RoiOps.get_center r' = RoiOps.get_center r.
Proof.
  intros Hd Hf. eexists. split; [by apply scale_roi_closed_form |].
  destruct r as [o s]. unfold roi_dims_ok, RoiOps.dims, Coordinate.dims in *.
  simpl in *. pose proof (factor_list_length _ _ Hf) as Hk.
  unfold RoiOps.get_center, scale_roi_closed, Coordinate.add; simpl.
  rewrite !same_dims_true.
  - by rewrite closed_center.
  - unfold Coordinate.half. by rewrite length_map.
  - unfold Coordinate.half.
    rewrite length_map, closed_offset_length, length_zip_with_same; lia.
Qed.

Lemma scale_roi_preserves_center_witness :
  exists r', scale_roi (mkRoi [0; 3; -5] [4; 7; 1]) (PerAxis [2; 3; 5]) = Ok r' /\
             RoiOps.get_center r' = RoiOps.get_center (mkRoi [0; 3; -5] [4; 7; 1]).
Proof.
  apply (scale_roi_preserves_center (mkRoi [0; 3; -5] [4; 7; 1]) (PerAxis [2; 3; 5]));
    reflexivity.
Defined.

(** ** Loops over the items *)

Lemma for_items_app {S} (body : S -> item -> result S) (l1 l2 : list item) (s : S) :
  for_items body (l1 ++ l2) s =
  match for_items body l1 s with
  | Done s' => for_items body l2 s'
  | Raised e s' => Raised e s'
  end.
Proof.
  revert s. induction l1 as [| it l1 IH]; intros s; simpl; [done |].
  destruct (body s it); [apply IH | done].
Qed.

Lemma for_items_Done_cons {S} (body : S -> item -> result S) it rest (s s' : S) :
  for_items body (it :: rest) s = Done s' ->
  exists s1, body s it = Ok s1 /\ for_items body rest s1 = Done s'.
Proof. simpl. destruct (body s it); [eauto | discriminate]. Qed.

(** ** [prepare] *)

Lemma prepare_pair_absent (request : Request) i f o :
  request !! o = None -> prepare_pair request (i, (f, o)) = Ok request.
Proof. intros H. unfold prepare_pair. by rewrite H. Qed.

Lemma prepare_pair_merge (request : Request) i f o r s e u :
  request !! o = Some r -> scale_roi r f = Ok s ->
  request !! i = Some e -> RoiOps.union e s = Ok u ->
  prepare_pair request (i, (f, o)) = Ok (delete o (<[i := u]> request)).
Proof.
  intros Ho Hs Hi Hu. unfold prepare_pair. rewrite Ho, Hs. cbn [bind].
  by rewrite Hi, Hu.
Qed.

Lemma prepare_pair_fresh (request : Request) i f o r s :
  request !! o = Some r -> scale_roi r f = Ok s -> request !! i = None ->
  prepare_pair request (i, (f, o)) = Ok (delete o (<[i := s]> request)).
Proof.
  intros Ho Hs Hi. unfold prepare_pair. rewrite Ho, Hs. cbn [bind].
  by rewrite Hi.
Qed.

Lemma prepare_pair_inv (request request' : Request) i f o :
  prepare_pair request (i, (f, o)) = Ok request' ->
  (request !! o = None /\ request' = request) \/
  (exists r s x, request !! o = Some r /\ scale_roi r f = Ok s /\
                 request' = delete o (<[i := x]> request) /\
                 match request !! i with
                 | Some e => RoiOps.union e s = Ok x
                 | None => x = s
                 end).
Proof.
  unfold prepare_pair. destruct (request !! o) as [r |] eqn:Ho.
  - intros H. right. apply bind_Ok in H as (s & Hs & H).
    apply bind_Ok in H as (q & Hq & H). injection H as <-.
    destruct (request !! i) as [e |] eqn:Hi.
    + apply bind_Ok in Hq as (u & Hu & Hq). injection Hq as <-.
      by exists r, s, u.
    + injection Hq as <-. by exists r, s, s.
  - intros [= <-]. by left.
Qed.

(** A step only writes the input key and only deletes the output key. *)
Lemma prepare_pair_other (request request' : Request) it k :
  prepare_pair request it = Ok request' ->
  k <> item_input it -> k <> item_output it ->
  request' !! k = request !! k.
Proof.
  destruct it as [i [f o]]. unfold item_input, item_output; simpl.
  intros H Hi Ho. apply prepare_pair_inv in H as [[_ ->] | (r & s & x & _ & _ & -> & _)].
  - done.
  - rewrite lookup_delete_ne by done. by rewrite lookup_insert_ne.
Qed.

Lemma prepare_pair_stays_absent (request request' : Request) it k :
  prepare_pair request it = Ok request' ->
  k <> item_input it -> request !! k = None -> request' !! k = None.
Proof.
  destruct it as [i [f o]]. unfold item_input; simpl.
  intros H Hi Hk. apply prepare_pair_inv in H as [[_ ->] | (r & s & x & _ & _ & -> & _)].
  - done.
  - destruct (decide (o = k)) as [-> | Hne].
    + apply lookup_delete_eq.
    + rewrite lookup_delete_ne by done. by rewrite lookup_insert_ne.
Qed.

Lemma prepare_pair_output_gone (request request' : Request) it :
  prepare_pair request it = Ok request' -> request' !! item_output it = None.
Proof.
  destruct it as [i [f o]]. unfold item_output; simpl.
  intros H. pose proof H as H'.
  apply prepare_pair_inv in H as [[Ho ->] | (r & s & x & _ & _ & -> & _)].
  - done.
  - apply lookup_delete_eq.
Qed.

Lemma prepare_other (items : list item) (request request' : Request) k :
  for_items prepare_pair items request = Done request' ->
  Forall (fun q => k <> item_input q /\ k <> item_output q) items ->
  request' !! k = request !! k.
Proof.
  revert request. induction items as [| it items IH]; intros request.
  - by intros [= <-].
  - intros H Hall. apply for_items_Done_cons in H as (r1 & H1 & H).
    apply Forall_cons in Hall as [[Hi Ho] Hall].
    rewrite (IH _ H Hall). by apply (prepare_pair_other request r1 it).
Qed.

Lemma prepare_stays_absent (items : list item) (request request' : Request) k :
  for_items prepare_pair items request = Done request' ->
  Forall (fun q => k <> item_input q) items ->
  request !! k = None -> request' !! k = None.
Proof.
  revert request. induction items as [| it items IH]; intros request.
  - by intros [= <-].
  - intros H Hall Hk. apply for_items_Done_cons in H as (r1 & H1 & H).
    apply Forall_cons in Hall as [Hi Hall].
    apply (IH _ H Hall). by apply (prepare_pair_stays_absent request r1 it).
Qed.

Lemma prepare_noop (items : list item) (request : Request) :
  Forall (fun q => request !! item_output q = None) items ->
  for_items prepare_pair items request = Done request.
Proof.
  induction items as [| [i [f o]] items IH]; [done |].
  intros Hall. apply Forall_cons in Hall as [Ho Hall].
  simpl in *. unfold item_output in Ho; simpl in Ho. rewrite Ho. by apply IH.
Qed.

(** C3.  Each configured pair, in its turn, finds the request as the pairs
    before it left it.  If the output type is not a key, the pair changes
    nothing.  If it is, the input's entry becomes the union of the entry
    it had with the center-preserving scale of the output's entry, or
    that scale alone when the input had no entry, and the output's key is
    then removed; the loop goes on with the pairs that follow. *)
Theorem prepare_pair_by_pair (self : DownSample) (pre post : list item)
    (i o : VolumeType) (f : factor) (request req_k : Request) :
  volume_factors self = pre ++ (i, (f, o)) :: post ->
  for_items prepare_pair pre request = Done req_k ->
  match req_k !! o with
  | None => prepare self request = for_items prepare_pair post req_k
  | Some r =>
      forall s, scale_roi r f = Ok s ->
        match req_k !! i with
        | Some e =>
            forall u, RoiOps.union e s = Ok u ->
              prepare self request =
              for_items prepare_pair post (delete o (<[i := u]> req_k))
        | None =>
            prepare self request =
            for_items prepare_pair post (delete o (<[i := s]> req_k))
        end
  end.
Proof.
  intros Hvf Hpre. unfold prepare. rewrite Hvf, for_items_app, Hpre.
  destruct (req_k !! o) as [r |] eqn:Ho.
  - intros s Hs. destruct (req_k !! i) as [e |] eqn:Hi.
    + intros u Hu. cbn [for_items].
      by rewrite (prepare_pair_merge _ _ _ _ _ _ _ _ Ho Hs Hi Hu).
    + cbn [for_items]. by rewrite (prepare_pair_fresh _ _ _ _ _ _ Ho Hs Hi).
  - cbn [for_items]. by rewrite (prepare_pair_absent _ _ _ _ Ho).
Qed.

(** ** Nodes accepted by [__init__] *)

Lemma dict_set_keys {K V} `{EqDecision K} (d : list (K * V)) k v k' :
  k' ∈ map fst (dict_set d k v) -> k' = k \/ k' ∈ map fst d.
Proof.
  induction d as [| [k0 v0] d IH]; simpl.
  - intros H. apply list_elem_of_singleton in H. by left.
  - destruct (decide (k0 = k)) as [-> | Hne]; simpl.
    + by right.
    + intros H. apply elem_of_cons in H as [-> | H].
      * right. apply elem_of_cons. by left.
      * destruct (IH H) as [-> | H']; [by left | right].
        apply elem_of_cons. by right.
Qed.

Lemma dict_set_NoDup {K V} `{EqDecision K} (d : list (K * V)) k v :
  NoDup (map fst d) -> NoDup (map fst (dict_set d k v)).
Proof.
  induction d as [| [k0 v0] d IH]; simpl.
  - intros _. apply NoDup_singleton.
  - intros Hnd. apply NoDup_cons in Hnd as [Hnotin Hnd].
    destruct (decide (k0 = k)) as [-> | Hne]; simpl.
    + apply NoDup_cons. done.
    + apply NoDup_cons. split; [| by apply IH].
      intros Hin. apply dict_set_keys in Hin as [-> | Hin]; done.
Qed.

(** The items of a dict never hold the same key twice. *)
Lemma dict_literal_NoDup {K V} `{EqDecision K} (l : list (K * V)) :
  NoDup (map fst (dict_literal l)).
Proof.
  unfold dict_literal.
  assert (Hgen : forall d, NoDup (map fst d) ->
            NoDup (map fst (foldl (fun d kv => dict_set d kv.1 kv.2) d l))).
  { induction l as [| [k v] l IH]; intros d Hd; simpl; [done |].
    apply IH. by apply dict_set_NoDup. }
  apply Hgen. simpl. apply NoDup_nil_2.
Qed.

Lemma init_outputs_spec (items : list item) (outs outs' : list VolumeType) :
  init_outputs items outs = Ok outs' -> NoDup outs ->
  outs' = outs ++ map item_output items /\ NoDup outs'.
Proof.
  revert outs. induction items as [| [i [f o]] items IH]; intros outs; simpl.
  - intros [= <-] Hnd. by rewrite app_nil_r.
  - intros H Hnd. apply bind_Ok in H as ([] & Hg & H).
    unfold guard in Hg. destruct (bool_decide (o ∈ outs)) eqn:Hin; [discriminate |].
    apply bool_decide_eq_false in Hin.
    destruct (IH _ H) as [-> Hnd'].
    + apply NoDup_app. split; [done |]. split.
      * intros x Hx Hx'. apply list_elem_of_singleton in Hx' as ->. done.
      * apply NoDup_singleton.
    + split; [| done]. by rewrite <- app_assoc.
Qed.

Lemma init_valid (entries : list item) (self : DownSample) :
  DownSample_init entries = Ok self -> valid_items (volume_factors self).
Proof.
  unfold DownSample_init. intros H. apply bind_Ok in H as (outs & Ho & [= <-]).
  simpl. split.
  - apply (dict_literal_NoDup entries).
  - apply init_outputs_spec in Ho as [-> Hnd]; [done | apply NoDup_nil_2].
Qed.

(** ** [union] does not depend on the order of its operands *)

Lemma zip_with_comm_Z (g : Z -> Z -> Z) (l k : list Z) :
  (forall a b, g a b = g b a) -> zip_with g l k = zip_with g k l.
Proof.
  intros Hg. revert k. induction l as [| a l IH]; intros [| b k]; simpl; try done.
  by rewrite Hg, IH.
Qed.

Lemma union_comm (a b : Roi) : RoiOps.union a b = RoiOps.union b a.
Proof.
  unfold RoiOps.union, Coordinate.same_dims.
  destruct (Nat.eqb_spec (length (offset a)) (length (offset b))) as [Ho | Ho];
    destruct (Nat.eqb_spec (length (shape a)) (length (shape b))) as [Hs | Hs];
    destruct (Nat.eqb_spec (length (offset a)) (length (shape a))) as [Ha | Ha];
    destruct (Nat.eqb_spec (length (offset b)) (length (offset a))) as [Ho' | Ho'];
    destruct (Nat.eqb_spec (length (shape b)) (length (shape a))) as [Hs' | Hs'];
    destruct (Nat.eqb_spec (length (offset b)) (length (shape b))) as [Hb | Hb];
    simpl; try done; try lia.
  rewrite (zip_with_comm_Z Z.min (offset a) (offset b)) by (intros; lia).
  rewrite (zip_with_comm_Z Z.max (zip_with Z.add (offset a) (shape a))) by (intros; lia).
  done.
Qed.

(** ** Replaying [prepare] *)

Lemma no_feeding_tail (it : item) (items : list item) :
  no_feeding (it :: items) -> no_feeding items.
Proof.
  intros H p q Hp Hq. apply H; apply elem_of_cons; by right.
Qed.

(** After the loop no configured output type is a key of the request. *)
Lemma prepare_outputs_gone (items : list item) (request request' : Request) :
  NoDup (map item_input items) -> no_feeding items ->
  for_items prepare_pair items request = Done request' ->
  Forall (fun p => request' !! item_output p = None) items.
Proof.
  revert request. induction items as [| it items IH]; intros request Hnd Hnf H.
  - constructor.
  - apply for_items_Done_cons in H as (r1 & H1 & H).
    simpl in Hnd. apply NoDup_cons in Hnd as [Hnotin Hnd].
    constructor.
    + apply (prepare_stays_absent items r1 request' _ H).
      * apply Forall_forall. intros q Hq Heq.
        assert (it = q) as ->.
        { apply Hnf; [apply elem_of_cons; by left | apply elem_of_cons; by right | done]. }
        apply Hnotin. by apply list_elem_of_fmap_2.
      * by apply prepare_pair_output_gone with (request := request).
    + apply (IH r1); [done | by apply no_feeding_tail with it | done].
Qed.

(** C9 (amended).  For a node accepted by [__init__] in which no pair's
    output type is the input type of another pair, a second [prepare] on
    the request that a first [prepare] returned changes nothing. *)
Theorem prepare_replay_no_feeding (entries : list item) (self : DownSample)
    (request request' : Request) :
  DownSample_init entries = Ok self ->
  no_feeding (volume_factors self) ->
  prepare self request = Done request' ->
  prepare self request' = Done request'.
Proof.
  intros Hinit Hnf H. apply init_valid in Hinit as [Hnd _].
  unfold prepare in *. apply prepare_noop.
  by apply prepare_outputs_gone with (request := request).
Qed.

Lemma half_node_init :
  DownSample_init [(Examples.A, (Uniform 2, Examples.B))] = Ok Examples.half_node.
Proof. reflexivity. Qed.

Lemma half_node_no_feeding : no_feeding (volume_factors Examples.half_node).
Proof.
  intros p q Hp Hq. simpl in *.
  apply list_elem_of_singleton in Hp as ->.
  apply list_elem_of_singleton in Hq as ->. discriminate.
Qed.

Lemma prepare_replay_no_feeding_witness :
  prepare Examples.half_node {[ Examples.A := Examples.cube (-2) 8 ]}
  = Done {[ Examples.A := Examples.cube (-2) 8 ]}.
Proof.
  apply (prepare_replay_no_feeding _ Examples.half_node Examples.half_request _
           half_node_init half_node_no_feeding).
  vm_compute. reflexivity.
Defined.

(** C9, as stated, fails on [{A: (2, B), B: (2, C)}] with the request
    [{C: ROI((0,0,0), (4,4,4))}]: the first call leaves [{B: ...}], which
    the second call turns into [{A: ...}]. *)
Lemma prepare_replay_counterexample :
  DownSample_init Examples.chain_entries = Ok Examples.chain_node /\
  prepare Examples.chain_node Examples.chain_request
    = Done {[ Examples.B := Examples.cube (-2) 8 ]} /\
  prepare Examples.chain_node {[ Examples.B := Examples.cube (-2) 8 ]}
    = Done {[ Examples.A := Examples.cube (-6) 16 ]} /\
  ({[ Examples.A := Examples.cube (-6) 16 ]} : Request)
    <> {[ Examples.B := Examples.cube (-2) 8 ]}.
Proof.
  split; [reflexivity |]. split; [vm_compute; reflexivity |].
  split; [vm_compute; reflexivity |].
  intros H. apply (f_equal (fun m : Request => m !! Examples.A)) in H.
  vm_compute in H. discriminate.
Qed.

(** ** Merging into an entry the request already holds *)

(** X23.  When the request holds an entry [e] for a pair's input type and
    an entry [r] for its output type, and neither type is used by another
    pair, [prepare] leaves for the input type the union of [e] and the
    center-preserving scale of [r], wherever the pair stands among the
    items and whichever operand comes first in the union. *)
Theorem prepare_merges_existing (entries : list item) (self : DownSample)
    (i o : VolumeType) (f : factor) (request request' : Request) (e r s u : Roi) :
  DownSample_init entries = Ok self ->
  (i, (f, o)) ∈ volume_factors self ->
  Forall (fun q => item_output q <> i /\ item_input q <> o) (volume_factors self) ->
  request !! i = Some e -> request !! o = Some r ->
  scale_roi r f = Ok s -> RoiOps.union e s = Ok u ->
  prepare self request = Done request' ->
  request' !! i = Some u /\ request' !! o = None /\ RoiOps.union s e = Ok u.
Proof.
  intros Hinit Hin Hsep Hi Ho Hs Hu H.
  apply init_valid in Hinit as [Hndi Hndo].
  unfold prepare in H.
  apply list_elem_of_split in Hin as (pre & post & Hvf). rewrite Hvf in *.
  rewrite for_items_app in H.
  destruct (for_items prepare_pair pre request) as [req_k | ?] eqn:Hpre; [| discriminate].
  apply for_items_Done_cons in H as (r1 & H1 & H).
  rewrite !fmap_app, !fmap_cons in Hndi, Hndo.
  apply NoDup_app in Hndi as (_ & Hdi & Hndi). apply NoDup_cons in Hndi as [Hdi' _].
  apply NoDup_app in Hndo as (_ & Hdo & Hndo). apply NoDup_cons in Hndo as [Hdo' _].
  apply Forall_app in Hsep as [Hsep_pre Hsep_post].
  apply Forall_cons in Hsep_post as [[Hoi _] Hsep_post].
  unfold item_output, item_input in Hoi, Hdi', Hdo'; simpl in Hoi, Hdi', Hdo'.
  assert (Hpre_other : forall k, k = i \/ k = o ->
            Forall (fun q => k <> item_input q /\ k <> item_output q) pre).
  { intros k Hk. apply Forall_forall. intros q Hq.
    pose proof (proj1 (Forall_forall _ _) Hsep_pre q Hq) as [Hq1 Hq2].
    assert (Hqi : item_input q ∈ item_input <$> pre) by (by apply list_elem_of_fmap_2).
    assert (Hqo : item_output q ∈ item_output <$> pre) by (by apply list_elem_of_fmap_2).
    pose proof (Hdi _ Hqi) as Hni. pose proof (Hdo _ Hqo) as Hno.
    rewrite elem_of_cons in Hni, Hno.
    unfold item_input at 2 in Hni; unfold item_output at 2 in Hno; simpl in Hni, Hno.
    destruct Hk as [-> | ->]; split; intros Heq; subst; naive_solver. }
  assert (Hpost_other : Forall (fun q => i <> item_input q /\ i <> item_output q) post).
  { apply Forall_forall. intros q Hq.
    pose proof (proj1 (Forall_forall _ _) Hsep_post q Hq) as [Hq1 Hq2].
    split; [| done]. intros Heq. apply Hdi'. rewrite Heq. by apply list_elem_of_fmap_2. }
  assert (Hpost_in : Forall (fun q => o <> item_input q) post).
  { apply Forall_forall. intros q Hq.
    pose proof (proj1 (Forall_forall _ _) Hsep_post q Hq) as [Hq1 Hq2]. done. }
  assert (Hi_k : req_k !! i = Some e).
  { rewrite (prepare_other pre request req_k i Hpre); [done | apply Hpre_other; by left]. }
  assert (Ho_k : req_k !! o = Some r).
  { rewrite (prepare_other pre request req_k o Hpre); [done | apply Hpre_other; by right]. }
  rewrite (prepare_pair_merge _ _ _ _ _ _ _ _ Ho_k Hs Hi_k Hu) in H1. injection H1 as <-.
  split; [| split].
  - rewrite (prepare_other post _ request' i H Hpost_other).
    rewrite lookup_delete_ne by done. apply lookup_insert_eq.
  - apply (prepare_stays_absent post _ request' o H Hpost_in). apply lookup_delete_eq.
  - by rewrite union_comm.
Qed.

Lemma prepare_merges_existing_witness :
  ({[ Examples.A := Examples.cube (-2) 11 ]} : Request) !! Examples.A
    = Some (Examples.cube (-2) 11) /\
  ({[ Examples.A := Examples.cube (-2) 11 ]} : Request) !! Examples.B = None /\
  RoiOps.union (Examples.cube (-2) 8) (Examples.cube 3 6) = Ok (Examples.cube (-2) 11).
Proof.
  apply (prepare_merges_existing [(Examples.A, (Uniform 2, Examples.B))]
           Examples.half_node Examples.A Examples.B (Uniform 2)
           Examples.merge_request {[ Examples.A := Examples.cube (-2) 11 ]}
           (Examples.cube 3 6) (Examples.cube 0 4) (Examples.cube (-2) 8)
           (Examples.cube (-2) 11)).
  - reflexivity.
  - simpl. apply list_elem_of_singleton. reflexivity.
  - simpl. repeat constructor; discriminate.
  - vm_compute. reflexivity.
  - vm_compute. reflexivity.
  - reflexivity.
  - reflexivity.
  - vm_compute. reflexivity.
Defined.

(** A dict holds one entry per input type: from the display
    [{A: (2, B), A: (3, C)}] the node keeps [A: (3, C)] only; with [B] and
    [C] requested, [prepare] then leaves for [A] the scaled ROI of [C]
    alone, and [B] stays in the request. *)
Lemma dict_display_keeps_last_entry :
  DownSample_init Examples.shared_entries = Ok Examples.shared_node /\
  Examples.shared_request !! Examples.A = None /\
  scale_roi (Examples.cube 0 4) (Uniform 2) = Ok (Examples.cube (-2) 8) /\
  scale_roi (Examples.cube 10 2) (Uniform 3) = Ok (Examples.cube 8 6) /\
  RoiOps.union (Examples.cube (-2) 8) (Examples.cube 8 6) = Ok (Examples.cube (-2) 16) /\
  prepare Examples.shared_node Examples.shared_request
    = Done {[ Examples.A := Examples.cube 8 6; Examples.B := Examples.cube 0 4 ]} /\
  ({[ Examples.A := Examples.cube 8 6; Examples.B := Examples.cube 0 4 ]} : Request)
    !! Examples.A <> Some (Examples.cube (-2) 16).
Proof.
  repeat split; try (vm_compute; reflexivity).
  vm_compute. discriminate.
Qed.

Lemma prepare_pair_by_pair_witness :
  prepare Examples.half_node Examples.half_request
  = Done (delete Examples.B (<[ Examples.A := Examples.cube (-2) 8 ]> Examples.half_request)).
Proof.
  pose proof (prepare_pair_by_pair Examples.half_node [] [] Examples.A Examples.B
                (Uniform 2) Examples.half_request Examples.half_request
                eq_refl eq_refl) as H.
  change (Examples.half_request !! Examples.B) with (Some (Examples.cube 0 4)) in H.
  specialize (H (Examples.cube (-2) 8) eq_refl).
  change (Examples.half_request !! Examples.A) with (@None Roi) in H.
  exact H.
Defined.

(** C1, as stated, fails in its first half: the request that [prepare]
    leaves is [{A: ROI((-2,-2,-2), (8,8,8))}], whose center is [(2,2,2)],
    and not [{A: ROI((-1,-1,-1), (8,8,8))}], whose center is [(3,3,3)]. *)
Lemma scenario_prepare_counterexample :
  DownSample_init [(Examples.A, (Uniform 2, Examples.B))] = Ok Examples.half_node /\
  prepare Examples.half_node Examples.half_request
    = Done {[ Examples.A := Examples.cube (-2) 8 ]} /\
  prepare Examples.half_node Examples.half_request
    <> Done {[ Examples.A := Examples.cube (-1) 8 ]} /\
  RoiOps.get_center (Examples.cube 0 4) = Ok [2; 2; 2] /\
  RoiOps.get_center (Examples.cube (-1) 8) = Ok [3; 3; 3].
Proof.
  repeat split; try (vm_compute; reflexivity).
  intros H.
  apply (f_equal (fun out : outcome Request =>
                    match out with
                    | Done m => m !! Examples.A
                    | Raised _ _ => None
                    end)) in H.
  vm_compute in H. discriminate.
Qed.

(** ** Slices *)

Lemma adjust_inside (n x : Z) : 0 <= x <= n -> adjust n 1 x = x.
Proof.
  intros Hx. unfold adjust.
  destruct (Z.ltb_spec x 0); [lia |].
  destruct (Z.leb_spec n x); simpl; lia.
Qed.

(** A window [w, w + s) that lies inside an axis of length [n] is taken as
    it is: nothing is clipped. *)
Lemma crop_axis (w s n : Z) :
  0 <= w -> 0 <= s -> w + s <= n ->
  slice_indices (mkSlice (Some w) (Some (w + s)) None) n = Ok (w, 1, s).
Proof.
  intros Hw Hs Hn. unfold slice_indices; simpl.
  rewrite !adjust_inside by lia.
  destruct (Z.ltb_spec w (w + s)); rewrite ?Z.div_1_r; repeat f_equal; lia.
Qed.

(** Every [k]-th cell of an axis of length [r * k] gives [r] cells. *)
Lemma stride_axis (r k : Z) :
  0 <= r -> 0 < k ->
  slice_indices (mkSlice None None (Some k)) (r * k) = Ok (0, k, r).
Proof.
  intros Hr Hk. unfold slice_indices; simpl.
  destruct (Z.eqb_spec k 0); [lia |].
  destruct (Z.ltb_spec k 0); [lia |].
  destruct (Z.ltb_spec 0 (r * k)) as [Hpos | Hzero].
  - assert (Hq : (r * k - 0 - 1) / k = r - 1).
    { symmetry. apply Z.div_unique with (k - 1); lia. }
    rewrite Hq. repeat f_equal. lia.
  - repeat f_equal. nia.
Qed.

Lemma box_within_lengths (ao ash bo bsh : list Z) :
  RoiOps.box_within ao ash bo bsh = true ->
  length ash = length ao /\ length bo = length ao /\ length bsh = length ao.
Proof.
  revert ash bo bsh.
  induction ao as [| a ao IH]; intros [| s ash] [| b bo] [| u bsh]; simpl; try done.
  intros H. apply andb_true_iff in H as [_ H].
  destruct (IH _ _ _ H) as (-> & -> & ->). done.
Qed.

Lemma crop_axes (ao ash bo bsh : list Z) :
  RoiOps.box_within ao ash bo bsh = true ->
  Forall (fun u => 0 <= u) bsh ->
  slice_axes (get_bounding_box (mkRoi (zip_with Z.sub bo ao) bsh)) ash
  = Ok (zip_with (fun w u => (w, 1, u)) (zip_with Z.sub bo ao) bsh).
Proof.
  unfold get_bounding_box; cbn [offset shape]. revert ash bo bsh.
  induction ao as [| a ao IH]; intros [| s ash] [| b bo] [| u bsh] H Hpos;
    cbn [RoiOps.box_within] in H; try discriminate; cbn [zip_with slice_axes];
    [done |].
  apply andb_true_iff in H as [H Hrest]. apply andb_true_iff in H as [Hlo Hhi].
  apply Z.leb_le in Hlo, Hhi. apply Forall_cons in Hpos as [Hu Hpos].
  rewrite crop_axis by lia. cbn [bind]. by rewrite IH.
Qed.

Lemma stride_axes (rsh ks : list Z) :
  length rsh = length ks ->
  Forall (fun r => 0 <= r) rsh -> Forall (fun k => 0 < k) ks ->
  slice_axes (map (fun k => mkSlice None None (Some k)) ks) (zip_with Z.mul rsh ks)
  = Ok (zip_with (fun r k => (0, k, r)) rsh ks).
Proof.
  revert ks. induction rsh as [| r rsh IH]; intros [| k ks] Hlen Hr Hk;
    try discriminate; cbn [map zip_with slice_axes]; [done |].
  injection Hlen as Hlen.
  apply Forall_cons in Hr as [Hr0 Hr]. apply Forall_cons in Hk as [Hk0 Hk].
  rewrite (stride_axis r k Hr0 Hk0). cbn [bind]. by rewrite IH.
Qed.

Lemma stride_slices_list (f : factor) (n : nat) :
  stride_slices f n = map (fun k => mkSlice None None (Some k)) (factor_list f n).
Proof.
  destruct f as [k | ks]; simpl; [| done].
  induction n as [| n IH]; simpl; [done | by rewrite IH].
Qed.

Lemma factor_list_positive (f : factor) (n : nat) :
  factor_positive f -> Forall (fun k => 0 < k) (factor_list f n).
Proof.
  destruct f as [k | ks]; simpl; [| done].
  intros Hk. induction n as [| n IH]; simpl; by constructor.
Qed.

Lemma crop_counts (ws us : list Z) :
  length ws = length us ->
  map (fun a : Z * Z * Z => a.2) (zip_with (fun w u => (w, 1, u)) ws us) = us.
Proof.
  revert us. induction ws as [| w ws IH]; intros [| u us]; simpl; try done.
  intros [= H]. by rewrite IH.
Qed.

Lemma stride_counts (rs ks : list Z) :
  length rs = length ks ->
  map (fun a : Z * Z * Z => a.2) (zip_with (fun r k => (0, k, r)) rs ks) = rs.
Proof.
  revert ks. induction rs as [| r rs IH]; intros [| k ks]; simpl; try done.
  intros [= H]. by rewrite IH.
Qed.

(** Reading through the stride and then through the window is reading
    the cell [w + x * k]. *)
Lemma reindex_crop_stride (ws us rs ks idx : list Z) :
  length ws = length idx -> length us = length idx ->
  length rs = length idx -> length ks = length idx ->
  reindex (zip_with (fun w u => (w, 1, u)) ws us)
          (reindex (zip_with (fun r k => (0, k, r)) rs ks) idx)
  = decimate_index ws ks idx.
Proof.
  revert ws us rs ks.
  induction idx as [| x idx IH]; intros [| w ws] [| u us] [| r rs] [| k ks];
    simpl; try done.
  intros [= Hw] [= Hu] [= Hr] [= Hk]. rewrite IH by done. f_equal. lia.
Qed.

(** Cropping an array to a window that lies inside it. *)
Lemma getitem_crop {elt} (a : ndarray elt) (ao bo bsh : list Z) :
  RoiOps.box_within ao (nd_shape a) bo bsh = true ->
  Forall (fun u => 0 <= u) bsh ->
  getitem a (get_bounding_box (mkRoi (zip_with Z.sub bo ao) bsh))
  = Ok (mkArray bsh
          (fun idx => nd_at a (reindex (zip_with (fun w u => (w, 1, u))
                                          (zip_with Z.sub bo ao) bsh) idx))).
Proof.
  intros Hbox Hpos. pose proof (box_within_lengths _ _ _ _ Hbox) as (Hl1 & Hl2 & Hl3).
  unfold getitem.
  assert (Hlen : length (get_bounding_box (mkRoi (zip_with Z.sub bo ao) bsh))
                 = length (nd_shape a)).
  { unfold get_bounding_box; simpl. rewrite !length_zip_with; lia. }
  rewrite Hlen, guard_true by (apply Nat.leb_refl). cbn [bind].
  rewrite crop_axes by done. cbn [bind].
  rewrite drop_all, app_nil_r, crop_counts; [done |].
  rewrite length_zip_with; lia.
Qed.

(** Taking every [k]-th cell of an array of shape [r * k]. *)
Lemma getitem_stride {elt} (a : ndarray elt) (rsh ks : list Z) :
  nd_shape a = zip_with Z.mul rsh ks -> length rsh = length ks ->
  Forall (fun r => 0 <= r) rsh -> Forall (fun k => 0 < k) ks ->
  getitem a (map (fun k => mkSlice None None (Some k)) ks)
  = Ok (mkArray rsh
          (fun idx => nd_at a (reindex (zip_with (fun r k => (0, k, r)) rsh ks) idx))).
Proof.
  intros Hshape Hlen Hr Hk. unfold getitem. rewrite Hshape.
  assert (Hl : length (map (fun k => mkSlice None None (Some k)) ks)
               = length (zip_with Z.mul rsh ks)).
  { rewrite length_map, length_zip_with; lia. }
  rewrite Hl, guard_true by (apply Nat.leb_refl). cbn [bind].
  rewrite stride_axes by done. cbn [bind].
  by rewrite drop_all, app_nil_r, stride_counts.
Qed.

(** ** [process]: the downsampling loop *)

Section ProcessFacts.
Context {elt : Type}.
Implicit Types (batch : Batch elt) (request : Request) (v : Volume elt).

Lemma process_pair_absent request batch i f o :
  request !! o = None -> process_pair request batch (i, (f, o)) = Ok batch.
Proof. intros H. unfold process_pair. by rewrite H. Qed.

Lemma process_pair_violation request batch i f o r s v :
  request !! o = Some r -> scale_roi r f = Ok s -> batch !! i = Some v ->
  RoiOps.contains (roi v) s = false ->
  process_pair request batch (i, (f, o)) = Err ContainmentViolation.
Proof.
  intros Ho Hs Hi Hc. unfold process_pair, getkey.
  rewrite Ho, Hs. cbn [bind]. rewrite Hi. cbn [bind]. by rewrite Hc.
Qed.

(** The iteration up to the comparison of the shapes. *)
Lemma process_pair_steps request batch i f o r s v w cropped strided :
  request !! o = Some r -> scale_roi r f = Ok s -> batch !! i = Some v ->
  RoiOps.contains (roi v) s = true ->
  RoiOps.sub s (RoiOps.get_begin (roi v)) = Ok w ->
  getitem (data v) (get_bounding_box w) = Ok cropped ->
  getitem cropped (stride_slices f (RoiOps.dims (roi v))) = Ok strided ->
  process_pair request batch (i, (f, o)) =
  if bool_decide (nd_shape strided = RoiOps.get_shape r)
  then let? res := Coordinate.mul (resolution v) f in
       Ok (<[o := mkVolume strided r res]> batch)
  else Err ShapeMismatch.
Proof.
  intros Ho Hs Hi Hc Hw Hcrop Hstr. unfold process_pair, getkey.
  rewrite Ho, Hs. cbn [bind]. rewrite Hi. cbn [bind].
  rewrite Hc. cbn [guard bind]. rewrite Hw. cbn [bind].
  rewrite Hcrop. cbn [bind]. rewrite Hstr. cbn [bind].
  by destruct (bool_decide (nd_shape strided = RoiOps.get_shape r)).
Qed.

Lemma first_loop_at (self : DownSample) pre it post request batch b1 :
  volume_factors self = pre ++ it :: post ->
  for_items (process_pair request) pre batch = Done b1 ->
  for_items (process_pair request) (volume_factors self) batch =
  match process_pair request b1 it with
  | Ok b2 => for_items (process_pair request) post b2
  | Err e => Raised e b1
  end.
Proof. intros -> Hpre. by rewrite for_items_app, Hpre. Qed.

Lemma process_raises_in_first_loop (self : DownSample) pre it post request batch b1 e :
  volume_factors self = pre ++ it :: post ->
  for_items (process_pair request) pre batch = Done b1 ->
  process_pair request b1 it = Err e ->
  process self batch request = Raised e b1.
Proof.
  intros Hvf Hpre Hit. unfold process.
  by rewrite (first_loop_at self pre it post request batch b1 Hvf Hpre), Hit.
Qed.

End ProcessFacts.

Lemma scaled_shape_nonneg (rs ks : list Z) :
  Forall (fun r => 0 <= r) rs -> Forall (fun k => 0 < k) ks ->
  Forall (fun u => 0 <= u) (zip_with Z.mul rs ks).
Proof.
  intros Hr. revert ks. induction Hr as [| r rs Hr0 Hr IH]; intros ks Hk; [constructor |].
  destruct Hk as [| k ks Hk0 Hk]; simpl; constructor; [nia | by apply IH].
Qed.

(** C7.  When a pair's turn comes, its output type is requested and the
    ROI of the input volume in the batch does not contain the scaled ROI
    derived from the request, [process] raises ContainmentViolation and
    the batch is the one the pairs before left: nothing has been stored
    for this pair. *)
Theorem process_containment_violation {elt} (self : DownSample)
    (pre post : list item) (i o : VolumeType) (f : factor)
    (batch b1 : Batch elt) (request : Request) (r s : Roi) (v : Volume elt) :
  volume_factors self = pre ++ (i, (f, o)) :: post ->
  for_items (process_pair request) pre batch = Done b1 ->
  request !! o = Some r -> scale_roi r f = Ok s ->
  b1 !! i = Some v -> RoiOps.contains (roi v) s = false ->
  process self batch request = Raised ContainmentViolation b1.
Proof.
  intros Hvf Hpre Ho Hs Hi Hc.
  apply (process_raises_in_first_loop self pre (i, (f, o)) post request batch b1);
    [done | done |].
  by apply process_pair_violation with r s v.
Qed.

Lemma process_containment_violation_witness :
  process Examples.half_node Examples.narrow_batch Examples.half_request
  = Raised ContainmentViolation Examples.narrow_batch.
Proof.
  apply (process_containment_violation Examples.half_node [] [] Examples.A Examples.B
           (Uniform 2) Examples.narrow_batch Examples.narrow_batch Examples.half_request
           (Examples.cube 0 4) (Examples.cube (-2) 8)
           (mkVolume (Examples.index_array 4) (Examples.cube 0 4) [4; 4; 40]));
    reflexivity.
Defined.

(** C6.  When a pair's turn comes and the crop and the stride have given
    an array, the iteration raises ShapeMismatch exactly when the shape of
    that array differs from the shape of the requested ROI, and then
    [process] raises it with the batch as the pairs before left it. *)
Theorem process_shape_mismatch {elt} (self : DownSample)
    (pre post : list item) (i o : VolumeType) (f : factor)
    (batch b1 : Batch elt) (request : Request) (r s w : Roi) (v : Volume elt)
    (cropped strided : ndarray elt) :
  volume_factors self = pre ++ (i, (f, o)) :: post ->
  for_items (process_pair request) pre batch = Done b1 ->
  request !! o = Some r -> scale_roi r f = Ok s ->
  b1 !! i = Some v -> RoiOps.contains (roi v) s = true ->
  RoiOps.sub s (RoiOps.get_begin (roi v)) = Ok w ->
  getitem (data v) (get_bounding_box w) = Ok cropped ->
  getitem cropped (stride_slices f (RoiOps.dims (roi v))) = Ok strided ->
  (process_pair request b1 (i, (f, o)) = Err ShapeMismatch
   <-> nd_shape strided <> RoiOps.get_shape r) /\
  (nd_shape strided <> RoiOps.get_shape r ->
   process self batch request = Raised ShapeMismatch b1).
Proof.
  intros Hvf Hpre Ho Hs Hi Hc Hw Hcrop Hstr.
  pose proof (process_pair_steps request b1 i f o r s v w cropped strided
                Ho Hs Hi Hc Hw Hcrop Hstr) as Hstep.
  assert (Hiff : process_pair request b1 (i, (f, o)) = Err ShapeMismatch
                 <-> nd_shape strided <> RoiOps.get_shape r).
  { rewrite Hstep. case_bool_decide as Hsh.
    - split; [| done]. intros H.
      destruct f as [k | ks]; simpl in H; [discriminate |].
      destruct (Coordinate.same_dims (resolution v) ks); discriminate.
    - done. }
  split; [done |]. intros Hne.
  apply (process_raises_in_first_loop self pre (i, (f, o)) post request batch b1);
    [done | done |]. by apply Hiff.
Qed.

Lemma process_shape_mismatch_witness :
  process Examples.half_node Examples.short_batch Examples.half_request
  = Raised ShapeMismatch Examples.short_batch.
Proof.
  eapply (process_shape_mismatch Examples.half_node [] [] Examples.A Examples.B
            (Uniform 2) Examples.short_batch Examples.short_batch Examples.half_request
            (Examples.cube 0 4) (Examples.cube (-2) 8) (mkRoi [1; 1; 1] [8; 8; 8])
            (mkVolume (Examples.index_array 5) (Examples.cube (-3) 10) [4; 4; 40])).
  - reflexivity.
  - reflexivity.
  - reflexivity.
  - reflexivity.
  - reflexivity.
  - reflexivity.
  - reflexivity.
  - reflexivity.
  - reflexivity.
  - simpl. discriminate.
Defined.

(** When the box to fetch holds a coordinate, [contains] is the
    comparison of begins and ends. *)
Lemma contains_nonempty (a b : Roi) :
  RoiOps.is_empty b = false ->
  RoiOps.contains a b = RoiOps.box_within (offset a) (shape a) (offset b) (shape b).
Proof. intros H. unfold RoiOps.contains. by rewrite H. Qed.

Lemma box_within_contains (a b : Roi) :
  RoiOps.box_within (offset a) (shape a) (offset b) (shape b) = true ->
  RoiOps.contains a b = true.
Proof. intros H. unfold RoiOps.contains. rewrite H. apply orb_true_r. Qed.

(** One iteration of the downsampling loop on a well-formed input that
    covers the window. *)
Lemma decimate_step {elt} (i o : VolumeType) (f : factor)
    (b1 : Batch elt) (request : Request) (r s : Roi) (v : Volume elt) :
  request !! o = Some r -> wf_roi r ->
  factor_positive f -> factor_fits f (RoiOps.dims r) ->
  b1 !! i = Some v -> wf_volume v -> factor_fits f (length (resolution v)) ->
  scale_roi r f = Ok s ->
  RoiOps.box_within (offset (roi v)) (shape (roi v)) (offset s) (shape s) = true ->
  exists strided res,
    process_pair request b1 (i, (f, o)) = Ok (<[o := mkVolume strided r res]> b1) /\
    Coordinate.mul (resolution v) f = Ok res /\
    nd_shape strided = RoiOps.get_shape r /\
    forall idx, length idx = RoiOps.dims r ->
      nd_at strided idx =
      nd_at (data v)
        (decimate_index (zip_with Z.sub (offset s) (offset (roi v)))
                        (factor_list f (RoiOps.dims r)) idx).
Proof.
  intros Ho [Hdims Hnonneg] Hfpos Hffit Hi [Hwfv Hdata] Hres Hs Hbox.
  pose proof (scale_roi_closed_form r f Hdims Hffit) as Hclosed.
  rewrite Hs in Hclosed. injection Hclosed as Hs_eq.
  set (ks := factor_list f (RoiOps.dims r)) in *.
  pose proof (factor_list_length _ _ Hffit : length ks = RoiOps.dims r) as Hks.
  unfold RoiOps.dims, Coordinate.dims in Hks.
  unfold roi_dims_ok in Hdims.
  pose proof (box_within_lengths _ _ _ _ Hbox) as (Hl1 & Hl2 & Hl3).
  assert (Hshape_s : shape s = zip_with Z.mul (shape r) ks) by (by rewrite Hs_eq).
  assert (Hlen_s : length (offset s) = length (offset r)).
  { rewrite Hs_eq. simpl. apply closed_offset_length; [done | lia]. }
  assert (Hdims_v : RoiOps.dims (roi v) = RoiOps.dims r).
  { unfold RoiOps.dims, Coordinate.dims. lia. }
  assert (Hkpos : Forall (fun k => 0 < k) ks) by (by apply factor_list_positive).
  assert (Hspos : Forall (fun u => 0 <= u) (shape s)).
  { rewrite Hshape_s. by apply scaled_shape_nonneg. }
  (* the window inside the input array *)
  assert (Hw : RoiOps.sub s (RoiOps.get_begin (roi v))
               = Ok (mkRoi (zip_with Z.sub (offset s) (offset (roi v))) (shape s))).
  { unfold RoiOps.sub, Coordinate.sub, RoiOps.get_begin.
    by rewrite same_dims_true. }
  assert (Hbox' : RoiOps.box_within (offset (roi v)) (nd_shape (data v))
                    (offset s) (shape s) = true) by (by rewrite Hdata).
  pose proof (getitem_crop (data v) _ _ _ Hbox' Hspos) as Hcrop.
  set (cropped := mkArray (shape s)
         (fun idx => nd_at (data v)
            (reindex (zip_with (fun w u => (w, 1, u))
                        (zip_with Z.sub (offset s) (offset (roi v))) (shape s)) idx)))
    in Hcrop.
  assert (Hstr : getitem cropped (stride_slices f (RoiOps.dims (roi v)))
                 = Ok (mkArray (shape r)
                         (fun idx => nd_at cropped
                            (reindex (zip_with (fun r k => (0, k, r)) (shape r) ks) idx)))).
  { rewrite stride_slices_list, Hdims_v. fold ks.
    apply getitem_stride; [done | lia | done | done]. }
  set (strided := mkArray (shape r)
         (fun idx => nd_at cropped
            (reindex (zip_with (fun r k => (0, k, r)) (shape r) ks) idx))) in Hstr.
  pose proof (mul_factor_list (resolution v) f Hres) as Hmul.
  exists strided, (zip_with Z.mul (resolution v) (factor_list f (length (resolution v)))).
  split; [| split; [done | split; [done |]]].
  - rewrite (process_pair_steps request b1 i f o r s v _ cropped strided
               Ho Hs Hi (box_within_contains _ _ Hbox) Hw Hcrop Hstr).
    rewrite bool_decide_eq_true_2 by done. by rewrite Hmul.
  - intros idx Hidx. unfold RoiOps.dims, Coordinate.dims in Hidx.
    subst strided cropped. cbn [nd_at].
    rewrite reindex_crop_stride; [done | | | |]; rewrite ?length_zip_with; lia.
Qed.


(** C1 (amended).  For the configuration [{A: (2, B)}] and the request
    [{B: ROI((0,0,0), (4,4,4))}], [prepare] leaves the request
    [{A: ROI((-2,-2,-2), (8,8,8))}]; and on a batch whose well-formed [A]
    volume contains that ROI, the downsampling loop of [process] stores
    under [B] a volume with the requested ROI, of shape [(4,4,4)], an
    array of that shape, and the resolution of [A] times 2. *)
Theorem scenario_half_resolution {elt} (batch : Batch elt) (v : Volume elt) :
  batch !! Examples.A = Some v -> wf_volume v ->
  RoiOps.contains (roi v) (Examples.cube (-2) 8) = true ->
  DownSample_init [(Examples.A, (Uniform 2, Examples.B))] = Ok Examples.half_node /\
  prepare Examples.half_node Examples.half_request
    = Done {[ Examples.A := Examples.cube (-2) 8 ]} /\
  exists out,
    for_items (process_pair Examples.half_request)
      (volume_factors Examples.half_node) batch
      = Done (<[Examples.B := out]> batch) /\
    roi out = Examples.cube 0 4 /\
    RoiOps.get_shape (roi out) = [4; 4; 4] /\
    nd_shape (data out) = [4; 4; 4] /\
    resolution out = map (fun a => a * 2) (resolution v).
Proof.
  intros Hv Hwf Hc.
  split; [reflexivity |]. split; [vm_compute; reflexivity |].
  rewrite contains_nonempty in Hc by reflexivity.
  assert (Hr : wf_roi (Examples.cube 0 4)).
  { split; [reflexivity |]. simpl. repeat constructor; lia. }
  assert (Hpos : factor_positive (Uniform 2)) by (simpl; lia).
  destruct (decimate_step Examples.A Examples.B (Uniform 2) batch Examples.half_request
              (Examples.cube 0 4) (Examples.cube (-2) 8) v
              eq_refl Hr Hpos I Hv Hwf I eq_refl Hc) as
    (strided & res & Hstep & Hmul & Hshape & _).
  exists (mkVolume strided (Examples.cube 0 4) res).
  cbn [volume_factors Examples.half_node for_items]. rewrite Hstep.
  simpl in Hmul. injection Hmul as <-. done.
Qed.

Lemma scenario_half_resolution_witness :
  DownSample_init [(Examples.A, (Uniform 2, Examples.B))] = Ok Examples.half_node /\
  prepare Examples.half_node Examples.half_request
    = Done {[ Examples.A := Examples.cube (-2) 8 ]} /\
  exists out,
    for_items (process_pair Examples.half_request)
      (volume_factors Examples.half_node) Examples.wide_batch
      = Done (<[Examples.B := out]> Examples.wide_batch) /\
    roi out = Examples.cube 0 4 /\
    RoiOps.get_shape (roi out) = [4; 4; 4] /\
    nd_shape (data out) = [4; 4; 4] /\
    resolution out = map (fun a => a * 2) [4; 4; 40].
Proof.
  apply (scenario_half_resolution Examples.wide_batch
           (mkVolume (Examples.index_array 10) (Examples.cube (-3) 10) [4; 4; 40])).
  - reflexivity.
  - split; [split; [reflexivity |] | reflexivity]. simpl. repeat constructor; lia.
  - reflexivity.
Defined.

(** ** [process]: restoring the requested ROIs *)

Section RestoreFacts.
Context {elt : Type}.
Implicit Types (batch : Batch elt) (request : Request) (v : Volume elt).

Lemma restore_pair_inv request batch batch' i fo :
  restore_pair request batch (i, fo) = Ok batch' ->
  (batch !! i = None /\ batch' = batch) \/
  (exists v rr, batch !! i = Some v /\ request !! i = Some rr /\
     ((roi v = rr /\ batch' = batch) \/
      (exists d, batch' = <[i := mkVolume d rr (resolution v)]> batch))).
Proof.
  unfold restore_pair, getkey. destruct (batch !! i) as [v |] eqn:Hi.
  - destruct (request !! i) as [rr |] eqn:Hr; cbn [bind]; [| discriminate].
    intros H. right. exists v, rr. split; [done |]. split; [done |].
    case_bool_decide as Hne.
    + right. apply bind_Ok in H as ([] & _ & H).
      apply bind_Ok in H as (w & _ & H). apply bind_Ok in H as (d & _ & H).
      injection H as <-. by exists d.
    + left. injection H as <-. split; [| done].
      by destruct (decide (roi v = rr)).
  - intros [= <-]. by left.
Qed.

Lemma restore_pair_missing request batch i fo v :
  batch !! i = Some v -> request !! i = None ->
  restore_pair request batch (i, fo) = Err (KeyError i).
Proof. intros Hi Hr. unfold restore_pair, getkey. by rewrite Hi, Hr. Qed.

(** A restore step leaves an entry as it was or gives it the requested
    ROI. *)
Lemma restore_pair_lookup request batch batch' it k v' :
  restore_pair request batch it = Ok batch' -> batch' !! k = Some v' ->
  batch !! k = Some v' \/ request !! k = Some (roi v').
Proof.
  destruct it as [i fo]. intros H Hk.
  apply restore_pair_inv in H
    as [[_ ->] | (v & rr & Hi & Hr & [[_ ->] | (d & ->)])]; [by left | by left |].
  destruct (decide (i = k)) as [-> | Hne].
  - rewrite lookup_insert_eq in Hk. injection Hk as <-. by right.
  - rewrite lookup_insert_ne in Hk by done. by left.
Qed.

Lemma restore_pair_head request batch batch' it v' :
  restore_pair request batch it = Ok batch' ->
  batch' !! item_input it = Some v' ->
  request !! item_input it = Some (roi v').
Proof.
  destruct it as [i fo]. intros H Hk.
  change (item_input (i, fo)) with i in *.
  apply restore_pair_inv in H
    as [[Hi ->] | (v & rr & Hi & Hr & [[Heq ->] | (d & ->)])].
  - congruence.
  - rewrite Hi in Hk. injection Hk as <-. by rewrite Heq.
  - rewrite lookup_insert_eq in Hk. by injection Hk as <-.
Qed.

Lemma restore_loop request (items : list item) batch batch' :
  for_items (restore_pair request) items batch = Done batch' ->
  (forall k v', batch' !! k = Some v' ->
     batch !! k = Some v' \/ request !! k = Some (roi v')) /\
  Forall (fun it => forall v', batch' !! item_input it = Some v' ->
                      request !! item_input it = Some (roi v')) items.
Proof.
  revert batch. induction items as [| it items IH]; intros batch H.
  - injection H as <-. split; [by left | constructor].
  - apply for_items_Done_cons in H as (b1 & H1 & H).
    destruct (IH _ H) as [Hany Hall]. split.
    + intros k v' Hk. destruct (Hany _ _ Hk) as [Hk1 | Hreq]; [| by right].
      by apply (restore_pair_lookup request batch b1 it).
    + constructor; [| done]. intros v' Hk.
      destruct (Hany _ _ Hk) as [Hk1 | Hreq]; [| done].
      by apply (restore_pair_head request batch b1 it).
Qed.

(** Keys are never removed from the batch. *)
Lemma process_pair_keeps request batch batch' it k :
  process_pair request batch it = Ok batch' ->
  is_Some (batch !! k) -> is_Some (batch' !! k).
Proof.
  destruct it as [i [f o]]. unfold process_pair.
  destruct (request !! o) as [r |]; [| by intros [= <-]].
  intros H Hk. apply bind_Ok in H as (s & _ & H). apply bind_Ok in H as (v & _ & H).
  apply bind_Ok in H as ([] & _ & H). apply bind_Ok in H as (w & _ & H).
  apply bind_Ok in H as (c & _ & H). apply bind_Ok in H as (d & _ & H).
  apply bind_Ok in H as ([] & _ & H). apply bind_Ok in H as (res & _ & H).
  injection H as <-. rewrite lookup_insert_is_Some.
  destruct (decide (o = k)); [by left | by right].
Qed.

Lemma restore_pair_keeps request batch batch' it k :
  restore_pair request batch it = Ok batch' ->
  is_Some (batch !! k) -> is_Some (batch' !! k).
Proof.
  destruct it as [i fo]. intros H Hk.
  apply restore_pair_inv in H
    as [[_ ->] | (v & rr & Hi & Hr & [[_ ->] | (d & ->)])]; [done | done |].
  rewrite lookup_insert_is_Some. destruct (decide (i = k)); [by left | by right].
Qed.

Lemma loop_keeps (body : Batch elt -> item -> result (Batch elt))
    (items : list item) batch batch' k :
  (forall b b' it, body b it = Ok b' -> is_Some (b !! k) -> is_Some (b' !! k)) ->
  for_items body items batch = Done batch' ->
  is_Some (batch !! k) -> is_Some (batch' !! k).
Proof.
  intros Hbody. revert batch. induction items as [| it items IH]; intros batch H Hk.
  - by injection H as <-.
  - apply for_items_Done_cons in H as (b1 & H1 & H).
    apply (IH b1 H). by apply (Hbody batch b1 it).
Qed.

Lemma process_Done_inv (self : DownSample) batch batch' request :
  process self batch request = Done batch' ->
  exists b1, for_items (process_pair request) (volume_factors self) batch = Done b1 /\
             for_items (restore_pair request) (volume_factors self) b1 = Done batch'.
Proof.
  unfold process.
  destruct (for_items (process_pair request) (volume_factors self) batch) as [b1 | e b1];
    [eauto | discriminate].
Qed.

End RestoreFacts.


(** C10.  The restore loop looks an input type up in the request whenever
    it is a key of the batch.  If a configured input type is in the batch
    and not in the request, [process] never returns; once the downsampling
    loop and the restore steps of the pairs before are through, it raises
    KeyError for that type. *)
Theorem process_input_not_requested {elt} (self : DownSample)
    (pre post : list item) (i : VolumeType) (fo : factor * VolumeType)
    (batch : Batch elt) (request : Request) (v : Volume elt) :
  volume_factors self = pre ++ (i, fo) :: post ->
  batch !! i = Some v -> request !! i = None ->
  (forall batch', process self batch request <> Done batch') /\
  (forall b1 b2,
     for_items (process_pair request) (volume_factors self) batch = Done b1 ->
     for_items (restore_pair request) pre b1 = Done b2 ->
     process self batch request = Raised (KeyError i) b2).
Proof.
  intros Hvf Hi Hr. split.
  - intros batch' H. pose proof H as H'.
    apply process_Done_inv in H' as (b1 & H1 & H2).
    assert (Hk : is_Some (batch' !! i)).
    { apply (loop_keeps (restore_pair request) (volume_factors self) b1 batch' i
               (fun b b' it => restore_pair_keeps request b b' it i) H2).
      apply (loop_keeps (process_pair request) (volume_factors self) batch b1 i
               (fun b b' it => process_pair_keeps request b b' it i) H1).
      by rewrite Hi. }
    destruct Hk as [v' Hv'].
    assert (Hin : (i, fo) ∈ volume_factors self).
    { rewrite Hvf. apply elem_of_app. right. apply elem_of_cons. by left. }
    pose proof (restore_loop request _ _ _ H2) as [_ Hall].
    pose proof (proj1 (Forall_forall _ _) Hall _ Hin v' Hv') as Hreq.
    unfold item_input in Hreq; simpl in Hreq. congruence.
  - intros b1 b2 H1 H2. unfold process. rewrite H1, Hvf, for_items_app, H2.
    assert (Hk : is_Some (b2 !! i)).
    { apply (loop_keeps (restore_pair request) pre b1 b2 i
               (fun b b' it => restore_pair_keeps request b b' it i) H2).
      apply (loop_keeps (process_pair request) (volume_factors self) batch b1 i
               (fun b b' it => process_pair_keeps request b b' it i) H1).
      by rewrite Hi. }
    destruct Hk as [v2 Hv2]. cbn [for_items].
    by rewrite (restore_pair_missing request b2 i fo v2 Hv2 Hr).
Qed.

Lemma process_input_not_requested_witness :
  (forall batch', process Examples.half_node Examples.wide_batch Examples.half_request
                  <> Done batch') /\
  (forall b1 b2,
     for_items (process_pair Examples.half_request)
       (volume_factors Examples.half_node) Examples.wide_batch = Done b1 ->
     for_items (restore_pair Examples.half_request) [] b1 = Done b2 ->
     process Examples.half_node Examples.wide_batch Examples.half_request
     = Raised (KeyError Examples.A) b2).
Proof.
  apply (process_input_not_requested Examples.half_node [] [] Examples.A
           (Uniform 2, Examples.B) Examples.wide_batch Examples.half_request
           (mkVolume (Examples.index_array 10) (Examples.cube (-3) 10) [4; 4; 40]));
    reflexivity.
Defined.

(** In the scenario of the specification [process], called with the
    request the consumer made, has stored [B] when it raises. *)
Lemma scenario_process_raises :
  exists b : Batch (list Z),
    process Examples.half_node Examples.wide_batch Examples.half_request
    = Raised (KeyError Examples.A) b /\
    is_Some (b !! Examples.B).
Proof. eexists. split; [reflexivity |]. vm_compute. eauto. Qed.

(** ** [contains] and [union] against their description *)

Lemma inside_empty (o s p : list Z) :
  existsb (fun x => x <=? 0) s = true -> ~ inside o s p.
Proof.
  revert s p. induction o as [| a o IH]; intros [| n s] [| x p]; simpl; try tauto;
    try discriminate.
  intros H [Hx Hp]. apply orb_true_iff in H as [H | H].
  - apply Z.leb_le in H. lia.
  - by apply (IH s p).
Qed.

Lemma inside_begin (o s : list Z) :
  length o = length s -> existsb (fun x => x <=? 0) s = false -> inside o s o.
Proof.
  revert s. induction o as [| a o IH]; intros [| n s]; simpl; try done.
  intros [= Hlen] H. apply orb_false_iff in H as [Hn H].
  apply Z.leb_gt in Hn. split; [lia | by apply IH].
Qed.

Lemma box_within_inside (ao ash bo bsh p : list Z) :
  RoiOps.box_within ao ash bo bsh = true -> inside bo bsh p -> inside ao ash p.
Proof.
  revert ash bo bsh p.
  induction ao as [| a ao IH]; intros [| s ash] [| b bo] [| u bsh] [| x p];
    simpl; try done.
  intros H [Hx Hp].
  apply andb_true_iff in H as [H Hrest]. apply andb_true_iff in H as [Hlo Hhi].
  apply Z.leb_le in Hlo, Hhi. split; [lia | by apply (IH ash bo bsh)].
Qed.

Lemma inside_box_within (ao ash bo bsh : list Z) :
  length bo = length bsh ->
  existsb (fun x => x <=? 0) bsh = false ->
  (forall p, inside bo bsh p -> inside ao ash p) ->
  RoiOps.box_within ao ash bo bsh = true.
Proof.
  revert ao ash bsh. induction bo as [| b bo IH]; intros ao ash [| u bsh] Hlen Hne Hall;
    try discriminate.
  - specialize (Hall [] I). by destruct ao, ash.
  - injection Hlen as Hlen. simpl in Hne.
    apply orb_false_iff in Hne as [Hu Hne]. apply Z.leb_gt in Hu.
    pose proof (inside_begin bo bsh Hlen Hne) as Hbo.
    assert (Hfirst : inside (b :: bo) (u :: bsh) (b :: bo)) by (simpl; split; [lia | done]).
    assert (Hlast : inside (b :: bo) (u :: bsh) (b + u - 1 :: bo))
      by (simpl; split; [lia | done]).
    pose proof (Hall _ Hfirst) as H1. pose proof (Hall _ Hlast) as H2.
    destruct ao as [| a ao], ash as [| s ash]; simpl in H1, H2; try done.
    destruct H1 as [H1 _], H2 as [H2 _]. simpl.
    apply andb_true_iff. split; [apply andb_true_iff; split; apply Z.leb_le; lia |].
    apply IH; [done | done |]. intros p Hp.
    assert (Hbp : inside (b :: bo) (u :: bsh) (b :: p)) by (simpl; split; [lia | done]).
    by destruct (Hall _ Hbp) as [_ Htail].
Qed.

(** [contains a b] holds exactly when every coordinate of [b] is a
    coordinate of [a]. *)
Lemma contains_spec (a b : Roi) :
  roi_dims_ok b ->
  RoiOps.contains a b = true <->
  (forall p, inside (offset b) (shape b) p -> inside (offset a) (shape a) p).
Proof.
  intros Hb. unfold RoiOps.contains, RoiOps.is_empty.
  destruct (existsb (fun s => s <=? 0) (shape b)) eqn:Hempty; simpl.
  - split; [| done]. intros _ p Hp. by destruct (inside_empty _ _ _ Hempty Hp).
  - split.
    + intros H p. by apply box_within_inside.
    + by apply inside_box_within.
Qed.

(** The union contains both operands. *)
Lemma union_box_within (ao ash bo bsh : list Z) :
  length ao = length ash -> length bo = length ao -> length bsh = length ao ->
  let lo := zip_with Z.min ao bo in
  let hi := zip_with Z.max (zip_with Z.add ao ash) (zip_with Z.add bo bsh) in
  RoiOps.box_within lo (zip_with Z.sub hi lo) ao ash = true /\
  RoiOps.box_within lo (zip_with Z.sub hi lo) bo bsh = true.
Proof.
  revert ash bo bsh. induction ao as [| a ao IH]; intros [| s ash] [| b bo] [| u bsh];
    simpl; try done.
  intros [= H1] [= H2] [= H3]. destruct (IH ash bo bsh H1 H2 H3) as [Ha Hb].
  simpl in Ha, Hb. rewrite Ha, Hb. split; apply andb_true_iff; split; try done;
    apply andb_true_iff; split; apply Z.leb_le; lia.
Qed.

Lemma union_contains (a b u : Roi) :
  RoiOps.union a b = Ok u -> RoiOps.contains u a = true /\ RoiOps.contains u b = true.
Proof.
  unfold RoiOps.union. intros H. apply bind_Ok in H as ([] & Hg & H).
  injection H as <-. unfold guard in Hg.
  destruct (Coordinate.same_dims (offset a) (offset b)) eqn:H1; [| discriminate].
  destruct (Coordinate.same_dims (shape a) (shape b)) eqn:H2; [| discriminate].
  destruct (Coordinate.same_dims (offset a) (shape a)) eqn:H3; [| discriminate].
  apply same_dims_length in H1, H2, H3.
  destruct (union_box_within (offset a) (shape a) (offset b) (shape b)) as [Ha Hb];
    [lia | lia | lia |].
  split; apply box_within_contains; simpl; done.
Qed.


(** * Further properties of the node *)

(** ** [__init__] *)

Lemma init_outputs_decides (items : list item) (outs : list VolumeType) :
  NoDup outs ->
  (NoDup (outs ++ map item_output items) ->
   init_outputs items outs = Ok (outs ++ map item_output items)) /\
  (~ NoDup (outs ++ map item_output items) ->
   init_outputs items outs = Err ConfigurationError).
Proof.
  revert outs. induction items as [| [i [f o]] items IH]; intros outs Hnd.
  - simpl. rewrite app_nil_r. split; [done | by intros []].
  - cbn [init_outputs map item_output snd].
    change (item_output (i, (f, o))) with o.
    destruct (decide (o ∈ outs)) as [Hin | Hnotin].
    + rewrite (bool_decide_eq_true_2 _ Hin). cbn [negb guard bind]. split; [| done].
      intros Hall. apply NoDup_app in Hall as (_ & Hdisj & _).
      destruct (Hdisj o Hin). apply elem_of_cons. by left.
    + rewrite (bool_decide_eq_false_2 _ Hnotin). cbn [negb guard bind].
      assert (Hnd' : NoDup (outs ++ [o])).
      { apply NoDup_app. split; [done |]. split; [| apply NoDup_singleton].
        intros x Hx Hx'. apply list_elem_of_singleton in Hx' as ->. done. }
      destruct (IH _ Hnd') as [Hyes Hno].
      rewrite <- !app_assoc in Hyes, Hno. simpl in Hyes, Hno. done.
Qed.

(** X1.  [__init__] accepts a configuration exactly when the output types
    of its items are pairwise different; it then keeps the items as they
    are and records their output types in item order.  Otherwise it fails
    on the assertion "Output volume type %s is used twice". *)
Theorem init_accepts_distinct_outputs (entries : list item) :
  (NoDup (map item_output (dict_literal entries)) ->
   DownSample_init entries
   = Ok (mkDownSample (dict_literal entries) (map item_output (dict_literal entries)))) /\
  (~ NoDup (map item_output (dict_literal entries)) ->
   DownSample_init entries = Err ConfigurationError).
Proof.
  unfold DownSample_init.
  destruct (init_outputs_decides (dict_literal entries) [] (NoDup_nil_2)) as [Hyes Hno].
  simpl in Hyes, Hno. split; intros Hnd.
  - by rewrite (Hyes Hnd).
  - by rewrite (Hno Hnd).
Qed.

Lemma init_accepts_distinct_outputs_witness :
  DownSample_init MoreExamples.pair_entries = Ok MoreExamples.pair_node /\
  DownSample_init MoreExamples.clash_entries = Err ConfigurationError.
Proof.
  split.
  - apply (proj1 (init_accepts_distinct_outputs MoreExamples.pair_entries)).
    apply (bool_decide_unpack _). vm_compute. exact I.
  - apply (proj2 (init_accepts_distinct_outputs MoreExamples.clash_entries)).
    intros Hnd. apply (bool_decide_pack _) in Hnd. vm_compute in Hnd. exact Hnd.
Defined.

(** ** [__scale_roi] *)

Lemma scale_roi_dims_mismatch (r : Roi) (f : factor) :
  ~ (roi_dims_ok r /\ factor_fits f (RoiOps.dims r)) ->
  scale_roi r f = Err DimensionMismatch.
Proof.
  intros Hbad. unfold scale_roi, RoiOps.get_center, Coordinate.add.
  unfold roi_dims_ok, RoiOps.dims, Coordinate.dims in Hbad.
  destruct (Coordinate.same_dims (offset r) (Coordinate.half (shape r))) eqn:Hsame.
  - apply same_dims_length in Hsame. unfold Coordinate.half in Hsame.
    rewrite length_map in Hsame. cbn [bind].
    destruct f as [k | ks]; [destruct Hbad; by split |].
    unfold RoiOps.mul, Coordinate.mul.
    destruct (Coordinate.same_dims (offset r) ks) eqn:Hks; [| done].
    apply same_dims_length in Hks. destruct Hbad. by split.
  - done.
Qed.

Lemma scale_roi_Ok_inv (r s : Roi) (f : factor) :
  scale_roi r f = Ok s ->
  roi_dims_ok r /\ factor_fits f (RoiOps.dims r) /\
  s = scale_roi_closed r (factor_list f (RoiOps.dims r)).
Proof.
  intros Hs.
  destruct (decide (roi_dims_ok r)) as [Hd | Hd].
  - assert (Hf : factor_fits f (RoiOps.dims r)).
    { destruct f as [k | ks]; [done |]. simpl.
      destruct (decide (length ks = RoiOps.dims r)) as [Hk | Hk]; [done |].
      rewrite scale_roi_dims_mismatch in Hs; [discriminate |]. intros [_ Hfit]. done. }
    rewrite (scale_roi_closed_form r f Hd Hf) in Hs. by injection Hs as <-.
  - rewrite scale_roi_dims_mismatch in Hs; [discriminate |]. by intros [Hd' _].
Qed.

(** X2.  [__scale_roi] returns exactly when offset and shape of the ROI
    have the same length and a tuple factor has that length too; the ROI
    it returns has shape [s * f] and offset [o + s/2 - (s * f)/2] per
    axis.  In every other case it fails on the dimensionality check. *)
Theorem scale_roi_returns_iff (r : Roi) (f : factor) :
  (roi_dims_ok r /\ factor_fits f (RoiOps.dims r) ->
   scale_roi r f = Ok (scale_roi_closed r (factor_list f (RoiOps.dims r)))) /\
  (~ (roi_dims_ok r /\ factor_fits f (RoiOps.dims r)) ->
   scale_roi r f = Err DimensionMismatch).
Proof.
  split.
  - intros [Hd Hf]. by apply scale_roi_closed_form.
  - apply scale_roi_dims_mismatch.
Qed.

Lemma scale_roi_returns_iff_witness :
  scale_roi (mkRoi [0; 3] [4; 7]) (PerAxis [2; 3]) = Ok (mkRoi [-2; -4] [8; 21]) /\
  scale_roi (mkRoi [0; 3] [4; 7]) (PerAxis [2; 3; 5]) = Err DimensionMismatch.
Proof.
  split.
  - apply (proj1 (scale_roi_returns_iff (mkRoi [0; 3] [4; 7]) (PerAxis [2; 3]))).
    split; reflexivity.
  - apply (proj2 (scale_roi_returns_iff (mkRoi [0; 3] [4; 7]) (PerAxis [2; 3; 5]))).
    intros [_ Hfit]. simpl in Hfit. discriminate.
Defined.

Lemma factor_list_at_least_one (f : factor) (n : nat) :
  factor_at_least_one f -> Forall (fun k => 1 <= k) (factor_list f n).
Proof.
  destruct f as [k | ks]; simpl; [| done].
  intros Hk. induction n as [| n IH]; simpl; by constructor.
Qed.

Lemma closed_covers (o s ks : list Z) :
  length o = length s -> length ks = length o ->
  Forall (fun n => 0 <= n) s -> Forall (fun k => 1 <= k) ks ->
  RoiOps.box_within
    (zip_with (fun os k => scaled_offset os.1 os.2 k) (zip o s) ks)
    (zip_with Z.mul s ks) o s = true.
Proof.
  revert s ks. induction o as [| a o IH]; intros [| n s] [| k ks]; simpl; try done.
  intros [= Hs] [= Hk] Hn Hks.
  apply Forall_cons in Hn as [Hn0 Hn]. apply Forall_cons in Hks as [Hk0 Hks].
  rewrite IH by done. rewrite andb_true_r. unfold scaled_offset.
  assert (Hle : n <= n * k) by nia.
  remember (n * k) as b eqn:Hb. clear Hb.
  apply andb_true_iff. split; apply Z.leb_le; Z.div_mod_to_equations; lia.
Qed.

Lemma scaled_shape_wf (s ks : list Z) :
  Forall (fun n => 0 <= n) s -> Forall (fun k => 1 <= k) ks ->
  Forall (fun u => 0 <= u) (zip_with Z.mul s ks).
Proof.
  intros Hs Hk. apply scaled_shape_nonneg; [done |].
  apply (Forall_impl _ _ _ Hk). intros k Hk1. lia.
Qed.

(** X3.  For a well-formed ROI and a factor of at least 1 on every axis,
    the ROI that [__scale_roi] returns is well formed and covers the ROI
    it was given: the window asked of upstream includes the requested
    region. *)
Theorem scale_roi_covers_request (r s : Roi) (f : factor) :
  wf_roi r -> factor_at_least_one f -> scale_roi r f = Ok s ->
  wf_roi s /\
  RoiOps.box_within (offset s) (shape s) (offset r) (shape r) = true /\
  RoiOps.contains s r = true.
Proof.
  intros [Hd Hnn] Hf Hs.
  apply scale_roi_Ok_inv in Hs as (_ & Hfit & ->).
  pose proof (factor_list_length _ _ Hfit) as Hlen.
  pose proof (factor_list_at_least_one f (RoiOps.dims r) Hf) as Hks.
  unfold RoiOps.dims, Coordinate.dims, roi_dims_ok in *.
  assert (Hbox : RoiOps.box_within
                   (offset (scale_roi_closed r (factor_list f (length (offset r)))))
                   (shape (scale_roi_closed r (factor_list f (length (offset r)))))
                   (offset r) (shape r) = true).
  { simpl. by apply closed_covers. }
  split; [| split; [done | by apply box_within_contains]].
  split.
  - unfold roi_dims_ok; simpl.
    rewrite closed_offset_length by done. rewrite length_zip_with. lia.
  - simpl. by apply scaled_shape_wf.
Qed.

Lemma scale_roi_covers_request_witness :
  wf_roi (Examples.cube (-2) 8) /\
  RoiOps.box_within (offset (Examples.cube (-2) 8)) (shape (Examples.cube (-2) 8))
    (offset (Examples.cube 0 4)) (shape (Examples.cube 0 4)) = true /\
  RoiOps.contains (Examples.cube (-2) 8) (Examples.cube 0 4) = true.
Proof.
  apply (scale_roi_covers_request (Examples.cube 0 4) (Examples.cube (-2) 8) (Uniform 2)).
  - split; [reflexivity |]. simpl. repeat constructor; lia.
  - simpl. lia.
  - reflexivity.
Defined.

Lemma closed_identity (o s : list Z) :
  length o = length s ->
  zip_with (fun os k => scaled_offset os.1 os.2 k) (zip o s) (replicate (length o) 1) = o /\
  zip_with Z.mul s (replicate (length o) 1) = s.
Proof.
  revert s. induction o as [| a o IH]; intros [| n s]; simpl; try done.
  intros [= Hlen]. destruct (IH s Hlen) as [-> ->].
  unfold scaled_offset. rewrite !Z.mul_1_r. split; f_equal; lia.
Qed.

Lemma closed_compose (o s ks ls : list Z) :
  length o = length s -> length ks = length o -> length ls = length o ->
  zip_with (fun os k => scaled_offset os.1 os.2 k)
    (zip (zip_with (fun os k => scaled_offset os.1 os.2 k) (zip o s) ks)
         (zip_with Z.mul s ks)) ls
  = zip_with (fun os k => scaled_offset os.1 os.2 k) (zip o s) (zip_with Z.mul ks ls) /\
  zip_with Z.mul (zip_with Z.mul s ks) ls = zip_with Z.mul s (zip_with Z.mul ks ls).
Proof.
  revert s ks ls.
  induction o as [| a o IH]; intros [| n s] [| k ks] [| l ls]; simpl; try done.
  intros [= Hs] [= Hk] [= Hl]. destruct (IH s ks ls Hs Hk Hl) as [-> ->].
  unfold scaled_offset; simpl. rewrite !Z.mul_assoc. split; f_equal; lia.
Qed.

Lemma factor_compose_fits (f g : factor) (n : nat) :
  factor_fits f n -> factor_fits g n -> factor_fits (factor_compose f g) n.
Proof.
  destruct f as [a | ks], g as [b | ls]; simpl; try done.
  - intros _ <-. apply length_map.
  - intros <- _. apply length_map.
  - intros <- Hl. rewrite length_zip_with. lia.
Qed.

Lemma factor_compose_list (f g : factor) (n : nat) :
  factor_fits f n -> factor_fits g n ->
  factor_list (factor_compose f g) n = zip_with Z.mul (factor_list f n) (factor_list g n).
Proof.
  destruct f as [a | ks], g as [b | ls]; simpl.
  - intros _ _. induction n as [| n IH]; simpl; [done | by rewrite IH].
  - intros _ <-. induction ls as [| l ls IH]; simpl; [done | by rewrite IH].
  - intros <- _. induction ks as [| k ks IH]; simpl; [done | by rewrite IH].
  - done.
Qed.

(** X4.  [__scale_roi] with factor 1 gives the ROI back, and scaling by
    [f] and then by [g] is scaling by the product of [f] and [g]: two
    downsampling nodes in a row ask upstream for the window that one node
    with the product factor asks for. *)
Theorem scale_roi_one_and_product (r : Roi) :
  (roi_dims_ok r -> scale_roi r (Uniform 1) = Ok r) /\
  (forall f g s t,
     scale_roi r f = Ok s -> scale_roi s g = Ok t ->
     scale_roi r (factor_compose f g) = Ok t).
Proof.
  split.
  - intros Hd. rewrite scale_roi_closed_form by done.
    destruct r as [o s]. unfold roi_dims_ok, RoiOps.dims, Coordinate.dims in *.
    simpl in *. unfold scale_roi_closed; simpl.
    destruct (closed_identity o s Hd) as [-> Hsh]. by rewrite Hsh.
  - intros f g s t Hs Ht.
    apply scale_roi_Ok_inv in Hs as (Hd & Hf & ->).
    apply scale_roi_Ok_inv in Ht as (_ & Hg & ->).
    destruct r as [o sh]. unfold roi_dims_ok, RoiOps.dims, Coordinate.dims in *.
    simpl in *.
    pose proof (factor_list_length _ _ Hf) as Hlf.
    rewrite closed_offset_length in Hg by done.
    rewrite closed_offset_length by done.
    pose proof (factor_list_length _ _ Hg) as Hlg.
    rewrite scale_roi_closed_form;
      [| done | by apply factor_compose_fits].
    unfold scale_roi_closed, RoiOps.dims, Coordinate.dims; simpl.
    rewrite factor_compose_list by done.
    destruct (closed_compose o sh (factor_list f (length o)) (factor_list g (length o))
                Hd Hlf Hlg) as [-> ->].
    done.
Qed.

Lemma scale_roi_one_and_product_witness :
  scale_roi (Examples.cube 0 4) (Uniform 1) = Ok (Examples.cube 0 4) /\
  scale_roi (Examples.cube 0 4) (factor_compose (Uniform 2) (PerAxis [1; 2; 3]))
  = Ok (mkRoi [-2; -6; -10] [8; 16; 24]).
Proof.
  split.
  - apply (proj1 (scale_roi_one_and_product (Examples.cube 0 4))). reflexivity.
  - apply (proj2 (scale_roi_one_and_product (Examples.cube 0 4))
             (Uniform 2) (PerAxis [1; 2; 3]) (Examples.cube (-2) 8));
      reflexivity.
Defined.

(** ** [prepare]: what it leaves alone and what it asks for *)

(** A property of the state that every successful iteration keeps holds
    of the state the loop leaves, ended or raised. *)
Lemma for_items_invariant {S} (P : S -> Prop) (body : S -> item -> result S)
    (items : list item) (s : S) :
  P s ->
  (forall s1 s2 it, it ∈ items -> P s1 -> body s1 it = Ok s2 -> P s2) ->
  P (state_of (for_items body items s)).
Proof.
  revert s. induction items as [| it items IH]; intros s Hs Hstep; [done |].
  simpl. destruct (body s it) as [s' | e] eqn:Hbody; [| done].
  apply IH.
  - apply (Hstep s s' it); [apply elem_of_cons; by left | done | done].
  - intros s1 s2 it' Hin. apply Hstep. apply elem_of_cons. by right.
Qed.

(** X5.  [prepare] changes the request only at the input and output types
    of its configuration: the entry of any other type is, after the call,
    what it was before, whether the call returned or raised. *)
Theorem prepare_leaves_other_keys (self : DownSample) (request : Request)
    (k : VolumeType) :
  not_configured (volume_factors self) k ->
  state_of (prepare self request) !! k = request !! k.
Proof.
  intros Hk. unfold prepare.
  apply (for_items_invariant (fun m : Request => m !! k = request !! k)); [done |].
  intros s1 s2 it Hin Hs1 Hstep.
  pose proof (proj1 (Forall_forall _ _) Hk it Hin) as [Hi Ho].
  by rewrite (prepare_pair_other s1 s2 it k Hstep Hi Ho).
Qed.

Lemma prepare_leaves_other_keys_witness :
  state_of (prepare Examples.half_node
              (<[MoreExamples.D := Examples.cube 1 3]> Examples.half_request))
    !! MoreExamples.D
  = (<[MoreExamples.D := Examples.cube 1 3]> Examples.half_request) !! MoreExamples.D.
Proof.
  apply (prepare_leaves_other_keys Examples.half_node).
  repeat constructor; discriminate.
Defined.

(** X6.  After a [prepare] that returned, no output type of the
    configuration is a key of the request, provided no pair's output type
    is the input type of another pair: upstream is never asked for a type
    that this node makes. *)
Theorem prepare_removes_outputs (entries : list item) (self : DownSample)
    (request request' : Request) :
  DownSample_init entries = Ok self ->
  no_feeding (volume_factors self) ->
  prepare self request = Done request' ->
  forall it, it ∈ volume_factors self -> request' !! item_output it = None.
Proof.
  intros Hinit Hnf H it Hit. apply init_valid in Hinit as [Hnd _].
  pose proof (prepare_outputs_gone _ _ _ Hnd Hnf H) as Hall.
  by apply (proj1 (Forall_forall _ _) Hall it Hit).
Qed.

Lemma prepare_removes_outputs_witness :
  ({[ Examples.A := Examples.cube (-2) 8 ]} : Request) !! Examples.B = None.
Proof.
  apply (prepare_removes_outputs [(Examples.A, (Uniform 2, Examples.B))]
           Examples.half_node Examples.half_request
           {[ Examples.A := Examples.cube (-2) 8 ]}
           half_node_init half_node_no_feeding)
    with (it := (Examples.A, (Uniform 2, Examples.B))).
  - vm_compute. reflexivity.
  - simpl. apply list_elem_of_singleton. reflexivity.
Defined.

Lemma process_noop {elt} (items : list item) (request : Request) (batch : Batch elt) :
  Forall (fun q => request !! item_output q = None) items ->
  for_items (process_pair request) items batch = Done batch.
Proof.
  induction items as [| [i [f o]] items IH]; [done |].
  intros Hall. apply Forall_cons in Hall as [Ho Hall].
  change (item_output (i, (f, o))) with o in Ho.
  cbn [for_items]. rewrite (process_pair_absent request batch i f o Ho). by apply IH.
Qed.

(** X7.  A request that names no output type of the configuration passes
    through: [prepare] returns it unchanged, and [process] makes no
    volume and goes straight to restoring the inputs. *)
Theorem unrequested_outputs_pass_through {elt} (self : DownSample)
    (request : Request) (batch : Batch elt) :
  Forall (fun q => request !! item_output q = None) (volume_factors self) ->
  prepare self request = Done request /\
  process self batch request
  = for_items (restore_pair request) (volume_factors self) batch.
Proof.
  intros Hall. split.
  - by apply prepare_noop.
  - unfold process. by rewrite process_noop.
Qed.

Lemma unrequested_outputs_pass_through_witness :
  prepare Examples.half_node MoreExamples.other_request = Done MoreExamples.other_request /\
  process Examples.half_node Examples.wide_batch MoreExamples.other_request
  = for_items (restore_pair MoreExamples.other_request)
      (volume_factors Examples.half_node) Examples.wide_batch.
Proof.
  apply (unrequested_outputs_pass_through Examples.half_node).
  repeat constructor.
Defined.

Lemma box_within_refl (o s : list Z) :
  length o = length s -> RoiOps.box_within o s o s = true.
Proof.
  revert s. induction o as [| a o IH]; intros [| n s]; simpl; try done.
  intros [= Hlen]. rewrite IH by done.
  rewrite andb_true_r. apply andb_true_iff. split; apply Z.leb_le; lia.
Qed.

(** Around a pair whose input and output types no other pair uses, the
    other pairs leave both types alone. *)
Lemma separated_around (pre post : list item) (i o : VolumeType) (f : factor) :
  NoDup (map item_input (pre ++ (i, (f, o)) :: post)) ->
  NoDup (map item_output (pre ++ (i, (f, o)) :: post)) ->
  Forall (fun q => item_output q <> i /\ item_input q <> o) (pre ++ (i, (f, o)) :: post) ->
  not_configured pre i /\ not_configured pre o /\
  not_configured post i /\ not_configured post o /\ i <> o.
Proof.
  intros Hndi Hndo Hsep.
  rewrite !fmap_app, !fmap_cons in Hndi, Hndo.
  apply NoDup_app in Hndi as (_ & Hdi & Hndi). apply NoDup_cons in Hndi as [Hdi' _].
  apply NoDup_app in Hndo as (_ & Hdo & Hndo). apply NoDup_cons in Hndo as [Hdo' _].
  apply Forall_app in Hsep as [Hsep_pre Hsep_post].
  apply Forall_cons in Hsep_post as [[Hoi _] Hsep_post].
  change (item_output (i, (f, o))) with o in *.
  change (item_input (i, (f, o))) with i in *.
  assert (Hpre : forall q, q ∈ pre ->
            i <> item_input q /\ i <> item_output q /\
            o <> item_input q /\ o <> item_output q).
  { intros q Hq.
    pose proof (proj1 (Forall_forall _ _) Hsep_pre q Hq) as [Hq1 Hq2].
    assert (Hqi : item_input q ∈ item_input <$> pre) by (by apply list_elem_of_fmap_2).
    assert (Hqo : item_output q ∈ item_output <$> pre) by (by apply list_elem_of_fmap_2).
    pose proof (Hdi _ Hqi) as Hni. pose proof (Hdo _ Hqo) as Hno.
    rewrite elem_of_cons in Hni, Hno. naive_solver. }
  assert (Hpost : forall q, q ∈ post ->
            i <> item_input q /\ i <> item_output q /\
            o <> item_input q /\ o <> item_output q).
  { intros q Hq.
    pose proof (proj1 (Forall_forall _ _) Hsep_post q Hq) as [Hq1 Hq2].
    assert (Hqi : item_input q ∈ item_input <$> post) by (by apply list_elem_of_fmap_2).
    assert (Hqo : item_output q ∈ item_output <$> post) by (by apply list_elem_of_fmap_2).
    repeat split; try done; intros Heq; [apply Hdi' | apply Hdo']; by rewrite Heq. }
  unfold not_configured.
  repeat split; try (apply Forall_forall; intros q Hq); try done.
  - by destruct (Hpre q Hq) as (? & ? & ? & ?).
  - by destruct (Hpre q Hq) as (? & ? & ? & ?).
  - by destruct (Hpost q Hq) as (? & ? & ? & ?).
  - by destruct (Hpost q Hq) as (? & ? & ? & ?).
Qed.

(** The entry that [prepare] leaves for the input type of such a pair. *)
Lemma prepare_entry (self : DownSample) (i o : VolumeType) (f : factor)
    (request request' : Request) (r s : Roi) :
  valid_items (volume_factors self) ->
  (i, (f, o)) ∈ volume_factors self ->
  Forall (fun q => item_output q <> i /\ item_input q <> o) (volume_factors self) ->
  request !! o = Some r -> scale_roi r f = Ok s ->
  prepare self request = Done request' ->
  request' !! o = None /\
  exists x, request' !! i = Some x /\
            match request !! i with
            | Some e => RoiOps.union e s = Ok x
            | None => x = s
            end.
Proof.
  intros [Hndi Hndo] Hin Hsep Ho Hs H. unfold prepare in H.
  apply list_elem_of_split in Hin as (pre & post & Hvf). rewrite Hvf in *.
  destruct (separated_around pre post i o f Hndi Hndo Hsep)
    as (Hpre_i & Hpre_o & Hpost_i & Hpost_o & Hio).
  rewrite for_items_app in H.
  destruct (for_items prepare_pair pre request) as [req_k | ?] eqn:Hpre; [| discriminate].
  apply for_items_Done_cons in H as (r1 & H1 & H).
  pose proof (prepare_other pre request req_k i Hpre Hpre_i) as Hi_k.
  pose proof (prepare_other pre request req_k o Hpre Hpre_o) as Ho_k.
  rewrite Ho in Ho_k.
  apply prepare_pair_inv in H1 as [[Habs _] | (r' & s' & x & Hr' & Hs' & -> & Hx)];
    [congruence |].
  rewrite Ho_k in Hr'. injection Hr' as <-. rewrite Hs in Hs'. injection Hs' as <-.
  rewrite Hi_k in Hx.
  split.
  - rewrite (prepare_other post _ request' o H Hpost_o). apply lookup_delete_eq.
  - exists x. split; [| done].
    rewrite (prepare_other post _ request' i H Hpost_i).
    rewrite lookup_delete_ne by done. apply lookup_insert_eq.
Qed.

(** X8.  For a pair whose input and output types no other pair uses and
    whose output type is requested, the entry that [prepare] leaves for
    the input type contains the window that [process] will cut out,
    [__scale_roi] of the requested ROI, and contains the entry the
    request had for the input type, if it had one. *)
Theorem prepare_requests_enough (entries : list item) (self : DownSample)
    (i o : VolumeType) (f : factor) (request request' : Request) (r s : Roi) :
  DownSample_init entries = Ok self ->
  (i, (f, o)) ∈ volume_factors self ->
  Forall (fun q => item_output q <> i /\ item_input q <> o) (volume_factors self) ->
  request !! o = Some r -> scale_roi r f = Ok s ->
  prepare self request = Done request' ->
  exists x, request' !! i = Some x /\
            RoiOps.contains x s = true /\
            (forall e, request !! i = Some e -> RoiOps.contains x e = true).
Proof.
  intros Hinit Hin Hsep Ho Hs H. apply init_valid in Hinit.
  destruct (prepare_entry self i o f request request' r s Hinit Hin Hsep Ho Hs H)
    as (_ & x & Hx & Hcase).
  exists x. split; [done |].
  destruct (request !! i) as [e |] eqn:Hi.
  - destruct (union_contains e s x Hcase) as [He Hs']. split; [done |].
    by intros e' [= <-].
  - subst x. split; [| done].
    apply box_within_contains, box_within_refl.
    apply scale_roi_Ok_inv in Hs as (Hd & Hf & ->). simpl.
    rewrite closed_offset_length; [| done | by apply factor_list_length].
    rewrite length_zip_with.
    pose proof (factor_list_length _ _ Hf) as Hlen.
    unfold RoiOps.dims, Coordinate.dims, roi_dims_ok in *. lia.
Qed.

Lemma prepare_requests_enough_witness :
  exists x, ({[ Examples.A := Examples.cube (-2) 11 ]} : Request) !! Examples.A = Some x /\
            RoiOps.contains x (Examples.cube (-2) 8) = true /\
            (forall e, Examples.merge_request !! Examples.A = Some e ->
                       RoiOps.contains x e = true).
Proof.
  apply (prepare_requests_enough [(Examples.A, (Uniform 2, Examples.B))]
           Examples.half_node Examples.A Examples.B (Uniform 2)
           Examples.merge_request {[ Examples.A := Examples.cube (-2) 11 ]}
           (Examples.cube 0 4) (Examples.cube (-2) 8)).
  - reflexivity.
  - simpl. apply list_elem_of_singleton. reflexivity.
  - simpl. repeat constructor; discriminate.
  - vm_compute. reflexivity.
  - reflexivity.
  - vm_compute. reflexivity.
Defined.

(** ** [process]: what it leaves alone, how it restores, how it fails *)

Section ProcessMore.
Context {elt : Type}.

Lemma process_pair_inv (request : Request) (batch batch' : Batch elt) i f o :
  process_pair request batch (i, (f, o)) = Ok batch' ->
  (request !! o = None /\ batch' = batch) \/
  (exists r vnew, request !! o = Some r /\ roi vnew = r /\
                  batch' = <[o := vnew]> batch).
Proof.
  unfold process_pair. destruct (request !! o) as [r |] eqn:Ho.
  - intros H. right. apply bind_Ok in H as (s & _ & H).
    apply bind_Ok in H as (v & _ & H). apply bind_Ok in H as ([] & _ & H).
    apply bind_Ok in H as (w & _ & H). apply bind_Ok in H as (c & _ & H).
    apply bind_Ok in H as (d & _ & H). apply bind_Ok in H as ([] & _ & H).
    apply bind_Ok in H as (res & _ & H). injection H as <-.
    by exists r, (mkVolume d r res).
  - intros [= <-]. by left.
Qed.

Lemma process_pair_other (request : Request) (batch batch' : Batch elt) it k :
  process_pair request batch it = Ok batch' ->
  k <> item_output it -> batch' !! k = batch !! k.
Proof.
  destruct it as [i [f o]]. intros H Hk. change (item_output (i, (f, o))) with o in Hk.
  apply process_pair_inv in H as [[_ ->] | (r & vnew & _ & _ & ->)]; [done |].
  by rewrite lookup_insert_ne.
Qed.

Lemma restore_pair_other (request : Request) (batch batch' : Batch elt) it k :
  restore_pair request batch it = Ok batch' ->
  k <> item_input it -> batch' !! k = batch !! k.
Proof.
  destruct it as [i fo]. intros H Hk. change (item_input (i, fo)) with i in Hk.
  apply restore_pair_inv in H
    as [[_ ->] | (v & rr & Hi & Hr & [[_ ->] | (d & ->)])]; [done | done |].
  by rewrite lookup_insert_ne.
Qed.

(** The restore loop at the turn of one item. *)
Lemma restore_loop_at (self : DownSample) pre it post (request : Request)
    (batch b1 b2 : Batch elt) :
  volume_factors self = pre ++ it :: post ->
  for_items (process_pair request) (volume_factors self) batch = Done b1 ->
  for_items (restore_pair request) pre b1 = Done b2 ->
  process self batch request =
  match restore_pair request b2 it with
  | Ok b3 => for_items (restore_pair request) post b3
  | Err e => Raised e b2
  end.
Proof.
  intros Hvf H1 H2. unfold process. rewrite H1, Hvf, for_items_app, H2. done.
Qed.

Lemma restore_noop (request : Request) (items : list item) (batch : Batch elt) :
  Forall (fun it => forall v, batch !! item_input it = Some v ->
                      request !! item_input it = Some (roi v)) items ->
  for_items (restore_pair request) items batch = Done batch.
Proof.
  induction items as [| [i fo] items IH]; [done |].
  intros Hall. apply Forall_cons in Hall as [Hi Hall].
  change (item_input (i, fo)) with i in Hi.
  cbn [for_items]. unfold restore_pair, getkey.
  destruct (batch !! i) as [v |] eqn:Hv; [| by apply IH].
  rewrite (Hi v eq_refl). cbn [bind].
  rewrite bool_decide_eq_false_2 by (intros Hne; by apply Hne).
  by apply IH.
Qed.

End ProcessMore.

Lemma reindex_crop (ws us idx : list Z) :
  length ws = length idx -> length us = length idx ->
  reindex (zip_with (fun w u => (w, 1, u)) ws us) idx = zip_with Z.add ws idx.
Proof.
  revert ws us. induction idx as [| x idx IH]; intros [| w ws] [| u us]; simpl; try done.
  intros [= Hw] [= Hu]. rewrite IH by done. f_equal. lia.
Qed.

(** One restore step on a well-formed volume that covers the requested
    ROI and has another ROI. *)
Lemma restore_step {elt} (request : Request) (batch : Batch elt)
    (i : VolumeType) (fo : factor * VolumeType) (v : Volume elt) (rr : Roi) :
  batch !! i = Some v -> request !! i = Some rr -> roi v <> rr ->
  wf_volume v -> Forall (fun u => 0 <= u) (shape rr) ->
  RoiOps.box_within (offset (roi v)) (shape (roi v)) (offset rr) (shape rr) = true ->
  exists cropped,
    restore_pair request batch (i, fo)
      = Ok (<[i := mkVolume cropped rr (resolution v)]> batch) /\
    nd_shape cropped = shape rr /\
    forall idx, length idx = RoiOps.dims rr ->
      nd_at cropped idx
      = nd_at (data v) (zip_with Z.add (zip_with Z.sub (offset rr) (offset (roi v))) idx).
Proof.
  intros Hi Hr Hne [Hwf Hdata] Hnn Hbox.
  pose proof (box_within_lengths _ _ _ _ Hbox) as (Hl1 & Hl2 & Hl3).
  assert (Hbox' : RoiOps.box_within (offset (roi v)) (nd_shape (data v))
                    (offset rr) (shape rr) = true) by (by rewrite Hdata).
  pose proof (getitem_crop (data v) _ _ _ Hbox' Hnn) as Hcrop.
  eexists. split; [| split].
  - unfold restore_pair, getkey. rewrite Hi, Hr. cbn [bind].
    rewrite bool_decide_eq_true_2 by done.
    rewrite (box_within_contains _ _ Hbox). cbn [guard bind].
    unfold RoiOps.sub, Coordinate.sub, RoiOps.get_begin.
    rewrite same_dims_true by done. cbn [bind].
    rewrite Hcrop. cbn [bind]. reflexivity.
  - done.
  - intros idx Hidx. unfold RoiOps.dims, Coordinate.dims in Hidx. cbn [nd_at].
    rewrite reindex_crop; [done | rewrite length_zip_with; lia | lia].
Qed.

(** X9.  [process] never removes a key from the batch and changes it only
    at the input and output types of its configuration, whether it
    returned or raised. *)
Theorem process_leaves_other_keys {elt} (self : DownSample) (batch : Batch elt)
    (request : Request) (k : VolumeType) :
  (is_Some (batch !! k) -> is_Some (state_of (process self batch request) !! k)) /\
  (not_configured (volume_factors self) k ->
   state_of (process self batch request) !! k = batch !! k).
Proof.
  unfold process. split.
  - intros Hk.
    pose proof (for_items_invariant (fun b : Batch elt => is_Some (b !! k))
                  (process_pair request) (volume_factors self) batch Hk
                  (fun s1 s2 it _ Hs1 Hstep =>
                     process_pair_keeps request s1 s2 it k Hstep Hs1)) as H1.
    destruct (for_items (process_pair request) (volume_factors self) batch)
      as [b1 | e b1]; [| done].
    apply (for_items_invariant (fun b : Batch elt => is_Some (b !! k))); [done |].
    intros s1 s2 it _ Hs1 Hstep. by apply (restore_pair_keeps request s1 s2 it k).
  - intros Hk.
    assert (H1 : state_of (for_items (process_pair request) (volume_factors self) batch)
                 !! k = batch !! k).
    { apply (for_items_invariant (fun b : Batch elt => b !! k = batch !! k)); [done |].
      intros s1 s2 it Hin Hs1 Hstep.
      pose proof (proj1 (Forall_forall _ _) Hk it Hin) as [_ Ho].
      by rewrite (process_pair_other request s1 s2 it k Hstep Ho). }
    destruct (for_items (process_pair request) (volume_factors self) batch)
      as [b1 | e b1]; [| done].
    simpl in H1. rewrite <- H1.
    apply (for_items_invariant (fun b : Batch elt => b !! k = b1 !! k)); [done |].
    intros s1 s2 it Hin Hs1 Hstep.
    pose proof (proj1 (Forall_forall _ _) Hk it Hin) as [Hi _].
    by rewrite (restore_pair_other request s1 s2 it k Hstep Hi).
Qed.

Lemma process_leaves_other_keys_witness :
  is_Some (state_of (process Examples.half_node Examples.wide_batch Examples.both_request)
             !! Examples.A) /\
  state_of (process Examples.half_node Examples.wide_batch Examples.both_request)
    !! MoreExamples.D
  = Examples.wide_batch !! MoreExamples.D.
Proof.
  split.
  - apply (proj1 (process_leaves_other_keys Examples.half_node Examples.wide_batch
                    Examples.both_request Examples.A)).
    vm_compute. eauto.
  - apply (proj2 (process_leaves_other_keys Examples.half_node Examples.wide_batch
                    Examples.both_request MoreExamples.D)).
    repeat constructor; discriminate.
Defined.

(** X10.  In the restore loop, an input volume that is well formed,
    covers the ROI requested for its type and has another ROI is replaced
    by a volume with the requested ROI and the same resolution, whose
    array has the shape of that ROI and holds at [x] the cell
    [x + (requested begin - volume begin)] of the old array; the loop goes
    on with the pairs that follow. *)
Theorem process_restore_crops {elt} (self : DownSample) (pre post : list item)
    (i : VolumeType) (fo : factor * VolumeType) (request : Request)
    (batch b1 b2 : Batch elt) (v : Volume elt) (rr : Roi) :
  volume_factors self = pre ++ (i, fo) :: post ->
  for_items (process_pair request) (volume_factors self) batch = Done b1 ->
  for_items (restore_pair request) pre b1 = Done b2 ->
  b2 !! i = Some v -> request !! i = Some rr -> roi v <> rr ->
  wf_volume v -> Forall (fun u => 0 <= u) (shape rr) ->
  RoiOps.box_within (offset (roi v)) (shape (roi v)) (offset rr) (shape rr) = true ->
  exists cropped,
    process self batch request
      = for_items (restore_pair request) post
          (<[i := mkVolume cropped rr (resolution v)]> b2) /\
    nd_shape cropped = shape rr /\
    forall idx, length idx = RoiOps.dims rr ->
      nd_at cropped idx
      = nd_at (data v) (zip_with Z.add (zip_with Z.sub (offset rr) (offset (roi v))) idx).
Proof.
  intros Hvf H1 H2 Hi Hr Hne Hwf Hnn Hbox.
  destruct (restore_step request b2 i fo v rr Hi Hr Hne Hwf Hnn Hbox)
    as (cropped & Hstep & Hshape & Hcells).
  exists cropped. split; [| done].
  by rewrite (restore_loop_at self pre (i, fo) post request batch b1 b2 Hvf H1 H2), Hstep.
Qed.

Lemma process_restore_crops_witness :
  exists cropped,
    process Examples.half_node Examples.wide_batch MoreExamples.input_request
      = for_items (restore_pair MoreExamples.input_request) []
          (<[Examples.A := mkVolume cropped (Examples.cube 0 4) [4; 4; 40]]>
             Examples.wide_batch) /\
    nd_shape cropped = [4; 4; 4] /\
    forall idx, length idx = 3%nat ->
      nd_at cropped idx = nd_at (Examples.index_array 10) (zip_with Z.add [3; 3; 3] idx).
Proof.
  apply (process_restore_crops Examples.half_node [] [] Examples.A (Uniform 2, Examples.B)
           MoreExamples.input_request
           Examples.wide_batch Examples.wide_batch Examples.wide_batch
           (mkVolume (Examples.index_array 10) (Examples.cube (-3) 10) [4; 4; 40])
           (Examples.cube 0 4)).
  - reflexivity.
  - reflexivity.
  - reflexivity.
  - reflexivity.
  - reflexivity.
  - discriminate.
  - split; [split; [reflexivity |] | reflexivity]. simpl. repeat constructor; lia.
  - simpl. repeat constructor; lia.
  - reflexivity.
Defined.

(** X11.  In the restore loop, an input volume whose ROI differs from the
    ROI requested for its type and does not contain it makes [process]
    raise ContainmentViolation; the batch then holds the volumes made by
    the downsampling loop and the inputs restored so far. *)
Theorem process_restore_violation {elt} (self : DownSample) (pre post : list item)
    (i : VolumeType) (fo : factor * VolumeType) (request : Request)
    (batch b1 b2 : Batch elt) (v : Volume elt) (rr : Roi) :
  volume_factors self = pre ++ (i, fo) :: post ->
  for_items (process_pair request) (volume_factors self) batch = Done b1 ->
  for_items (restore_pair request) pre b1 = Done b2 ->
  b2 !! i = Some v -> request !! i = Some rr -> roi v <> rr ->
  RoiOps.contains (roi v) rr = false ->
  process self batch request = Raised ContainmentViolation b2.
Proof.
  intros Hvf H1 H2 Hi Hr Hne Hc.
  rewrite (restore_loop_at self pre (i, fo) post request batch b1 b2 Hvf H1 H2).
  unfold restore_pair, getkey. rewrite Hi, Hr. cbn [bind].
  rewrite bool_decide_eq_true_2 by done. by rewrite Hc.
Qed.

Lemma process_restore_violation_witness :
  exists b2 : Batch (list Z),
    process Examples.half_node Examples.wide_batch MoreExamples.far_request
    = Raised ContainmentViolation b2 /\ is_Some (b2 !! Examples.B).
Proof.
  eexists. split.
  - eapply (process_restore_violation Examples.half_node [] [] Examples.A
              (Uniform 2, Examples.B) MoreExamples.far_request Examples.wide_batch _ _
              (mkVolume (Examples.index_array 10) (Examples.cube (-3) 10) [4; 4; 40])
              (Examples.cube 20 4)).
    + reflexivity.
    + reflexivity.
    + reflexivity.
    + reflexivity.
    + reflexivity.
    + discriminate.
    + reflexivity.
  - vm_compute. eauto.
Defined.

(** X12.  When a pair's turn comes in the downsampling loop, its output
    type is requested and the batch holds no volume of its input type,
    [process] raises KeyError for the input type and leaves the batch as
    the pairs before left it. *)
Theorem process_input_missing {elt} (self : DownSample) (pre post : list item)
    (i o : VolumeType) (f : factor) (request : Request)
    (batch b1 : Batch elt) (r s : Roi) :
  volume_factors self = pre ++ (i, (f, o)) :: post ->
  for_items (process_pair request) pre batch = Done b1 ->
  request !! o = Some r -> scale_roi r f = Ok s -> b1 !! i = None ->
  process self batch request = Raised (KeyError i) b1.
Proof.
  intros Hvf Hpre Ho Hs Hi.
  apply (process_raises_in_first_loop self pre (i, (f, o)) post request batch b1);
    [done | done |].
  unfold process_pair, getkey. rewrite Ho, Hs. cbn [bind]. by rewrite Hi.
Qed.

Lemma process_input_missing_witness :
  process Examples.half_node MoreExamples.empty_batch Examples.half_request
  = Raised (KeyError Examples.A) MoreExamples.empty_batch.
Proof.
  apply (process_input_missing Examples.half_node [] [] Examples.A Examples.B (Uniform 2)
           Examples.half_request MoreExamples.empty_batch MoreExamples.empty_batch
           (Examples.cube 0 4) (Examples.cube (-2) 8));
    reflexivity.
Defined.

(** X13.  The batch that [process] returns is a fixed point of the
    restore loop: restoring once more against the same request changes
    nothing and raises nothing. *)
Theorem process_restore_idempotent {elt} (self : DownSample)
    (batch batch' : Batch elt) (request : Request) :
  process self batch request = Done batch' ->
  for_items (restore_pair request) (volume_factors self) batch' = Done batch'.
Proof.
  intros H. apply process_Done_inv in H as (b1 & _ & H).
  apply restore_noop. by apply (restore_loop request _ b1 batch').
Qed.

Lemma process_restore_idempotent_witness :
  exists batch' : Batch (list Z),
    process Examples.half_node Examples.wide_batch Examples.both_request = Done batch' /\
    for_items (restore_pair Examples.both_request)
      (volume_factors Examples.half_node) batch' = Done batch'.
Proof.
  eexists. split; [reflexivity |].
  apply (process_restore_idempotent Examples.half_node Examples.wide_batch _
           Examples.both_request eq_refl).
Defined.

(** ** [prepare] and [process] together *)

Lemma union_defined (e s : Roi) :
  roi_dims_ok e -> roi_dims_ok s -> RoiOps.dims e = RoiOps.dims s ->
  RoiOps.union e s
  = Ok (mkRoi (zip_with Z.min (offset e) (offset s))
          (zip_with Z.sub
             (zip_with Z.max (zip_with Z.add (offset e) (shape e))
                             (zip_with Z.add (offset s) (shape s)))
             (zip_with Z.min (offset e) (offset s)))).
Proof.
  unfold roi_dims_ok, RoiOps.dims, Coordinate.dims. intros He Hs Hes.
  unfold RoiOps.union. rewrite !same_dims_true by lia. done.
Qed.

(** X14.  A node with the one pair [input: (f, output)], a request that
    names both types with well-formed ROIs of the same dimensionality, and
    a positive factor: [prepare] returns, putting the union [u] of the
    input's entry and the scaled output entry in place of the input's
    entry and removing the output's; and when upstream delivers a
    well-formed input volume on exactly [u], [process], called with the
    request as the consumer made it, returns a batch whose output volume
    has the requested output ROI and whose input volume has the requested
    input ROI, with arrays of the shapes of these ROIs. *)
Theorem negotiation_round_trip {elt} (i o : VolumeType) (f : factor)
    (request : Request) (batch : Batch elt) (r e : Roi) (v : Volume elt) :
  i <> o -> request !! o = Some r -> request !! i = Some e ->
  wf_roi r -> wf_roi e -> RoiOps.dims e = RoiOps.dims r ->
  factor_positive f -> factor_fits f (RoiOps.dims r) ->
  exists s u,
    scale_roi r f = Ok s /\ RoiOps.union e s = Ok u /\
    prepare (mkDownSample [(i, (f, o))] [o]) request
      = Done (delete o (<[i := u]> request)) /\
    (batch !! i = Some v -> wf_volume v -> roi v = u ->
     factor_fits f (length (resolution v)) ->
     exists batch' vo vi,
       process (mkDownSample [(i, (f, o))] [o]) batch request = Done batch' /\
       batch' !! o = Some vo /\ roi vo = r /\ nd_shape (data vo) = shape r /\
       batch' !! i = Some vi /\ roi vi = e /\ nd_shape (data vi) = shape e /\
       resolution vi = resolution v).
Proof.
  intros Hio Ho Hi Hr He Hdims Hfpos Hffit.
  pose proof Hr as [Hrd Hrn]. pose proof He as [Hed Hen].
  pose proof (scale_roi_closed_form r f Hrd Hffit) as Hs.
  set (s := scale_roi_closed r (factor_list f (RoiOps.dims r))) in *.
  pose proof (factor_list_length _ _ Hffit) as Hlen.
  assert (Hsd : roi_dims_ok s /\ RoiOps.dims s = RoiOps.dims r).
  { unfold roi_dims_ok, RoiOps.dims, Coordinate.dims in *. subst s; simpl.
    rewrite closed_offset_length by done. rewrite length_zip_with. lia. }
  destruct Hsd as [Hsd Hsr].
  assert (Hes : RoiOps.dims e = RoiOps.dims s) by congruence.
  pose proof (union_defined e s Hed Hsd Hes) as Hu.
  set (u := mkRoi (zip_with Z.min (offset e) (offset s))
              (zip_with Z.sub
                 (zip_with Z.max (zip_with Z.add (offset e) (shape e))
                                 (zip_with Z.add (offset s) (shape s)))
                 (zip_with Z.min (offset e) (offset s)))) in *.
  assert (Hboxes :
            RoiOps.box_within (offset u) (shape u) (offset e) (shape e) = true /\
            RoiOps.box_within (offset u) (shape u) (offset s) (shape s) = true).
  { unfold roi_dims_ok, RoiOps.dims, Coordinate.dims in *.
    apply (union_box_within (offset e) (shape e) (offset s) (shape s)); lia. }
  destruct Hboxes as [Hbox_e Hbox_s].
  exists s, u. split; [done |]. split; [done |]. split.
  - unfold prepare. cbn [volume_factors for_items].
    by rewrite (prepare_pair_merge request i f o r s e u Ho Hs Hi Hu).
  - intros Hv Hwf Hroi Hres.
    assert (Hbox_v : RoiOps.box_within (offset (roi v)) (shape (roi v))
                       (offset s) (shape s) = true) by (by rewrite Hroi).
    destruct (decimate_step i o f batch request r s v Ho Hr Hfpos Hffit Hv Hwf Hres
                Hs Hbox_v) as (strided & res & Hstep & _ & Hshape & _).
    set (vo := mkVolume strided r res) in *.
    assert (Hv1 : (<[o := vo]> batch) !! i = Some v)
      by (rewrite lookup_insert_ne; done).
    unfold process. cbn [volume_factors for_items]. rewrite Hstep.
    destruct (decide (roi v = e)) as [Heq | Hne].
    + exists (<[o := vo]> batch), vo, v.
      split.
      { unfold restore_pair, getkey. rewrite Hv1, Hi. cbn [bind].
        rewrite bool_decide_eq_false_2 by (intros Hn; by apply Hn). done. }
      split; [apply lookup_insert_eq |]. split; [done |]. split; [done |].
      split; [done |]. split; [done |]. split; [| done].
      destruct Hwf as [_ Hdata]. by rewrite Hdata, Heq.
    + assert (Hbox_ve : RoiOps.box_within (offset (roi v)) (shape (roi v))
                          (offset e) (shape e) = true) by (by rewrite Hroi).
      destruct (restore_step request (<[o := vo]> batch) i (f, o) v e
                  Hv1 Hi Hne Hwf Hen Hbox_ve) as (cropped & Hrest & Hcs & _).
      exists (<[i := mkVolume cropped e (resolution v)]> (<[o := vo]> batch)),
             vo, (mkVolume cropped e (resolution v)).
      split; [by rewrite Hrest |].
      split; [rewrite lookup_insert_ne by done; apply lookup_insert_eq |].
      split; [done |]. split; [done |].
      split; [apply lookup_insert_eq |]. done.
Qed.

Lemma negotiation_round_trip_witness :
  exists s u,
    scale_roi (Examples.cube 0 4) (Uniform 2) = Ok s /\
    RoiOps.union (Examples.cube 3 6) s = Ok u /\
    prepare Examples.half_node Examples.merge_request
      = Done (delete Examples.B (<[Examples.A := u]> Examples.merge_request)) /\
    exists (batch' : Batch (list Z)) vo vi,
      process Examples.half_node MoreExamples.merged_batch Examples.merge_request
        = Done batch' /\
      batch' !! Examples.B = Some vo /\ roi vo = Examples.cube 0 4 /\
      nd_shape (data vo) = [4; 4; 4] /\
      batch' !! Examples.A = Some vi /\ roi vi = Examples.cube 3 6 /\
      nd_shape (data vi) = [6; 6; 6] /\
      resolution vi = [4; 4; 40].
Proof.
  destruct (negotiation_round_trip Examples.A Examples.B (Uniform 2)
              Examples.merge_request MoreExamples.merged_batch
              (Examples.cube 0 4) (Examples.cube 3 6)
              (mkVolume (Examples.index_array 11) (Examples.cube (-2) 11) [4; 4; 40]))
    as (s & u & Hs & Hu & Hprep & Hproc).
  - discriminate.
  - reflexivity.
  - reflexivity.
  - split; [reflexivity |]. simpl. repeat constructor; lia.
  - split; [reflexivity |]. simpl. repeat constructor; lia.
  - reflexivity.
  - simpl. lia.
  - exact I.
  - exists s, u. split; [done |]. split; [done |]. split; [done |].
    apply Hproc.
    + reflexivity.
    + split; [split; [reflexivity |] | reflexivity]. simpl. repeat constructor; lia.
    + vm_compute in Hs. injection Hs as <-. vm_compute in Hu. by injection Hu as <-.
    + exact I.
Defined.

(** * [Train]: the fetches and the feeds *)

Section TrainFacts.
Context {ArrayKey : Type} `{Countable ArrayKey}.
Context {Tensor NdArray Attr : Type}.
Implicit Types (requested : ArrayKey -> bool) (tf_gradient : gmap string Tensor).
Implicit Types (arrays : gmap ArrayKey NdArray) (attrs : gmap string Attr).

Lemma collect_outputs_lookup (items : list (string * ArrayKey)) requested
    (acc : gmap ArrayKey (Train.fetch Tensor)) (k : ArrayKey) :
  (requested k = true /\ k ∈ map snd items /\
   exists name, (name, k) ∈ items /\
                Train.collect_outputs items requested acc !! k = Some (Train.FetchName name)) \/
  (~ (requested k = true /\ k ∈ map snd items) /\
   Train.collect_outputs items requested acc !! k = acc !! k).
Proof.
  revert acc. induction items as [| [name key] items IH]; intros acc.
  - right. split; [| done]. intros (_ & Hin). by apply elem_of_nil in Hin.
  - cbn [Train.collect_outputs map snd].
    destruct (requested key) eqn:Hreq.
    + destruct (IH (<[key := Train.FetchName name]> acc))
        as [(Hr & Hin & n & Hn & Hl) | [Hnot Hl]].
      * left. split; [done |]. split; [apply elem_of_cons; by right |].
        exists n. split; [apply elem_of_cons; by right | done].
      * destruct (decide (key = k)) as [-> | Hne].
        -- left. split; [done |]. split; [apply elem_of_cons; by left |].
           exists name. split; [apply elem_of_cons; by left |].
           rewrite Hl. apply lookup_insert_eq.
        -- right. split.
           ++ intros [Hr Hin]. apply Hnot. split; [done |].
              apply elem_of_cons in Hin as [-> | Hin]; done.
           ++ rewrite Hl. by apply lookup_insert_ne.
    + destruct (IH acc) as [(Hr & Hin & n & Hn & Hl) | [Hnot Hl]].
      * left. split; [done |]. split; [apply elem_of_cons; by right |].
        exists n. split; [apply elem_of_cons; by right | done].
      * right. split; [| done]. intros [Hr Hin]. apply Hnot. split; [done |].
        apply elem_of_cons in Hin as [-> | Hin]; [congruence | done].
Qed.

Lemma collect_gradients_lookup (items : list (string * ArrayKey)) requested tf_gradient
    (acc m : gmap ArrayKey (Train.fetch Tensor)) (k : ArrayKey) :
  Train.collect_gradients items requested tf_gradient acc = inr m ->
  (requested k = true /\ k ∈ map snd items /\
   exists name t, (name, k) ∈ items /\ tf_gradient !! name = Some t /\
                  m !! k = Some (Train.FetchTensor t)) \/
  (~ (requested k = true /\ k ∈ map snd items) /\ m !! k = acc !! k).
Proof.
  revert acc. induction items as [| [name key] items IH]; intros acc.
  - intros [= <-]. right. split; [| done]. intros (_ & Hin). by apply elem_of_nil in Hin.
  - cbn [Train.collect_gradients map snd].
    destruct (requested key) eqn:Hreq.
    + destruct (tf_gradient !! name) as [t |] eqn:Ht; [| discriminate].
      intros Hm.
      destruct (IH _ Hm) as [(Hr & Hin & n & t' & Hn & Ht' & Hl) | [Hnot Hl]].
      * left. split; [done |]. split; [apply elem_of_cons; by right |].
        exists n, t'. split; [apply elem_of_cons; by right | done].
      * destruct (decide (key = k)) as [-> | Hne].
        -- left. split; [done |]. split; [apply elem_of_cons; by left |].
           exists name, t. split; [apply elem_of_cons; by left |]. split; [done |].
           rewrite Hl. apply lookup_insert_eq.
        -- right. split.
           ++ intros [Hr Hin]. apply Hnot. split; [done |].
              apply elem_of_cons in Hin as [-> | Hin]; done.
           ++ rewrite Hl. by apply lookup_insert_ne.
    + intros Hm.
      destruct (IH _ Hm) as [(Hr & Hin & n & t' & Hn & Ht' & Hl) | [Hnot Hl]].
      * left. split; [done |]. split; [apply elem_of_cons; by right |].
        exists n, t'. split; [apply elem_of_cons; by right | done].
      * right. split; [| done]. intros [Hr Hin]. apply Hnot. split; [done |].
        apply elem_of_cons in Hin as [-> | Hin]; [congruence | done].
Qed.

(** X15.  The dict that [__collect_requested_outputs] returns has exactly
    the requested array keys among the values of [self.outputs] and
    [self.gradients] as its keys: nothing is fetched for a key that was
    not requested, and every requested output or gradient is fetched. *)
Theorem collect_requested_outputs_keys (outputs gradients : list (string * ArrayKey))
    tf_gradient requested (m : gmap ArrayKey (Train.fetch Tensor)) (k : ArrayKey) :
  Train.collect_requested_outputs outputs gradients tf_gradient requested = inr m ->
  is_Some (m !! k) <->
  requested k = true /\ (k ∈ map snd outputs \/ k ∈ map snd gradients).
Proof.
  unfold Train.collect_requested_outputs. intros Hm.
  destruct (collect_gradients_lookup gradients requested tf_gradient _ m k Hm)
    as [(Hr & Hin & n & t & _ & _ & Hl) | [Hnot Hl]].
  - rewrite Hl. split; [intros _; split; [done | by right] | eauto].
  - rewrite Hl.
    destruct (collect_outputs_lookup outputs requested ∅ k)
      as [(Hr & Hin & n & _ & Hl') | [Hnot' Hl']].
    + rewrite Hl'. split; [intros _; split; [done | by left] | eauto].
    + rewrite Hl', lookup_empty. split; [by intros [? ?] |].
      intros [Hr [Hin | Hin]]; [destruct Hnot' | destruct Hnot]; done.
Qed.

(** X16.  An array key that is requested and is the value of an entry of
    [self.gradients] is fetched as a gradient tensor of [self.tf_gradient],
    also when [self.outputs] has the key too; a requested key that only
    [self.outputs] has is fetched by the name of an output tensor. *)
Theorem collect_requested_outputs_gradient_first
    (outputs gradients : list (string * ArrayKey))
    tf_gradient requested (m : gmap ArrayKey (Train.fetch Tensor)) (k : ArrayKey) :
  Train.collect_requested_outputs outputs gradients tf_gradient requested = inr m ->
  requested k = true ->
  (k ∈ map snd gradients ->
   exists name t, (name, k) ∈ gradients /\ tf_gradient !! name = Some t /\
                  m !! k = Some (Train.FetchTensor t)) /\
  (k ∉ map snd gradients -> k ∈ map snd outputs ->
   exists name, (name, k) ∈ outputs /\ m !! k = Some (Train.FetchName name)).
Proof.
  unfold Train.collect_requested_outputs. intros Hm Hreq.
  destruct (collect_gradients_lookup gradients requested tf_gradient _ m k Hm)
    as [(Hr & Hin & n & t & Hn & Ht & Hl) | [Hnot Hl]].
  - split; [intros _; by exists n, t | done].
  - split; [intros Hin; destruct Hnot; done |].
    intros _ Hout. rewrite Hl.
    destruct (collect_outputs_lookup outputs requested ∅ k)
      as [(_ & _ & n & Hn & Hl') | [Hnot' _]].
    + by exists n.
    + destruct Hnot'. done.
Qed.

(** X17.  [__collect_requested_outputs] returns exactly when the name of
    every requested gradient is a key of [self.tf_gradient], as it is once
    [start] has run; otherwise it fails on the lookup of such a name. *)
Theorem collect_requested_outputs_returns_iff
    (outputs gradients : list (string * ArrayKey)) tf_gradient requested :
  (exists m, Train.collect_requested_outputs outputs gradients tf_gradient requested = inr m)
  <->
  Forall (fun entry => requested entry.2 = true -> is_Some (tf_gradient !! entry.1))
         gradients.
Proof.
  unfold Train.collect_requested_outputs.
  generalize (Train.collect_outputs outputs requested (∅ : gmap ArrayKey (Train.fetch Tensor))).
  induction gradients as [| [name key] items IH]; intros acc.
  - simpl. split; [constructor | eauto].
  - cbn [Train.collect_gradients]. destruct (requested key) eqn:Hreq.
    + destruct (tf_gradient !! name) as [t |] eqn:Ht.
      * rewrite IH. split.
        -- intros Hall. constructor; [simpl; rewrite Ht; eauto | done].
        -- intros Hall. by apply Forall_cons in Hall as [_ Hall].
      * split; [by intros [m Hm] |].
        intros Hall. apply Forall_cons in Hall as [Hhead _]. simpl in Hhead.
        rewrite Ht in Hhead. destruct (Hhead Hreq) as [? ?]. discriminate.
    + rewrite IH. split.
      * intros Hall. constructor; [simpl; congruence | done].
      * intros Hall. by apply Forall_cons in Hall as [_ Hall].
Qed.

Lemma collect_inputs_lookup (items : list (string * Train.input_key ArrayKey NdArray))
    arrays attrs (acc m : gmap string (Train.feed NdArray Attr)) :
  NoDup (map fst items) ->
  Train.collect_inputs items arrays attrs acc = inr m ->
  (forall name, name ∉ map fst items -> m !! name = acc !! name) /\
  (forall name key, (name, key) ∈ items ->
     m !! name = match Train.fed arrays attrs key with
                 | Some x => Some x
                 | None => acc !! name
                 end).
Proof.
  revert acc. induction items as [| [name key] items IH]; intros acc Hnd Hm.
  - injection Hm as <-. split; [done |]. intros name key Hin. by apply elem_of_nil in Hin.
  - cbn [map fst] in Hnd. apply NoDup_cons in Hnd as [Hnotin Hnd].
    cbn [Train.collect_inputs] in Hm.
    assert (Hstep : exists acc',
               Train.collect_inputs items arrays attrs acc' = inr m /\
               (forall n, n <> name -> acc' !! n = acc !! n) /\
               acc' !! name = match Train.fed arrays attrs key with
                              | Some x => Some x
                              | None => acc !! name
                              end).
    { destruct key as [k | a | attr |]; simpl.
      - destruct (arrays !! k) as [a |] eqn:Ha; simpl.
        + eexists. split; [exact Hm |]. split; [intros n Hn; by apply lookup_insert_ne |].
          apply lookup_insert_eq.
        + by exists acc.
      - eexists. split; [exact Hm |]. split; [intros n Hn; by apply lookup_insert_ne |].
        apply lookup_insert_eq.
      - destruct (attrs !! attr) as [v |] eqn:Hv; [| discriminate]. simpl.
        eexists. split; [exact Hm |]. split; [intros n Hn; by apply lookup_insert_ne |].
        apply lookup_insert_eq.
      - discriminate. }
    destruct Hstep as (acc' & Hm' & Hother & Hname).
    destruct (IH acc' Hnd Hm') as [Hout Hin]. split.
    + intros n Hn. rewrite Hout.
      * apply Hother. intros ->. apply Hn. apply elem_of_cons. by left.
      * intros Hn'. apply Hn. apply elem_of_cons. by right.
    + intros n key' Hel. apply elem_of_cons in Hel as [[= -> ->] | Hel].
      * rewrite Hout by done. done.
      * rewrite (Hin n key' Hel).
        destruct (Train.fed arrays attrs key'); [done |].
        apply Hother. intros ->. apply Hnotin.
        change name with (fst (name, key')). by apply list_elem_of_fmap_2.
Qed.

(** X18.  When [__collect_provided_inputs] returns, the dict holds for
    each input name what its key stands for: the data of the array of the
    batch, the constant array, or the batch attribute.  An array key that
    the batch does not hold leaves its input name out of the dict, with no
    exception; names that are not input names are never in the dict. *)
Theorem collect_provided_inputs_content
    (inputs : list (string * Train.input_key ArrayKey NdArray)) arrays attrs
    (m : gmap string (Train.feed NdArray Attr)) :
  NoDup (map fst inputs) ->
  Train.collect_provided_inputs inputs arrays attrs = inr m ->
  (forall name key, (name, key) ∈ inputs -> m !! name = Train.fed arrays attrs key) /\
  (forall name, name ∉ map fst inputs -> m !! name = None).
Proof.
  unfold Train.collect_provided_inputs. intros Hnd Hm.
  destruct (collect_inputs_lookup inputs arrays attrs ∅ m Hnd Hm) as [Hout Hin]. split.
  - intros name key Hel. rewrite (Hin name key Hel).
    destruct (Train.fed arrays attrs key); [done | apply lookup_empty].
  - intros name Hname. rewrite (Hout name Hname). apply lookup_empty.
Qed.

(** X19.  [__collect_provided_inputs] returns exactly when every input
    key is an array key, an array, or the name of an attribute that the
    batch has; a key of another kind, or the name of a missing attribute,
    makes it raise. *)
Theorem collect_provided_inputs_returns_iff
    (inputs : list (string * Train.input_key ArrayKey NdArray)) arrays attrs :
  (exists m, Train.collect_provided_inputs inputs arrays attrs = inr m) <->
  Forall (fun entry => Train.harmless attrs entry.2) inputs.
Proof.
  unfold Train.collect_provided_inputs.
  generalize (∅ : gmap string (Train.feed NdArray Attr)).
  induction inputs as [| [name key] items IH]; intros acc.
  - simpl. split; [constructor | eauto].
  - cbn [Train.collect_inputs]. destruct key as [k | a | attr |].
    + destruct (arrays !! k); rewrite IH; split;
        try (intros Hall; constructor; [exact I | done]);
        intros Hall; by apply Forall_cons in Hall as [_ Hall].
    + rewrite IH. split; [intros Hall; constructor; [exact I | done] |].
      intros Hall. by apply Forall_cons in Hall as [_ Hall].
    + destruct (attrs !! attr) as [v |] eqn:Hv.
      * rewrite IH. split; [intros Hall; constructor; [simpl; rewrite Hv; eauto | done] |].
        intros Hall. by apply Forall_cons in Hall as [_ Hall].
      * split; [by intros [m Hm] |]. intros Hall.
        apply Forall_cons in Hall as [Hhead _]. simpl in Hhead. rewrite Hv in Hhead.
        destruct Hhead as [? ?]. discriminate.
    + split; [by intros [m Hm] |]. intros Hall.
      apply Forall_cons in Hall as [Hhead _]. destruct Hhead.
Qed.

End TrainFacts.

Lemma collect_requested_outputs_keys_witness :
  exists m : gmap string (Train.fetch nat),
    Train.collect_requested_outputs MoreExamples.net_outputs MoreExamples.net_gradients
      MoreExamples.net_tf_gradient MoreExamples.net_requested = inr m /\
    (is_Some (m !! "GRAD"%string) <->
     MoreExamples.net_requested "GRAD"%string = true /\
     ("GRAD"%string ∈ map snd MoreExamples.net_outputs \/
      "GRAD"%string ∈ map snd MoreExamples.net_gradients)).
Proof.
  eexists. split; [reflexivity |].
  apply (collect_requested_outputs_keys MoreExamples.net_outputs
           MoreExamples.net_gradients MoreExamples.net_tf_gradient
           MoreExamples.net_requested _ "GRAD"%string eq_refl).
Defined.

Lemma collect_requested_outputs_gradient_first_witness :
  exists m : gmap string (Train.fetch nat),
    Train.collect_requested_outputs MoreExamples.net_outputs MoreExamples.net_gradients
      MoreExamples.net_tf_gradient MoreExamples.net_requested = inr m /\
    exists name t, (name, "PRED"%string) ∈ MoreExamples.net_gradients /\
                   MoreExamples.net_tf_gradient !! name = Some t /\
                   m !! "PRED"%string = Some (Train.FetchTensor t).
Proof.
  eexists. split; [reflexivity |].
  apply (proj1 (collect_requested_outputs_gradient_first MoreExamples.net_outputs
                  MoreExamples.net_gradients MoreExamples.net_tf_gradient
                  MoreExamples.net_requested _ "PRED"%string eq_refl eq_refl)).
  apply (bool_decide_unpack _). vm_compute. exact I.
Defined.

Lemma collect_requested_outputs_returns_iff_witness :
  exists m : gmap string (Train.fetch nat),
    Train.collect_requested_outputs MoreExamples.net_outputs MoreExamples.net_gradients
      MoreExamples.net_tf_gradient MoreExamples.net_requested = inr m.
Proof.
  apply (proj2 (collect_requested_outputs_returns_iff MoreExamples.net_outputs
                  MoreExamples.net_gradients MoreExamples.net_tf_gradient
                  MoreExamples.net_requested)).
  repeat constructor; intros _; vm_compute; eauto.
Defined.

Lemma collect_provided_inputs_content_witness :
  exists m : gmap string (Train.feed nat nat),
    Train.collect_provided_inputs MoreExamples.net_inputs MoreExamples.net_arrays
      MoreExamples.net_attrs = inr m /\
    m !! "raw:0"%string = Some (Train.FeedArray 11%nat) /\
    m !! "mask:0"%string = None /\
    m !! "step:0"%string = Some (Train.FeedAttr 3%nat).
Proof.
  eexists. split; [reflexivity |].
  assert (Hnd : NoDup (map fst MoreExamples.net_inputs)).
  { apply (bool_decide_unpack _). vm_compute. exact I. }
  destruct (collect_provided_inputs_content MoreExamples.net_inputs
              MoreExamples.net_arrays MoreExamples.net_attrs _ Hnd eq_refl)
    as [Hin _].
  split; [| split].
  - apply (Hin "raw:0"%string (Train.KeyArray "RAW"%string)).
    apply list_elem_of_In. simpl. auto 10.
  - apply (Hin "mask:0"%string (Train.KeyArray "MASK"%string)).
    apply list_elem_of_In. simpl. auto 10.
  - apply (Hin "step:0"%string (Train.KeyAttr "iteration"%string)).
    apply list_elem_of_In. simpl. auto 10.
Defined.

Lemma collect_provided_inputs_returns_iff_witness :
  exists m : gmap string (Train.feed nat nat),
    Train.collect_provided_inputs MoreExamples.net_inputs MoreExamples.net_arrays
      MoreExamples.net_attrs = inr m.
Proof.
  apply (proj2 (collect_provided_inputs_returns_iff MoreExamples.net_inputs
                  MoreExamples.net_arrays MoreExamples.net_attrs)).
  repeat constructor. vm_compute. eauto.
Defined.

(** * Bad factors *)

(** X20.  When a pair's turn comes, its output type is requested, and the
    requested ROI is malformed or the factor is a tuple whose length is
    not the dimensionality of that ROI, [prepare] raises
    DimensionMismatch with the request as the pairs before left it, and
    so does [process] with the batch. *)
Theorem bad_factor_length_raises {elt} (self : DownSample) (pre post : list item)
    (i o : VolumeType) (f : factor) (request req_k : Request)
    (batch b1 : Batch elt) (r : Roi) :
  volume_factors self = pre ++ (i, (f, o)) :: post ->
  ~ (roi_dims_ok r /\ factor_fits f (RoiOps.dims r)) ->
  (for_items prepare_pair pre request = Done req_k -> req_k !! o = Some r ->
   prepare self request = Raised DimensionMismatch req_k) /\
  (for_items (process_pair request) pre batch = Done b1 -> request !! o = Some r ->
   process self batch request = Raised DimensionMismatch b1).
Proof.
  intros Hvf Hbad. pose proof (scale_roi_dims_mismatch r f Hbad) as Hs. split.
  - intros Hpre Ho. unfold prepare. rewrite Hvf, for_items_app, Hpre.
    cbn [for_items]. unfold prepare_pair. by rewrite Ho, Hs.
  - intros Hpre Ho.
    apply (process_raises_in_first_loop self pre (i, (f, o)) post request batch b1);
      [done | done |].
    unfold process_pair. by rewrite Ho, Hs.
Qed.

Lemma bad_factor_length_raises_witness :
  prepare MoreExamples.flat_node Examples.half_request
    = Raised DimensionMismatch Examples.half_request /\
  process MoreExamples.flat_node Examples.wide_batch Examples.half_request
    = Raised DimensionMismatch Examples.wide_batch.
Proof.
  destruct (bad_factor_length_raises MoreExamples.flat_node [] [] Examples.A Examples.B
              (PerAxis [2; 2]) Examples.half_request Examples.half_request
              Examples.wide_batch Examples.wide_batch (Examples.cube 0 4) eq_refl)
    as [Hprep Hproc].
  - intros [_ Hfit]. simpl in Hfit. discriminate.
  - split; [apply Hprep | apply Hproc]; reflexivity.
Defined.

Lemma crop_never_raises (ws us shp : list Z) :
  (length (get_bounding_box (mkRoi ws us)) <= length shp)%nat ->
  exists axes, slice_axes (get_bounding_box (mkRoi ws us)) shp = Ok axes /\
               length axes = length (get_bounding_box (mkRoi ws us)).
Proof.
  unfold get_bounding_box; cbn [offset shape]. revert us shp.
  induction ws as [| w ws IH]; intros [| u us] [| n shp] Hlen;
    cbn [zip_with slice_axes length] in *; try (by exists []); try lia.
  destruct (IH us shp) as (axes & Hax & Hl); [lia |].
  unfold slice_indices at 1. cbn [step default]. cbn [Z.eqb]. cbn [bind].
  rewrite Hax. cbn [bind]. eexists. split; [reflexivity |]. simpl. by rewrite Hl.
Qed.

Lemma slice_indices_nonzero (sl : slice) (n : Z) :
  default 1 (step sl) <> 0 -> exists a, slice_indices sl n = Ok a.
Proof.
  intros Hne. unfold slice_indices.
  destruct (Z.eqb_spec (default 1 (step sl)) 0) as [Heq | _]; [done | eauto].
Qed.

Lemma stride_zero_raises (ks shp : list Z) :
  0 ∈ ks -> (length ks <= length shp)%nat ->
  slice_axes (map (fun k => mkSlice None None (Some k)) ks) shp = Err ValueError.
Proof.
  revert shp. induction ks as [| k ks IH]; intros shp Hin Hlen.
  - by apply elem_of_nil in Hin.
  - destruct shp as [| n shp]; [simpl in Hlen; lia |].
    cbn [map slice_axes].
    destruct (decide (k = 0)) as [-> | Hk]; [done |].
    destruct (slice_indices_nonzero (mkSlice None None (Some k)) n Hk) as [a Ha].
    rewrite Ha. cbn [bind]. rewrite IH; [done | | simpl in Hlen; lia].
    apply elem_of_cons in Hin as [Hin | Hin]; [congruence | done].
Qed.

Lemma getitem_axes {elt} (a : ndarray elt) (sls : list slice) axes :
  (length sls <= length (nd_shape a))%nat ->
  slice_axes sls (nd_shape a) = Ok axes ->
  getitem a sls
  = Ok (mkArray (map (fun x : Z * Z * Z => x.2) axes ++ drop (length sls) (nd_shape a))
          (fun idx => nd_at a (reindex axes idx))).
Proof.
  intros Hlen Hax. unfold getitem.
  rewrite guard_true by (by apply Nat.leb_le). cbn [bind]. by rewrite Hax.
Qed.

Lemma getitem_raises {elt} (a : ndarray elt) (sls : list slice) e :
  (length sls <= length (nd_shape a))%nat ->
  slice_axes sls (nd_shape a) = Err e -> getitem a sls = Err e.
Proof.
  intros Hlen Hax. unfold getitem.
  rewrite guard_true by (by apply Nat.leb_le). cbn [bind]. by rewrite Hax.
Qed.

(** X21.  A factor with a zero entry is not refused by [__scale_roi],
    which derives an empty window, but by numpy in [process]: when the
    containment assertion holds and the volume has the dimensionality of
    the request, the stride with step 0 raises ValueError and the batch
    is as the pairs before left it. *)
Theorem zero_factor_raises {elt} (self : DownSample) (pre post : list item)
    (i o : VolumeType) (f : factor) (request : Request)
    (batch b1 : Batch elt) (r s : Roi) (v : Volume elt) :
  volume_factors self = pre ++ (i, (f, o)) :: post ->
  for_items (process_pair request) pre batch = Done b1 ->
  request !! o = Some r -> scale_roi r f = Ok s ->
  factor_has_zero f (RoiOps.dims r) ->
  b1 !! i = Some v -> nd_shape (data v) = shape (roi v) -> roi_dims_ok (roi v) ->
  RoiOps.dims (roi v) = RoiOps.dims r ->
  RoiOps.contains (roi v) s = true ->
  RoiOps.is_empty s = true /\
  process self batch request = Raised ValueError b1.
Proof.
  intros Hvf Hpre Ho Hs Hzero Hi Hdata Hvd Hdims Hc.
  pose proof Hs as Hs'. apply scale_roi_Ok_inv in Hs' as (Hrd & Hfit & Hs_eq).
  pose proof (factor_list_length _ _ Hfit) as Hlen.
  set (ks := factor_list f (RoiOps.dims r)) in *.
  unfold factor_has_zero in Hzero. fold ks in Hzero.
  unfold roi_dims_ok, RoiOps.dims, Coordinate.dims in *.
  assert (Hlo : length (offset s) = length (offset r)).
  { rewrite Hs_eq. simpl. by apply closed_offset_length. }
  assert (Hls : length (shape s) = length (offset r)).
  { rewrite Hs_eq. simpl. rewrite length_zip_with. lia. }
  split.
  - rewrite Hs_eq. unfold RoiOps.is_empty. simpl.
    assert (Hgen : forall sh, length ks = length sh ->
              existsb (fun x => x <=? 0) (zip_with Z.mul sh ks) = true).
    { clear -Hzero. induction ks as [| k ks IH]; intros sh Hl.
      - by apply elem_of_nil in Hzero.
      - destruct sh as [| n sh]; [discriminate |]. injection Hl as Hl. simpl.
        apply elem_of_cons in Hzero as [<- | Hin].
        + rewrite Z.mul_0_r. done.
        + rewrite (IH Hin sh Hl). apply orb_true_r. }
    apply Hgen. lia.
  - apply (process_raises_in_first_loop self pre (i, (f, o)) post request batch b1);
      [done | done |].
    unfold process_pair, getkey. rewrite Ho, Hs. cbn [bind]. rewrite Hi. cbn [bind].
    rewrite Hc. cbn [guard bind].
    unfold RoiOps.sub, Coordinate.sub, RoiOps.get_begin.
    rewrite same_dims_true by lia. cbn [bind].
    set (w := zip_with Z.sub (offset s) (offset (roi v))).
    assert (Hbb : length (get_bounding_box (mkRoi w (shape s))) = length (offset r)).
    { unfold get_bounding_box, w. simpl. rewrite !length_zip_with. lia. }
    destruct (crop_never_raises w (shape s) (nd_shape (data v))) as (axes & Hax & Hal).
    { rewrite Hbb, Hdata. lia. }
    rewrite (getitem_axes (data v) _ axes); [| rewrite Hbb, Hdata; lia | done].
    cbn [bind].
    rewrite stride_slices_list.
    replace (RoiOps.dims (roi v)) with (length (offset r))
      by (unfold RoiOps.dims, Coordinate.dims; lia).
    fold ks.
    rewrite (getitem_raises _ _ ValueError); [done | |].
    + cbn [nd_shape]. rewrite length_app, !length_map. lia.
    + cbn [nd_shape]. apply stride_zero_raises; [done |].
      rewrite length_app, length_map. lia.
Qed.

Lemma zero_factor_raises_witness :
  RoiOps.is_empty (mkRoi [2; 2; 2] [0; 0; 0]) = true /\
  process MoreExamples.zero_node Examples.wide_batch Examples.half_request
  = Raised ValueError Examples.wide_batch.
Proof.
  apply (zero_factor_raises MoreExamples.zero_node [] [] Examples.A Examples.B (Uniform 0)
           Examples.half_request Examples.wide_batch Examples.wide_batch
           (Examples.cube 0 4) (mkRoi [2; 2; 2] [0; 0; 0])
           (mkVolume (Examples.index_array 10) (Examples.cube (-3) 10) [4; 4; 40])).
  - reflexivity.
  - reflexivity.
  - reflexivity.
  - reflexivity.
  - unfold factor_has_zero. simpl. apply elem_of_cons. by left.
  - reflexivity.
  - reflexivity.
  - reflexivity.
  - reflexivity.
  - reflexivity.
Defined.

(** * The order of the items *)

Lemma prepare_pair_acts (s : Request) i f o r sc x :
  s !! o = Some r -> scale_roi r f = Ok sc ->
  match s !! i with
  | Some e => RoiOps.union e sc = Ok x
  | None => x = sc
  end ->
  prepare_pair s (i, (f, o)) = Ok (delete o (<[i := x]> s)).
Proof.
  intros Ho Hs Hx. destruct (s !! i) as [e |] eqn:Hi.
  - by apply prepare_pair_merge with r sc e.
  - subst x. by apply prepare_pair_fresh with r.
Qed.

(** Two pairs with four different types can take their turns in either
    order. *)
Lemma prepare_pair_commute (p q : item) (s s1 s2 : Request) :
  item_input p <> item_input q -> item_output p <> item_output q ->
  item_input p <> item_output q -> item_output p <> item_input q ->
  prepare_pair s p = Ok s1 -> prepare_pair s1 q = Ok s2 ->
  exists t1, prepare_pair s q = Ok t1 /\ prepare_pair t1 p = Ok s2.
Proof.
  destruct p as [ip [fp op]], q as [iq [fq oq]].
  unfold item_input, item_output; cbn [fst snd].
  intros Hii Hoo Hio Hoi Hp Hq.
  pose proof Hp as Hp'.
  apply prepare_pair_inv in Hp' as [[Hop ->] | (rp & sp & x & Hop & Hsp & -> & Hx)].
  - exists s2. split; [done |]. apply prepare_pair_absent.
    rewrite (prepare_pair_other s s2 (iq, (fq, oq)) op Hq); done.
  - pose proof Hq as Hq'.
    apply prepare_pair_inv in Hq' as [[Hoq ->] | (rq & sq & y & Hoq & Hsq & -> & Hy)].
    + exists s. split; [| done]. apply prepare_pair_absent.
      rewrite lookup_delete_ne, lookup_insert_ne in Hoq by done. done.
    + rewrite lookup_delete_ne, lookup_insert_ne in Hoq by done.
      rewrite lookup_delete_ne, lookup_insert_ne in Hy by done.
      exists (delete oq (<[iq := y]> s)). split.
      * by apply prepare_pair_acts with rq sq.
      * assert (Hgoal : prepare_pair (delete oq (<[iq := y]> s)) (ip, (fp, op))
                        = Ok (delete op (<[ip := x]> (delete oq (<[iq := y]> s))))).
        { apply prepare_pair_acts with rp sp; [| done |].
          - rewrite lookup_delete_ne, lookup_insert_ne by done. done.
          - rewrite lookup_delete_ne, lookup_insert_ne by done. done. }
        rewrite Hgoal. f_equal. apply map_eq. intros k.
        repeat (rewrite lookup_delete || rewrite lookup_insert).
        repeat case_decide; subst; done.
Qed.

Lemma separated_cons (it : item) (items : list item) :
  separated (it :: items) ->
  separated items /\
  Forall (fun q => item_input it <> item_input q /\ item_output it <> item_output q /\
                   item_input it <> item_output q /\ item_output it <> item_input q)
         items.
Proof.
  unfold separated. cbn [map]. intros Hnd.
  rewrite <- app_comm_cons in Hnd. apply NoDup_cons in Hnd as [Hi Hnd].
  apply NoDup_app in Hnd as (Hins & Hdisj & Houts).
  apply NoDup_cons in Houts as [Ho Houts].
  split.
  - apply NoDup_app. split; [done |]. split; [| done].
    intros x Hx Hx'. apply (Hdisj x Hx). apply elem_of_cons. by right.
  - apply Forall_forall. intros q Hq.
    assert (Hqi : item_input q ∈ map item_input items) by (by apply list_elem_of_fmap_2).
    assert (Hqo : item_output q ∈ map item_output items) by (by apply list_elem_of_fmap_2).
    repeat split; intros Heq.
    + apply Hi. rewrite Heq. apply elem_of_app. by left.
    + apply Ho. by rewrite Heq.
    + apply Hi. rewrite Heq. apply elem_of_app. right. apply elem_of_cons. by right.
    + apply (Hdisj (item_input q) Hqi). rewrite <- Heq. apply elem_of_cons. by left.
Qed.

Lemma separated_perm (l1 l2 : list item) :
  l1 ≡ₚ l2 -> separated l1 -> separated l2.
Proof.
  unfold separated. intros Hp Hnd.
  assert (Hperm : map item_input l1 ++ map item_output l1
                  ≡ₚ map item_input l2 ++ map item_output l2).
  { by rewrite Hp. }
  by rewrite <- Hperm.
Qed.

Lemma prepare_perm (l1 l2 : list item) :
  l1 ≡ₚ l2 -> separated l1 ->
  forall s s' : Request,
    for_items prepare_pair l1 s = Done s' -> for_items prepare_pair l2 s = Done s'.
Proof.
  induction 1 as [| x l l' Hp IH | x y l | l l' l'' Hp1 IH1 Hp2 IH2]; intros Hsep s s' H.
  - done.
  - apply for_items_Done_cons in H as (s1 & H1 & H).
    cbn [for_items]. rewrite H1. apply IH; [| done].
    by apply separated_cons in Hsep as [Hsep _].
  - apply for_items_Done_cons in H as (s1 & H1 & H).
    apply for_items_Done_cons in H as (s2 & H2 & H).
    apply separated_cons in Hsep as [_ Hall].
    apply Forall_cons in Hall as [(Hii & Hoo & Hio & Hoi) _].
    destruct (prepare_pair_commute y x s s1 s2 Hii Hoo Hio Hoi H1 H2)
      as (t1 & Ht1 & Ht2).
    cbn [for_items]. by rewrite Ht1, Ht2.
  - apply IH2; [by apply separated_perm with l |]. by apply IH1.
Qed.

(** X22.  The request that [prepare] returns does not depend on the order
    in which the dict hands out its items, when the input and output types
    of the configuration are all different from one another. *)
Theorem prepare_order_independent (self self' : DownSample)
    (request request' : Request) :
  volume_factors self ≡ₚ volume_factors self' ->
  separated (volume_factors self) ->
  prepare self request = Done request' ->
  prepare self' request = Done request'.
Proof. intros Hp Hsep H. unfold prepare in *. by apply prepare_perm with (volume_factors self). Qed.

Lemma prepare_order_independent_witness :
  exists request' : Request,
    prepare MoreExamples.pair_node MoreExamples.pair_request = Done request' /\
    prepare MoreExamples.pair_node_swapped MoreExamples.pair_request = Done request'.
Proof.
  eexists. split; [vm_compute; reflexivity |].
  apply (prepare_order_independent MoreExamples.pair_node MoreExamples.pair_node_swapped).
  - apply perm_swap.
  - apply (bool_decide_unpack _). vm_compute. exact I.
  - vm_compute. reflexivity.
Defined.

(** * What [process] leaves in the batch *)

Section Restored.
Context {elt : Type}.

(** A restore step on a type the batch holds. *)
Lemma restore_pair_spec (request : Request) (batch batch' : Batch elt) i fo v :
  restore_pair request batch (i, fo) = Ok batch' -> batch !! i = Some v ->
  exists v', batch' = <[i := v']> batch /\ restored request i v v'.
Proof.
  unfold restore_pair, getkey. intros H Hi. rewrite Hi in H.
  destruct (request !! i) as [rr |] eqn:Hr; cbn [bind] in H; [| discriminate].
  case_bool_decide as Hne.
  - apply bind_Ok in H as ([] & Hg & H).
    apply bind_Ok in H as (w & Hw & H). apply bind_Ok in H as (d & Hd & H).
    injection H as <-.
    exists (mkVolume d rr (resolution v)). split; [done |].
    exists rr. split; [done |]. split; [done |]. split; [done |]. right.
    split; [done |]. split; [| by exists w].
    unfold guard in Hg. by destruct (RoiOps.contains (roi v) rr).
  - injection H as <-. exists v. split; [by rewrite insert_id |].
    exists rr. split; [done |].
    assert (Heq : roi v = rr) by (by destruct (decide (roi v = rr))).
    split; [done |]. split; [done |]. by left.
Qed.

(** A volume that has the requested ROI is left as it is. *)
Lemma restore_pair_same (request : Request) (batch : Batch elt) i fo v :
  batch !! i = Some v -> request !! i = Some (roi v) ->
  restore_pair request batch (i, fo) = Ok batch.
Proof.
  intros Hi Hr. unfold restore_pair, getkey. rewrite Hi, Hr. cbn [bind].
  by rewrite bool_decide_eq_false_2 by (intros Hn; by apply Hn).
Qed.

Lemma restored_again (request : Request) i (v v1 v2 : Volume elt) :
  restored request i v v1 -> restored request i v1 v2 -> v2 = v1.
Proof.
  intros (rr & Hr & Hroi & _ & _) (rr' & Hr' & _ & _ & [[_ ->] | [Hne _]]); [done |].
  congruence.
Qed.

(** The restore loop, type by type. *)
Lemma restore_loop_spec (request : Request) (items : list item) (batch batch' : Batch elt)
    i v :
  for_items (restore_pair request) items batch = Done batch' ->
  batch !! i = Some v ->
  (i ∈ map item_input items ->
   exists v', batch' !! i = Some v' /\ restored request i v v') /\
  (i ∉ map item_input items -> batch' !! i = Some v).
Proof.
  revert batch v. induction items as [| [j fo] items IH]; intros batch v H Hi.
  - injection H as <-. split; [| done]. intros Hin. by apply elem_of_nil in Hin.
  - apply for_items_Done_cons in H as (b1 & H1 & H). cbn [map].
    change (item_input (j, fo)) with j.
    destruct (decide (i = j)) as [<- | Hne].
    + destruct (restore_pair_spec request batch b1 i fo v H1 Hi) as (v1 & -> & Hres).
      assert (Hv1 : (<[i := v1]> batch) !! i = Some v1) by apply lookup_insert_eq.
      destruct (IH _ v1 H Hv1) as [Hin Hout]. split; [| intros Hn; destruct Hn;
        apply elem_of_cons; by left].
      intros _. destruct (decide (i ∈ map item_input items)) as [Hmem | Hmem].
      * destruct (Hin Hmem) as (v2 & Hv2 & Hres2).
        rewrite (restored_again request i v v1 v2 Hres Hres2) in Hv2. by exists v1.
      * exists v1. split; [by apply Hout | done].
    + assert (Hb1 : b1 !! i = Some v).
      { rewrite (restore_pair_other request batch b1 (j, fo) i H1); done. }
      destruct (IH _ v H Hb1) as [Hin Hout]. split.
      * intros Hmem. apply elem_of_cons in Hmem as [-> | Hmem]; [done | by apply Hin].
      * intros Hn. apply Hout. intros Hmem. apply Hn. apply elem_of_cons. by right.
Qed.

End Restored.

Lemma zip_sub_self_add (o idx : list Z) :
  length o = length idx -> zip_with Z.add (zip_with Z.sub o o) idx = idx.
Proof.
  revert idx. induction o as [| a o IH]; intros [| x idx]; simpl; try done.
  intros [= Hlen]. rewrite IH by done. f_equal. lia.
Qed.

(** The array of a restored volume, for a well-formed volume that covers
    the requested ROI. *)
Lemma restored_cells {elt} (request : Request) i (v v' : Volume elt) :
  restored request i v v' ->
  wf_volume v -> Forall (fun u => 0 <= u) (shape (roi v')) ->
  RoiOps.box_within (offset (roi v)) (shape (roi v))
    (offset (roi v')) (shape (roi v')) = true ->
  nd_shape (data v') = shape (roi v') /\
  forall idx, length idx = RoiOps.dims (roi v') ->
    nd_at (data v') idx
    = nd_at (data v) (zip_with Z.add (zip_with Z.sub (offset (roi v')) (offset (roi v))) idx).
Proof.
  intros (rr & Hr & Hroi & Hres & Hcase) [Hwf Hdata] Hnn Hbox.
  destruct Hcase as [[Heq ->] | (Hne & Hc & w & Hw & Hcrop)].
  - split; [done |]. intros idx Hidx.
    unfold RoiOps.dims, Coordinate.dims in Hidx. by rewrite zip_sub_self_add.
  - rewrite Hroi in *.
    pose proof (box_within_lengths _ _ _ _ Hbox) as (Hl1 & Hl2 & Hl3).
    unfold RoiOps.sub, Coordinate.sub, RoiOps.get_begin in Hw.
    rewrite same_dims_true in Hw by done. cbn [bind] in Hw. injection Hw as <-.
    assert (Hbox' : RoiOps.box_within (offset (roi v)) (nd_shape (data v))
                      (offset rr) (shape rr) = true) by (by rewrite Hdata).
    rewrite (getitem_crop (data v) _ _ _ Hbox' Hnn) in Hcrop. injection Hcrop as <-.
    split; [done |]. intros idx Hidx. unfold RoiOps.dims, Coordinate.dims in Hidx.
    cbn [nd_at]. rewrite reindex_crop; [done | rewrite length_zip_with; lia | lia].
Qed.

(** C2.  When [process] returns, every configured input type that the
    batch held, and so holds after the downsampling loop, is still a key
    of the batch,
    and its volume has exactly the ROI that the request holds for the
    type, with the resolution unchanged: the volume is untouched when it
    had that ROI already, and otherwise its array is the old array cut to
    the requested ROI, so that what was fetched beyond it is gone.  The
    entry after the downsampling loop is the one of the incoming batch
    when the type is no pair's output type. *)
Theorem process_restores_inputs {elt} (self : DownSample)
    (batch batch' : Batch elt) (request : Request) :
  process self batch request = Done batch' ->
  exists b1,
    for_items (process_pair request) (volume_factors self) batch = Done b1 /\
    forall it, it ∈ volume_factors self ->
      (forall v', batch' !! item_input it = Some v' ->
                  request !! item_input it = Some (roi v')) /\
      (is_Some (batch !! item_input it) -> is_Some (b1 !! item_input it)) /\
      (Forall (fun q => item_output q <> item_input it) (volume_factors self) ->
       b1 !! item_input it = batch !! item_input it) /\
      (forall v, b1 !! item_input it = Some v ->
         exists v', batch' !! item_input it = Some v' /\
                    restored request (item_input it) v v' /\
                    (wf_volume v -> Forall (fun u => 0 <= u) (shape (roi v')) ->
                     RoiOps.box_within (offset (roi v)) (shape (roi v))
                       (offset (roi v')) (shape (roi v')) = true ->
                     nd_shape (data v') = shape (roi v') /\
                     forall idx, length idx = RoiOps.dims (roi v') ->
                       nd_at (data v') idx
                       = nd_at (data v)
                           (zip_with Z.add
                              (zip_with Z.sub (offset (roi v')) (offset (roi v))) idx))).
Proof.
  intros H. apply process_Done_inv in H as (b1 & H1 & H2).
  exists b1. split; [done |]. intros it Hit. split; [| split; [| split]].
  - intros v' Hv'. pose proof (restore_loop request _ _ _ H2) as [_ Hall].
    by apply (proj1 (Forall_forall _ _) Hall it Hit).
  - apply (loop_keeps (process_pair request) (volume_factors self) batch b1
             (item_input it)
             (fun b b' q => process_pair_keeps request b b' q (item_input it)) H1).
  - intros Hout.
    pose proof (for_items_invariant
                  (fun b : Batch elt => b !! item_input it = batch !! item_input it)
                  (process_pair request) (volume_factors self) batch eq_refl) as Hinv.
    rewrite H1 in Hinv. apply Hinv. intros s1 s2 q Hq Hs1 Hstep.
    rewrite (process_pair_other request s1 s2 q (item_input it) Hstep); [done |].
    intros Heq. by apply (proj1 (Forall_forall _ _) Hout q Hq).
  - intros v Hv.
    destruct (restore_loop_spec request (volume_factors self) b1 batch'
                (item_input it) v H2 Hv) as [Hin _].
    destruct Hin as (v' & Hv' & Hres); [by apply list_elem_of_fmap_2 |].
    exists v'. split; [done |]. split; [done |].
    by apply restored_cells with request (item_input it).
Qed.

Lemma process_restores_inputs_witness :
  exists (batch' : Batch (list Z)) (v' : Volume (list Z)),
    process Examples.half_node Examples.wide_batch Examples.both_request = Done batch' /\
    batch' !! Examples.A = Some v' /\
    roi v' = Examples.cube 0 4 /\ resolution v' = [4; 4; 40] /\
    nd_shape (data v') = [4; 4; 4] /\
    forall idx, length idx = 3%nat ->
      nd_at (data v') idx
      = nd_at (Examples.index_array 10) (zip_with Z.add [3; 3; 3] idx).
Proof.
  assert (Hd : exists b' : Batch (list Z),
             process Examples.half_node Examples.wide_batch Examples.both_request
             = Done b') by (eexists; reflexivity).
  destruct Hd as [b' Hb'].
  destruct (process_restores_inputs Examples.half_node Examples.wide_batch b'
              Examples.both_request Hb') as (b1 & H1 & Hall).
  destruct (Hall (Examples.A, (Uniform 2, Examples.B))) as (_ & _ & Hsame & Hcrop).
  { simpl. apply list_elem_of_singleton. reflexivity. }
  assert (Hb1 : b1 !! Examples.A
                = Some (mkVolume (Examples.index_array 10) (Examples.cube (-3) 10)
                          [4; 4; 40])).
  { change (item_input (Examples.A, (Uniform 2, Examples.B))) with Examples.A in Hsame.
    rewrite Hsame; [reflexivity |]. repeat constructor; discriminate. }
  destruct (Hcrop _ Hb1) as (v' & Hv' & Hres & Hcells).
  pose proof Hres as (rr & Hr & Hroi & Hresol & _).
  change (item_input (Examples.A, (Uniform 2, Examples.B))) with Examples.A in *.
  assert (Hrr : rr = Examples.cube 0 4).
  { vm_compute in Hr. by injection Hr as <-. }
  rewrite Hrr in Hroi.
  exists b', v'. split; [done |]. split; [done |]. split; [done |]. split; [done |].
  rewrite Hroi in Hcells. apply Hcells.
  - split; [split; [reflexivity |] | reflexivity]. simpl. repeat constructor; lia.
  - simpl. repeat constructor; lia.
  - reflexivity.
Defined.

Section Stored.
Context {elt : Type}.

(** Once an iteration of the downsampling loop has stored a volume with
    the requested ROI under an output type, [process] goes on with the
    pairs that follow and then restores; whatever happens there, that
    volume is what the batch holds under the output type at the end. *)
Lemma process_after_step (self : DownSample) (pre post : list item) i f o
    (request : Request) (batch b1 : Batch elt) (vol : Volume elt) :
  NoDup (map item_output (volume_factors self)) ->
  volume_factors self = pre ++ (i, (f, o)) :: post ->
  for_items (process_pair request) pre batch = Done b1 ->
  process_pair request b1 (i, (f, o)) = Ok (<[o := vol]> b1) ->
  request !! o = Some (roi vol) ->
  process self batch request
  = match for_items (process_pair request) post (<[o := vol]> b1) with
    | Done b' => for_items (restore_pair request) (volume_factors self) b'
    | Raised e b' => Raised e b'
    end /\
  state_of (process self batch request) !! o = Some vol.
Proof.
  intros Hnd Hvf Hpre Hstep Ho.
  assert (Hproc : process self batch request
                  = match for_items (process_pair request) post (<[o := vol]> b1) with
                    | Done b' => for_items (restore_pair request) (volume_factors self) b'
                    | Raised e b' => Raised e b'
                    end).
  { unfold process.
    by rewrite (first_loop_at self pre (i, (f, o)) post request batch b1 Hvf Hpre), Hstep. }
  split; [done |]. rewrite Hproc.
  assert (Hpost : forall q, q ∈ post -> item_output q <> o).
  { intros q Hq Heq. rewrite Hvf, fmap_app, fmap_cons in Hnd.
    apply NoDup_app in Hnd as (_ & _ & Hnd). apply NoDup_cons in Hnd as [Hnotin _].
    apply Hnotin. change (item_output (i, (f, o))) with o. rewrite <- Heq.
    by apply list_elem_of_fmap_2. }
  pose proof (for_items_invariant (fun b : Batch elt => b !! o = Some vol)
                (process_pair request) post (<[o := vol]> b1)
                (lookup_insert_eq _ _ _)) as Hloop.
  assert (H1 : state_of (for_items (process_pair request) post (<[o := vol]> b1)) !! o
               = Some vol).
  { apply Hloop. intros s1 s2 q Hq Hs1 Hq_step.
    rewrite (process_pair_other request s1 s2 q o Hq_step); [done |].
    intros Heq. by apply (Hpost q Hq). }
  destruct (for_items (process_pair request) post (<[o := vol]> b1)) as [b' | e b'];
    [| done].
  simpl in H1.
  apply (for_items_invariant (fun b : Batch elt => b !! o = Some vol)); [done |].
  intros s1 s2 [j fo] Hq Hs1 Hq_step.
  destruct (decide (j = o)) as [-> | Hne].
  - rewrite (restore_pair_same request s1 o fo vol Hs1 Ho) in Hq_step.
    by injection Hq_step as <-.
  - rewrite (restore_pair_other request s1 s2 (j, fo) o Hq_step); [done |].
    intros Heq. by apply Hne.
Qed.

End Stored.

Lemma slice_indices_stride_positive (k n : Z) :
  0 < k -> exists len, slice_indices (mkSlice None None (Some k)) n = Ok (0, k, len).
Proof.
  intros Hk. unfold slice_indices; simpl.
  destruct (Z.eqb_spec k 0); [lia |]. destruct (Z.ltb_spec k 0); [lia |]. eauto.
Qed.

(** Through a stride with positive steps, cell [x] is cell [x * k] of the
    sliced array, per axis. *)
Lemma stride_axes_cells (ks shp : list Z) axes :
  slice_axes (map (fun k => mkSlice None None (Some k)) ks) shp = Ok axes ->
  Forall (fun k => 0 < k) ks ->
  forall idx, length idx = length ks -> reindex axes idx = zip_with Z.mul idx ks.
Proof.
  revert shp axes. induction ks as [| k ks IH]; intros shp axes Hax Hpos idx Hlen.
  - destruct idx; [| discriminate]. simpl in Hax. by injection Hax as <-.
  - destruct shp as [| n shp]; [discriminate |].
    apply Forall_cons in Hpos as [Hk Hpos].
    cbn [map slice_axes] in Hax.
    destruct (slice_indices_stride_positive k n Hk) as [len Hsl].
    rewrite Hsl in Hax. cbn [bind] in Hax.
    apply bind_Ok in Hax as (rest & Hrest & Hax). injection Hax as <-.
    destruct idx as [| x idx]; [discriminate |]. injection Hlen as Hlen.
    cbn [reindex zip_with]. rewrite (IH shp rest Hrest Hpos idx Hlen). f_equal; lia.
Qed.

Lemma getitem_Ok_inv {elt} (a b : ndarray elt) (sls : list slice) :
  getitem a sls = Ok b ->
  exists axes, slice_axes sls (nd_shape a) = Ok axes /\
               nd_at b = fun idx => nd_at a (reindex axes idx).
Proof.
  unfold getitem. intros H. apply bind_Ok in H as ([] & _ & H).
  apply bind_Ok in H as (axes & Hax & H). injection H as <-. by exists axes.
Qed.

(** C5.  When the turn of a configured pair comes in [process] and its
    output type is requested, then in every case in which the iteration
    raises nothing (the containment assertion holds, numpy gives the
    array of the input cut to the window [__scale_roi] re-derives and then
    the array with every [f]-th cell of it from cell 0 on, the shape is
    the requested one) [process] stores under the output key the volume
    of that array with the requested ROI and the resolution of the input
    times [f], goes on with the pairs that follow and the restore loop,
    and that volume is what the batch holds under the output key when
    [process] ends.  For a well-formed request ROI and input volume, a
    positive factor and an input that covers the window, the iteration
    raises nothing, and cell [x] of the stored array is the cell
    [w + x * f] of the input array, [w] being the begin of the window
    relative to the input volume. *)
Theorem process_pair_decimates {elt} (self : DownSample)
    (pre post : list item) (i o : VolumeType) (f : factor)
    (batch b1 : Batch elt) (request : Request) (r s : Roi) (v : Volume elt) :
  accepted_items self ->
  volume_factors self = pre ++ (i, (f, o)) :: post ->
  for_items (process_pair request) pre batch = Done b1 ->
  request !! o = Some r -> b1 !! i = Some v -> scale_roi r f = Ok s ->
  (forall w cropped strided res,
     RoiOps.contains (roi v) s = true ->
     RoiOps.sub s (RoiOps.get_begin (roi v)) = Ok w ->
     getitem (data v) (get_bounding_box w) = Ok cropped ->
     getitem cropped (stride_slices f (RoiOps.dims (roi v))) = Ok strided ->
     nd_shape strided = RoiOps.get_shape r ->
     Coordinate.mul (resolution v) f = Ok res ->
     process self batch request
     = match for_items (process_pair request) post
               (<[o := mkVolume strided r res]> b1) with
       | Done b' => for_items (restore_pair request) (volume_factors self) b'
       | Raised e b' => Raised e b'
       end /\
     state_of (process self batch request) !! o = Some (mkVolume strided r res) /\
     (factor_positive f ->
      forall idx, length idx = RoiOps.dims r ->
        nd_at strided idx
        = nd_at cropped (zip_with Z.mul idx (factor_list f (RoiOps.dims r))))) /\
  (wf_roi r -> factor_positive f -> wf_volume v ->
   factor_fits f (length (resolution v)) ->
   RoiOps.box_within (offset (roi v)) (shape (roi v)) (offset s) (shape s) = true ->
   exists strided res,
     process self batch request
     = match for_items (process_pair request) post
               (<[o := mkVolume strided r res]> b1) with
       | Done b' => for_items (restore_pair request) (volume_factors self) b'
       | Raised e b' => Raised e b'
       end /\
     state_of (process self batch request) !! o = Some (mkVolume strided r res) /\
     Coordinate.mul (resolution v) f = Ok res /\
     nd_shape strided = RoiOps.get_shape r /\
     forall idx, length idx = RoiOps.dims r ->
       nd_at strided idx
       = nd_at (data v)
           (decimate_index (zip_with Z.sub (offset s) (offset (roi v)))
                           (factor_list f (RoiOps.dims r)) idx)).
Proof.
  intros Hacc Hvf Hpre Ho Hi Hs.
  assert (Hnd : NoDup (map item_output (volume_factors self))).
  { apply init_outputs_spec in Hacc as [Houts Hnd]; [| apply NoDup_nil_2].
    simpl in Houts. by rewrite <- Houts. }
  pose proof (scale_roi_Ok_inv r s f Hs) as (Hrd & Hffit & Hs_eq).
  split.
  - intros w cropped strided res Hc Hw Hcrop Hstr Hshape Hmul.
    assert (Hstep : process_pair request b1 (i, (f, o))
                    = Ok (<[o := mkVolume strided r res]> b1)).
    { rewrite (process_pair_steps request b1 i f o r s v w cropped strided
                 Ho Hs Hi Hc Hw Hcrop Hstr).
      rewrite bool_decide_eq_true_2 by done. by rewrite Hmul. }
    destruct (process_after_step self pre post i f o request batch b1
                (mkVolume strided r res) Hnd Hvf Hpre Hstep Ho) as [Hproc Hstate].
    split; [done |]. split; [done |].
    intros Hfpos idx Hidx.
    assert (Hdims : RoiOps.dims (roi v) = RoiOps.dims r).
    { unfold RoiOps.sub, Coordinate.sub, RoiOps.get_begin in Hw.
      destruct (Coordinate.same_dims (offset s) (offset (roi v))) eqn:Hsame;
        [| discriminate].
      apply same_dims_length in Hsame. rewrite Hs_eq in Hsame. simpl in Hsame.
      pose proof (factor_list_length _ _ Hffit) as Hlen.
      unfold roi_dims_ok, RoiOps.dims, Coordinate.dims in *.
      rewrite closed_offset_length in Hsame by done. lia. }
    rewrite stride_slices_list, Hdims in Hstr.
    apply getitem_Ok_inv in Hstr as (axes & Hax & Hat). rewrite Hat.
    rewrite (stride_axes_cells _ _ axes Hax); [done | |].
    + by apply factor_list_positive.
    + rewrite Hidx. symmetry. by apply factor_list_length.
  - intros Hwf Hfpos Hwfv Hres Hbox.
    destruct (decimate_step i o f b1 request r s v Ho Hwf Hfpos Hffit Hi Hwfv Hres
                Hs Hbox) as (strided & res & Hstep & Hmul & Hshape & Hcells).
    destruct (process_after_step self pre post i f o request batch b1
                (mkVolume strided r res) Hnd Hvf Hpre Hstep Ho) as [Hproc Hstate].
    by exists strided, res.
Qed.

Lemma half_node_accepted : accepted_items Examples.half_node.
Proof. reflexivity. Qed.

Lemma process_pair_decimates_witness :
  (exists (cropped strided : ndarray (list Z)) res,
     getitem (Examples.index_array 10) (get_bounding_box (mkRoi [1; 1; 1] [8; 8; 8]))
       = Ok cropped /\
     getitem cropped (stride_slices (Uniform 2) 3) = Ok strided /\
     state_of (process Examples.half_node Examples.wide_batch Examples.both_request)
       !! Examples.B = Some (mkVolume strided (Examples.cube 0 4) res) /\
     forall idx, length idx = 3%nat ->
       nd_at strided idx = nd_at cropped (zip_with Z.mul idx [2; 2; 2])) /\
  (exists (strided : ndarray (list Z)) res (batch' : Batch (list Z)),
     process Examples.half_node Examples.wide_batch Examples.both_request = Done batch' /\
     batch' !! Examples.B = Some (mkVolume strided (Examples.cube 0 4) res) /\
     Coordinate.mul [4; 4; 40] (Uniform 2) = Ok res /\
     nd_shape strided = [4; 4; 4] /\
     forall idx, length idx = 3%nat ->
       nd_at strided idx
       = nd_at (Examples.index_array 10) (decimate_index [1; 1; 1] [2; 2; 2] idx)).
Proof.
  destruct (process_pair_decimates Examples.half_node [] [] Examples.A Examples.B
              (Uniform 2) Examples.wide_batch Examples.wide_batch Examples.both_request
              (Examples.cube 0 4) (Examples.cube (-2) 8)
              (mkVolume (Examples.index_array 10) (Examples.cube (-3) 10) [4; 4; 40])
              half_node_accepted eq_refl eq_refl eq_refl eq_refl eq_refl)
    as [Hany Hwf].
  split.
  - assert (Hc : exists c : ndarray (list Z),
               getitem (Examples.index_array 10)
                 (get_bounding_box (mkRoi [1; 1; 1] [8; 8; 8])) = Ok c)
      by (eexists; reflexivity).
    destruct Hc as [cropped Hcrop].
    assert (Hst : exists d : ndarray (list Z),
               getitem cropped (stride_slices (Uniform 2) 3) = Ok d /\
               nd_shape d = [4; 4; 4]).
    { vm_compute in Hcrop. injection Hcrop as <-. eexists. split; reflexivity. }
    destruct Hst as (strided & Hstr & Hshape).
    destruct (Hany (mkRoi [1; 1; 1] [8; 8; 8]) cropped strided [8; 8; 80]
                eq_refl eq_refl Hcrop Hstr Hshape eq_refl) as (_ & Hstate & Hcells).
    exists cropped, strided, [8; 8; 80]. split; [done |]. split; [done |].
    split; [done |]. apply Hcells. simpl. lia.
  - destruct Hwf as (strided & res & Hproc & Hstate & Hmul & Hshape & Hcells).
    + split; [reflexivity |]. simpl. repeat constructor; lia.
    + simpl. lia.
    + split; [split; [reflexivity |] | reflexivity]. simpl. repeat constructor; lia.
    + exact I.
    + reflexivity.
    + assert (Hd : exists b' : Batch (list Z),
                 process Examples.half_node Examples.wide_batch Examples.both_request
                 = Done b') by (eexists; reflexivity).
      destruct Hd as [b' Hb']. rewrite Hb' in Hstate. simpl in Hstate.
      by exists strided, res, b'.
Defined.

(** * Two pairs for one input type *)







(** A node made by [__init__] from a dict passes the assertions on its
    items. *)
Lemma init_accepted (entries : list item) (self : DownSample) :
  DownSample_init entries = Ok self -> accepted_items self.
Proof.
  unfold DownSample_init, accepted_items. intros H.
  apply bind_Ok in H as (outs & Ho & [= <-]). done.
Qed.
